(** * DGDS engine: dialog hit-testing, action selection, scene changes and
      save-state synchronisation

    A shallow embedding of [engines/dgds/dialog.cpp], of
    [DgdsEngine::changeScene] and [DgdsEngine::syncGame] from
    [engines/dgds/dgds.cpp] and of [Inventory::close] / [Inventory::syncState]
    from [engines/dgds/inventory.cpp], followed by the properties stated about
    them.

    Conventions.
    - C++ [int] values are integers of [Z]; signed overflow is undefined
      behaviour in C++, so [int] arithmetic is exact.  Where the source mixes
      [int] with [uint] (which C++ evaluates modulo 2^32) or stores into a
      16-bit field, the wrap-around is written out with [to_uint32],
      [to_int32] and [to_uint16].
    - [Common::String] is a list of characters; sizes are [Z].  Plain [char]
      is signed: where the source compares a character by order or passes it
      for a [uint32], its value is that of a signed byte ([plain_char],
      [char_as_uint32]).
    - [assert], [error(...)] and null dereferences end a call with [Abort].
    - Collaborators that live outside these files (fonts, the resource
      manager, scene scripts, the serializer's byte stream, ...) are records
      of functions, passed explicitly. *)

From Stdlib Require Import ZArith List String Ascii Bool Lia DecimalString.
Import ListNotations.
Local Open Scope Z_scope.

(* ===================================================================== *)
(** ** Machine integers *)

Definition to_uint32 (z : Z) : Z := z mod 2 ^ 32.
Definition to_int32 (z : Z) : Z := (z + 2 ^ 31) mod 2 ^ 32 - 2 ^ 31.
Definition to_uint16 (z : Z) : Z := z mod 2 ^ 16.
Definition to_int16 (z : Z) : Z := (z + 2 ^ 15) mod 2 ^ 16 - 2 ^ 15.
Definition to_byte (z : Z) : Z := z mod 2 ^ 8.

Definition INT_MIN : Z := - 2 ^ 31.
Definition INT_MAX : Z := 2 ^ 31 - 1.
Definition fits_int (z : Z) : Prop := INT_MIN <= z <= INT_MAX.

(** C++ [/] on [int] truncates toward zero. *)
Definition cdiv (a b : Z) : Z := Z.quot a b.
Definition crem (a b : Z) : Z := Z.rem a b.

(* ===================================================================== *)
(** ** Outcomes of calls that may abort *)

Inductive Failure : Type :=
| AssertionFailed (what : string)
| FatalError (msg : string)
| NullDereference (what : string)
| OutOfFuel.

Inductive Outcome (A : Type) : Type :=
| Done (a : A)
| Abort (f : Failure).
Arguments Done {A} a.
Arguments Abort {A} f.

Definition obind {A B : Type} (c : Outcome A) (k : A -> Outcome B) : Outcome B :=
  match c with
  | Done a => k a
  | Abort f => Abort f
  end.

Declare Scope outcome_scope.
Delimit Scope outcome_scope with outcome.
Notation "x <- c ;; k" := (obind c (fun x => k))
  (at level 61, c at next level, right associativity) : outcome_scope.
Notation "' pat <- c ;; k" := (obind c (fun x => match x with pat => k end))
  (at level 61, pat pattern, c at next level, right associativity) : outcome_scope.
Local Open Scope outcome_scope.

Definition assert_that (b : bool) (what : string) : Outcome unit :=
  if b then Done tt else Abort (AssertionFailed what).

(* ===================================================================== *)
(** ** Common::String *)

Definition CString : Type := list ascii.

Definition cstr (s : string) : CString := list_ascii_of_string s.

Definition size {A : Type} (l : list A) : Z := Z.of_nat (List.length l).

(** The byte of a character, 0 to 255. *)
Definition char_code (c : ascii) : Z := Z.of_nat (nat_of_ascii c).

(** The value of a character as plain [char].  Plain [char] is signed on
    the builds modelled here: a byte from 128 on is a negative value. *)
Definition plain_char (c : ascii) : Z :=
  if char_code c <? 128 then char_code c else char_code c - 256.

(** A plain [char] passed for a [uint32] character code, as to
    [getCharWidth]: the conversion keeps the sign, so a byte from 128 on
    becomes a code from [0xFFFFFF80] on. *)
Definition char_as_uint32 (c : ascii) : Z := to_uint32 (plain_char c).

Definition CR : ascii := ascii_of_nat 13.
Definition SPACE : ascii := ascii_of_nat 32.

(** [Common::String::operator[]]: asserts that the index is in range. *)
Definition char_at (s : CString) (idx : Z) : Outcome ascii :=
  if (0 <=? idx) && (idx <? size s) then
    match nth_error s (Z.to_nat idx) with
    | Some c => Done c
    | None => Abort (AssertionFailed "String index")
    end
  else Abort (AssertionFailed "String index").

(** [Common::String::substr(pos, len)]: both arguments are [size_t], so a
    negative [int] passed for either is a huge unsigned value: a huge [pos]
    gives the empty string, a huge [len] the rest of the string. *)
Definition substr (s : CString) (pos len : Z) : CString :=
  if (pos <? 0) || (size s <=? pos) then []
  else
    let avail := size s - pos in
    let n := if len <? 0 then avail else Z.min avail len in
    firstn (Z.to_nat n) (skipn (Z.to_nat pos) s).

(** [Common::String::find(char)]: index of the first occurrence. *)
Fixpoint find_char_from (c : ascii) (s : CString) (i : Z) : option Z :=
  match s with
  | [] => None
  | x :: r => if Ascii.eqb x c then Some i else find_char_from c r (i + 1)
  end.
Definition find_char (c : ascii) (s : CString) : option Z := find_char_from c s 0.

Fixpoint is_prefix (p s : CString) : bool :=
  match p, s with
  | [], _ => true
  | _ :: _, [] => false
  | a :: p', b :: s' => Ascii.eqb a b && is_prefix p' s'
  end.

(** [Common::String::find(const String &)]: index of the first occurrence
    of the substring, [npos] (here [None]) when there is none. *)
Fixpoint find_str_from (p s : CString) (i : Z) : option Z :=
  if is_prefix p s then Some i
  else match s with
       | [] => None
       | _ :: r => find_str_from p r (i + 1)
       end.
Definition find_str (p s : CString) : option Z := find_str_from p s 0.

(** [uint32 npos] converted to [int]. *)
Definition npos_as_int : Z := -1.

(* ===================================================================== *)
(** ** Fonts (the interface of [DgdsFont] used by the dialog code) *)

Record DgdsFont : Type := {
  getMaxCharWidth : Z;
  getFontHeight : Z;
  (** [getCharWidth(uint32 chr)] *)
  getCharWidth : Z -> Z;
  getStringWidth : CString -> Z;
  (** [wordWrapText(str, maxWidth, lines)] fills [lines] and returns the
      width of the widest line. *)
  wordWrapText : CString -> Z -> list CString * Z
}.

Inductive FontType : Type := kGameDlgFont | k8x8Font | k4x5Font.

Definition FontManager : Type := FontType -> DgdsFont.

(* ===================================================================== *)
(** ** Dialog data *)

Module DgdsRect.
Record t : Type := mk {
  x : Z;
  y : Z;
  width : Z;
  height : Z
}.
End DgdsRect.
Definition DgdsRect : Type := DgdsRect.t.

Record SceneOp : Type := {
  _opCode : Z;
  _args : list Z
}.

(** The spans are [uint16] offsets into the dialog string. *)
Record DialogAction : Type := {
  strStart : Z;
  strEnd : Z;
  sceneOpList : list SceneOp
}.

Inductive DialogFrameType : Type :=
| kDlgFramePlain
| kDlgFrameBorder
| kDlgFrameThought
| kDlgFrameRounded
| kDlgFrameOther (raw : Z).

Inductive DialogDrawStage : Type :=
| kDlgDrawStageBackground
| kDlgDrawFindSelectionPointXY
| kDlgDrawFindSelectionTxtOffset
| kDlgDrawStageForeground.

Inductive DialogFlags : Type :=
| kDlgFlagNone
| kDlgFlagFlatBg
| kDlgFlagLeftJust
| kDlgFlagHiFinished
| kDlgFlagRedrawSelectedActionChanged
| kDlgFlagHi10
| kDlgFlagHi20
| kDlgFlagHi40
| kDlgFlagVisible.

(** Modelled from the spec: the values of the [DialogFlags] enumerators
    ([dialog.h] is not under src/).  The spec names the flags but not their
    bits; each flag is given a bit of its own. *)
Definition flag_bits (flg : DialogFlags) : Z :=
  match flg with
  | kDlgFlagNone => 0
  | kDlgFlagFlatBg => 1
  | kDlgFlagLeftJust => 2
  | kDlgFlagHiFinished => 65536
  | kDlgFlagRedrawSelectedActionChanged => 524288
  | kDlgFlagHi10 => 1048576
  | kDlgFlagHi20 => 2097152
  | kDlgFlagHi40 => 4194304
  | kDlgFlagVisible => 8388608
  end.

(** [_selectedAction] points into the owning dialog's [_action] array; it is
    kept as the index of the element it points to. *)
Record DialogState : Type := {
  _hideTime : Z;
  _loc : DgdsRect;
  _lastMouseX : Z;
  _lastMouseY : Z;
  _charWidth : Z;
  _charHeight : Z;
  _strMouseLoc : Z;
  _selectedAction : option nat
}.

(** Modelled from the spec: [DialogState]'s constructor ([dialog.h] is not
    under src/); the transient state starts with no selected action and
    zeroed geometry. *)
Definition new_DialogState : DialogState :=
  {| _hideTime := 0;
     _loc := DgdsRect.mk 0 0 0 0;
     _lastMouseX := 0; _lastMouseY := 0;
     _charWidth := 0; _charHeight := 0;
     _strMouseLoc := 0;
     _selectedAction := None |}.

Record Dialog : Type := {
  _num : Z;
  _rect : DgdsRect;
  _bgColor : Z;
  _fontColor : Z;
  _selectionBgCol : Z;
  _selectonFontCol : Z;
  _fontSize : Z;
  _flags : Z;
  _frameType : DialogFrameType;
  _time : Z;
  _str : CString;
  _action : list DialogAction;
  _state : option DialogState
}.

Definition set_state (d : Dialog) (s : option DialogState) : Dialog :=
  {| _num := _num d; _rect := _rect d; _bgColor := _bgColor d;
     _fontColor := _fontColor d; _selectionBgCol := _selectionBgCol d;
     _selectonFontCol := _selectonFontCol d; _fontSize := _fontSize d;
     _flags := _flags d; _frameType := _frameType d; _time := _time d;
     _str := _str d; _action := _action d; _state := s |}.

Definition set_flags (d : Dialog) (f : Z) : Dialog :=
  {| _num := _num d; _rect := _rect d; _bgColor := _bgColor d;
     _fontColor := _fontColor d; _selectionBgCol := _selectionBgCol d;
     _selectonFontCol := _selectonFontCol d; _fontSize := _fontSize d;
     _flags := f; _frameType := _frameType d; _time := _time d;
     _str := _str d; _action := _action d; _state := _state d |}.

Definition set_loc (s : DialogState) (r : DgdsRect) : DialogState :=
  {| _hideTime := _hideTime s; _loc := r;
     _lastMouseX := _lastMouseX s; _lastMouseY := _lastMouseY s;
     _charWidth := _charWidth s; _charHeight := _charHeight s;
     _strMouseLoc := _strMouseLoc s; _selectedAction := _selectedAction s |}.

Definition set_lastMouse (s : DialogState) (mx my : Z) : DialogState :=
  {| _hideTime := _hideTime s; _loc := _loc s;
     _lastMouseX := mx; _lastMouseY := my;
     _charWidth := _charWidth s; _charHeight := _charHeight s;
     _strMouseLoc := _strMouseLoc s; _selectedAction := _selectedAction s |}.

Definition set_charSize (s : DialogState) (cw ch : Z) : DialogState :=
  {| _hideTime := _hideTime s; _loc := _loc s;
     _lastMouseX := _lastMouseX s; _lastMouseY := _lastMouseY s;
     _charWidth := to_uint16 cw; _charHeight := to_uint16 ch;
     _strMouseLoc := _strMouseLoc s; _selectedAction := _selectedAction s |}.

Definition set_strMouseLoc (s : DialogState) (o : Z) : DialogState :=
  {| _hideTime := _hideTime s; _loc := _loc s;
     _lastMouseX := _lastMouseX s; _lastMouseY := _lastMouseY s;
     _charWidth := _charWidth s; _charHeight := _charHeight s;
     _strMouseLoc := o; _selectedAction := _selectedAction s |}.

Definition set_selectedAction (s : DialogState) (a : option nat) : DialogState :=
  {| _hideTime := _hideTime s; _loc := _loc s;
     _lastMouseX := _lastMouseX s; _lastMouseY := _lastMouseY s;
     _charWidth := _charWidth s; _charHeight := _charHeight s;
     _strMouseLoc := _strMouseLoc s; _selectedAction := a |}.

(** [Dialog::hasFlag], [setFlag], [clearFlag], [flipFlag]. *)
Definition hasFlag (d : Dialog) (flg : DialogFlags) : bool :=
  negb (Z.land (_flags d) (flag_bits flg) =? 0).
Definition setFlag (d : Dialog) (flg : DialogFlags) : Dialog :=
  set_flags d (Z.lor (_flags d) (flag_bits flg)).
Definition clearFlag (d : Dialog) (flg : DialogFlags) : Dialog :=
  set_flags d (Z.land (_flags d) (to_uint32 (Z.lnot (flag_bits flg)))).
Definition flipFlag (d : Dialog) (flg : DialogFlags) : Dialog :=
  set_flags d (Z.lxor (_flags d) (flag_bits flg)).

(** [Dialog::clear] *)
Definition clear (d : Dialog) : Dialog :=
  let d := clearFlag d kDlgFlagHiFinished in
  let d := clearFlag d kDlgFlagRedrawSelectedActionChanged in
  let d := clearFlag d kDlgFlagHi10 in
  let d := clearFlag d kDlgFlagHi20 in
  let d := clearFlag d kDlgFlagHi40 in
  let d := clearFlag d kDlgFlagVisible in
  set_state d None.

(** What the dialog code reads from the engine ([g_engine]). *)
Inductive DgdsGameId : Type :=
| GID_DRAGON | GID_HOC | GID_WILLY | GID_SQ5DEMO | GID_COMINGATTRACTIONS.

Record EngineView : Type := {
  getFontMan : FontManager;
  getGameId : DgdsGameId;
  (** [getLastMouse()] *)
  getLastMouse : Z * Z;
  (** the next draw of [getRandom().getRandomNumber(max)] *)
  getRandomNumber : Z -> Z
}.

(** [Dialog::getDlgTextFont] *)
Definition getDlgTextFont (eng : EngineView) (d : Dialog) : DgdsFont :=
  let fontType :=
    if _fontSize d =? 1 then k8x8Font
    else if _fontSize d =? 3 then k4x5Font
    else kGameDlgFont in
  getFontMan eng fontType.

(* ===================================================================== *)
(** ** The drawing surface

    [Graphics::ManagedSurface *dst] is the list of drawing calls issued on
    it, oldest first; a null [dst] is [None]. *)

Inductive TextAlign : Type := kTextAlignLeft | kTextAlignCenter.

Inductive DrawCmd : Type :=
| FillRect (left top right bottom color : Z)
| FillBackground (px py w h startoffset : Z)
| DrawCorners (startNum px py w h : Z)
| DrawHeader (px py w yoffset : Z) (title : CString) (fontcol : Z) (drawBox : bool)
| DrawEllipse (x1 y1 x2 y2 color : Z) (filled : bool)
| DrawRoundRect (left top right bottom arc color : Z) (filled : bool)
| DrawString (line : CString) (px py w color : Z) (align : TextAlign).

Definition ManagedSurface : Type := list DrawCmd.

Definition emit (dst : option ManagedSurface) (c : DrawCmd) : Outcome (option ManagedSurface) :=
  match dst with
  | Some s => Done (Some (s ++ [c]))
  | None => Abort (NullDereference "dst")
  end.

(* ===================================================================== *)
(** ** Offset to screen position: [Dialog::drawFindSelectionXY] *)

(** The loop that finds the wrapped line holding [strMouseLoc]; returns the
    characters consumed by the lines before it and the line's [y]. *)
Fixpoint xy_find_line (lines : list CString) (strMouseLoc charHeight : Z)
    (totalchars py : Z) : Z * Z :=
  match lines with
  | [] => (totalchars, py)
  | l :: rest =>
      (* +1 char for the space or CR that caused the wrap. *)
      let nexttotalchars := totalchars + size l + 1 in
      if nexttotalchars >? strMouseLoc then (totalchars, py)
      else xy_find_line rest strMouseLoc charHeight nexttotalchars (py + charHeight)
  end.

Definition drawFindSelectionXY (eng : EngineView) (d : Dialog) : Outcome Dialog :=
  match _state d with
  | None => Done d
  | Some st =>
      let font := getDlgTextFont eng d in
      let loc := _loc st in
      let px := DgdsRect.x loc in
      let py := DgdsRect.y loc + 1 in
      let st := set_lastMouse st px py in
      let st := set_charSize st (getMaxCharWidth font) (getFontHeight font) in
      if _strMouseLoc st =? 0 then Done (set_state d (Some st))
      else
        let '(lines, maxWidth) := wordWrapText font (_str d) (DgdsRect.width loc) in
        let '(px, py, st) :=
          if hasFlag d kDlgFlagLeftJust then
            let px := px + cdiv (DgdsRect.width loc - maxWidth - 1) 2 in
            (* [lines.size()] is unsigned: the subtraction and the division
               are carried out modulo 2^32 *)
            let py := to_int32 (py + to_uint32 (DgdsRect.height loc
                                  - size lines * _charHeight st - 1) / 2) in
            (px, py, set_lastMouse st px py)
          else (px, py, st) in
        let st :=
          if _strMouseLoc st >=? size (_str d)
          then set_strMouseLoc st (size (_str d) - 1) else st in
        (* Find the location of the mouse loc in the wrapped string. *)
        let '(totalchars, py) :=
          xy_find_line lines (_strMouseLoc st) (_charHeight st) 0 py in
        (* now get width of the remaining string to the mouse str offset *)
        let px := px + getStringWidth font
                         (substr (_str d) totalchars (_strMouseLoc st - totalchars)) in
        (* the offset itself is passed for the [uint32] character code *)
        if DgdsRect.x loc + DgdsRect.width loc
           <? px + getCharWidth font (to_uint32 (_strMouseLoc st))
        then
          c <- char_at (_str d) (_strMouseLoc st) ;;
          if plain_char c <? plain_char "!"%char then
            let st := set_charSize st 0 0 in
            Done (set_state d (Some (set_lastMouse st 0 0)))
          else
            let px := DgdsRect.x loc in
            let py := py + _charHeight st in
            let st := set_lastMouse st px py in
            Done (set_state d (Some (set_charSize st
                                       (getCharWidth font (to_uint32 (_strMouseLoc st)))
                                       (_charHeight st))))
        else
          let st := set_lastMouse st px py in
          Done (set_state d (Some (set_charSize st
                                     (getCharWidth font (to_uint32 (_strMouseLoc st)))
                                     (_charHeight st))))
  end.

(* ===================================================================== *)
(** ** Screen position to offset: [Dialog::drawFindSelectionTxtOffset] *)

Fixpoint wrappedLineOffsets_from (off : Z) (lines : list CString) : list Z :=
  match lines with
  | [] => []
  | l :: rest => off :: wrappedLineOffsets_from (off + size l + 1) rest
  end.

(** Offsets into a string for a given set of wrapped lines: one more value
    than the number of lines, the last one being [s.size()]. *)
Definition _wrappedLineOffsets (s : CString) (lines : list CString) : list Z :=
  wrappedLineOffsets_from 0 lines ++ [size s].

(** The first loop: step over lines while the bottom edge of the line is
    above the mouse.  [remaining] is [lines.size() - lineno]. *)
Fixpoint txt_skip_lines (remaining : nat) (lineOffs : list Z)
    (lineHeight lastMouseY : Z) (lineno : nat) (totalchars dlgy : Z) : nat * Z * Z :=
  match remaining with
  | O => (lineno, totalchars, dlgy)
  | S remaining' =>
      if dlgy + lineHeight <? lastMouseY then
        txt_skip_lines remaining' lineOffs lineHeight lastMouseY
          (S lineno) (nth (S lineno) lineOffs 0) (dlgy + lineHeight)
      else (lineno, totalchars, dlgy)
  end.

(** The inner [for] loop over the characters of one line. *)
Fixpoint txt_scan_line (font : DgdsFont) (line : CString) (lastMouseX : Z)
    (charno dlgx : Z) : option Z :=
  match line with
  | [] => None
  | c :: rest =>
      let charwidth := getCharWidth font (char_as_uint32 c) in
      if lastMouseX <=? dlgx + charwidth then Some charno
      else txt_scan_line font rest lastMouseX (charno + 1) (dlgx + charwidth)
  end.

(** The [while (lineno < lines.size())] loop, over the lines from [lineno]
    on; every line starts again from [startx]. *)
Fixpoint txt_scan_lines (font : DgdsFont) (lines : list CString) (lastMouseX : Z)
    (startx totalchars : Z) : option Z :=
  match lines with
  | [] => None
  | line :: rest =>
      match txt_scan_line font line lastMouseX 0 startx with
      | Some charno => Some (totalchars + charno)
      | None => txt_scan_lines font rest lastMouseX startx (totalchars + size line + 1)
      end
  end.

Definition drawFindSelectionTxtOffset (eng : EngineView) (d : Dialog) : Dialog :=
  match _state d with
  | None => d
  | Some st =>
      let font := getDlgTextFont eng d in
      let lastMouseX := _lastMouseX st in
      let lastMouseY := _lastMouseY st in
      let lineHeight := getFontHeight font in
      let dlgx := DgdsRect.x (_loc st) in
      let dlgy := DgdsRect.y (_loc st) in
      let '(lines, maxWidth) := wordWrapText font (_str d) (DgdsRect.width (_loc st)) in
      let '(dlgx, dlgy) :=
        if hasFlag d kDlgFlagLeftJust then
          let textHeight := to_int32 (size lines * lineHeight) in
          (dlgx + cdiv (DgdsRect.width (_loc st) - maxWidth - 1) 2,
           dlgy + cdiv (DgdsRect.height (_loc st) - textHeight - 1) 2)
        else (dlgx, dlgy) in
      let lineOffs := _wrappedLineOffsets (_str d) lines in
      let '(lineno, totalchars, _) :=
        txt_skip_lines (List.length lines) lineOffs lineHeight lastMouseY 0%nat 0 dlgy in
      match txt_scan_lines font (skipn lineno lines) lastMouseX dlgx totalchars with
      | Some off => set_state d (Some (set_strMouseLoc st off))
      | None => set_state d (Some (set_strMouseLoc st (size (_str d))))
      end
  end.

(* ===================================================================== *)
(** ** [Dialog::drawForeground] *)

Fixpoint max_line_width (font : DgdsFont) (lines : list CString) (maxlen : Z) : Z :=
  match lines with
  | [] => maxlen
  | line :: rest => max_line_width font rest (Z.max maxlen (getStringWidth font line))
  end.

(** The loop that draws every line and re-draws the highlighted ones. *)
Fixpoint draw_lines (d : Dialog) (lines : list CString) (lineOffs : list Z)
    (i : nat) (px ystart h xwidth fontcol : Z) (align : TextAlign)
    (highlightStart highlightEnd : Z) (dst : option ManagedSurface)
    : Outcome (option ManagedSurface) :=
  match lines with
  | [] => Done dst
  | line :: rest =>
      dst <- emit dst (DrawString line px (ystart + Z.of_nat i * h) xwidth fontcol align) ;;
      dst <- (if (highlightStart <? nth (S i) lineOffs 0) && (highlightEnd >? nth i lineOffs 0)
              then emit dst (DrawString line px (ystart + Z.of_nat i * h) xwidth
                               (_selectonFontCol d) align)
              else Done dst) ;;
      draw_lines d rest lineOffs (S i) px ystart h xwidth fontcol align
                 highlightStart highlightEnd dst
  end.

Definition drawForeground (eng : EngineView) (dst : option ManagedSurface)
    (fontcol : Z) (txt : CString) (d : Dialog) : Outcome (option ManagedSurface) :=
  match _state d with
  | None => Abort (AssertionFailed "_state")
  | Some st =>
      let font := getDlgTextFont eng d in
      let h := getFontHeight font in
      let lines := fst (wordWrapText font txt (DgdsRect.width (_loc st))) in
      let ystart := DgdsRect.y (_loc st)
                    + cdiv (DgdsRect.height (_loc st) - size lines * h) 2 in
      let px := DgdsRect.x (_loc st) in
      '(highlightStart, highlightEnd) <-
        match _selectedAction st with
        | None => Done (INT_MAX, INT_MAX)
        | Some a =>
            match nth_error (_action d) a with
            | None => Abort (NullDereference "_selectedAction")
            | Some action =>
                (* find the txt in the full dlg string, as action offsets
                   include the heading *)
                let txtoffset := match find_str txt (_str d) with
                                 | Some o => o
                                 | None => npos_as_int
                                 end in
                Done (strStart action - txtoffset, strEnd action - txtoffset)
            end
        end ;;
      let lineOffs := _wrappedLineOffsets txt lines in
      let '(px, align, xwidth) :=
        if hasFlag d kDlgFlagLeftJust then
          (* each line left-aligned, but overall block is still centered *)
          let maxlen := max_line_width font lines 0 in
          (px + cdiv (DgdsRect.width (_loc st) - maxlen) 2, kTextAlignLeft, maxlen)
        else (px, kTextAlignCenter, DgdsRect.width (_loc st)) in
      draw_lines d lines lineOffs 0%nat px ystart h xwidth fontcol align
                 highlightStart highlightEnd dst
  end.

(* ===================================================================== *)
(** ** The four frame styles *)

Definition DrawResult : Type := Outcome (Dialog * option ManagedSurface).

Definition with_loc (d : Dialog) (r : DgdsRect) : Dialog :=
  match _state d with
  | Some st => set_state d (Some (set_loc st r))
  | None => d
  end.

Definition selectionXY (eng : EngineView) (dst : option ManagedSurface) (d : Dialog)
    : DrawResult :=
  d' <- drawFindSelectionXY eng d ;; Done (d', dst).

Definition selectionTxtOffset (eng : EngineView) (dst : option ManagedSurface)
    (d : Dialog) : DrawResult :=
  Done (drawFindSelectionTxtOffset eng d, dst).

(** box with simple frame *)
Definition drawType1 (eng : EngineView) (dst : option ManagedSurface)
    (stage : DialogDrawStage) (d : Dialog) : DrawResult :=
  match _state d with
  | None => Done (d, dst)
  | Some st =>
      let px := DgdsRect.x (_rect d) in
      let py := DgdsRect.y (_rect d) in
      let w := DgdsRect.width (_rect d) in
      let h := DgdsRect.height (_rect d) in
      match stage with
      | kDlgDrawStageBackground =>
          dst <- emit dst (FillRect px py (px + w) (py + h) (_bgColor d)) ;;
          dst <- emit dst (FillRect (px + 1) (py + 1) (px + w - 1) (py + h - 1) (_fontColor d)) ;;
          Done (d, dst)
      | kDlgDrawFindSelectionPointXY => selectionXY eng dst d
      | kDlgDrawFindSelectionTxtOffset => selectionTxtOffset eng dst d
      | kDlgDrawStageForeground =>
          let d := with_loc d (DgdsRect.mk (px + 3) (py + 3) (w - 6) (h - 6)) in
          dst <- drawForeground eng dst (_bgColor d) (_str d) d ;;
          Done (d, dst)
      end
  end.

Definition move_loc (r : DgdsRect) (dx dy dw dh : Z) : DgdsRect :=
  DgdsRect.mk (DgdsRect.x r + dx) (DgdsRect.y r + dy)
              (DgdsRect.width r + dw) (DgdsRect.height r + dh).

Definition drawType2BackgroundDragon (dst : option ManagedSurface) (title : CString)
    (d : Dialog) : DrawResult :=
  match _state d with
  | None => Abort (NullDereference "_state")
  | Some st =>
      let r := _rect d in
      let loc := DgdsRect.mk (DgdsRect.x r + 6) (DgdsRect.y r + 6)
                             (DgdsRect.width r - 12) (DgdsRect.height r - 12) in
      dst <- emit dst (FillBackground (DgdsRect.x r) (DgdsRect.y r)
                         (DgdsRect.width r) (DgdsRect.height r) 0) ;;
      dst <- emit dst (DrawCorners 11 (DgdsRect.x r) (DgdsRect.y r)
                         (DgdsRect.width r) (DgdsRect.height r)) ;;
      '(loc, dst) <-
        (if (size title =? 0) then Done (loc, dst)
         else
           dst <- emit dst (DrawHeader (DgdsRect.x r) (DgdsRect.y r) (DgdsRect.width r)
                              4 title 0 true) ;;
           Done (move_loc loc 0 10 0 (-10), dst)) ;;
      dst <- (if hasFlag d kDlgFlagFlatBg
              then emit dst (FillRect (DgdsRect.x loc) (DgdsRect.y loc)
                               (DgdsRect.x loc + DgdsRect.width loc)
                               (DgdsRect.y loc + DgdsRect.height loc) 0)
              else emit dst (FillBackground (DgdsRect.x loc) (DgdsRect.y loc)
                               (DgdsRect.width loc) (DgdsRect.height loc) 6)) ;;
      dst <- emit dst (DrawCorners 19 (DgdsRect.x loc - 2) (DgdsRect.y loc - 2)
                         (DgdsRect.width loc + 4) (DgdsRect.height loc + 4)) ;;
      Done (with_loc d (move_loc loc 8 0 (-16) 0), dst)
  end.

Definition drawType2BackgroundChina (dst : option ManagedSurface) (title : CString)
    (d : Dialog) : DrawResult :=
  match _state d with
  | None => Abort (NullDereference "_state")
  | Some st =>
      let r := _rect d in
      let loc := DgdsRect.mk (DgdsRect.x r + 12) (DgdsRect.y r + 10)
                             (DgdsRect.width r - 24) (DgdsRect.height r - 20) in
      if size title =? 0 then
        dst <- emit dst (FillBackground (DgdsRect.x r) (DgdsRect.y r)
                           (DgdsRect.width r) (DgdsRect.height r) 0) ;;
        dst <- emit dst (DrawCorners 1 (DgdsRect.x r) (DgdsRect.y r)
                           (DgdsRect.width r) (DgdsRect.height r)) ;;
        Done (with_loc d loc, dst)
      else
        dst <- emit dst (FillRect (DgdsRect.x r) (DgdsRect.y r)
                           (DgdsRect.x r + DgdsRect.width r)
                           (DgdsRect.y r + DgdsRect.height r) 0) ;;
        dst <- emit dst (DrawCorners 11 (DgdsRect.x r) (DgdsRect.y r)
                           (DgdsRect.width r) (DgdsRect.height r)) ;;
        dst <- emit dst (DrawHeader (DgdsRect.x r) (DgdsRect.y r) (DgdsRect.width r)
                           2 title (_fontColor d) false) ;;
        Done (with_loc d (move_loc loc 0 11 0 (-11)), dst)
  end.

(** box with fancy frame and optional title (everything before ":") *)
Definition drawType2 (eng : EngineView) (dst : option ManagedSurface)
    (stage : DialogDrawStage) (d : Dialog) : DrawResult :=
  match _state d with
  | None => Done (d, dst)
  | Some _ =>
      let '(title, txt) :=
        match find_char ":"%char (_str d) with
        | Some colonpos =>
            let title := substr (_str d) 0 colonpos in
            let txt := substr (_str d) (colonpos + 1) (-1) in
            (* Most have a CR after the colon? trim it to remove a blank line. *)
            match txt with
            | c :: _ => if Ascii.eqb c CR then (title, substr txt 1 (-1)) else (title, txt)
            | [] => (title, txt)
            end
        | None => ([], _str d)
        end in
      match stage with
      | kDlgDrawStageBackground =>
          match getGameId eng with
          | GID_DRAGON => drawType2BackgroundDragon dst title d
          | _ => drawType2BackgroundChina dst title d
          end
      | kDlgDrawFindSelectionPointXY => selectionXY eng dst d
      | kDlgDrawFindSelectionTxtOffset => selectionTxtOffset eng dst d
      | kDlgDrawStageForeground =>
          dst <- drawForeground eng dst (_fontColor d) txt d ;;
          Done (d, dst)
      end
  end.

Definition _filledCircle (cx cy xr yr : Z) (dst : option ManagedSurface) (fgcol bgcol : Z)
    : Outcome (option ManagedSurface) :=
  dst <- emit dst (DrawEllipse (cx - xr) (cy - yr) (cx + xr) (cy + yr) bgcol true) ;;
  emit dst (DrawEllipse (cx - xr) (cy - yr) (cx + xr) (cy + yr) fgcol false).

(** The radius search of the thought bubble: [testyradius] runs from 40
    down to 1. *)
Fixpoint search_radius (testyradius : nat) (usablex usabley : Z) (xradius yradius : Z)
    : Z * Z :=
  match testyradius with
  | O => (xradius, yradius)
  | S next =>
      let ty := Z.of_nat testyradius in
      let testxradius := to_int16 (cdiv (ty * 5) 4) in
      let '(xradius, yradius) :=
        if (cdiv usablex testxradius >? 2) && (cdiv usabley ty >? 2) then
          let testxradius := to_int16 (crem usablex testxradius + crem usabley ty) in
          if testxradius <? xradius then (to_uint16 testxradius, ty)
          else (xradius, yradius)
        else (xradius, yradius) in
      if (ty <? 20) && negb (xradius =? 9999) then (xradius, yradius)
      else search_radius next usablex usabley xradius yradius
  end.

(** [for (int i = 1; i < count; i++) { _filledCircle(x, y, ...); x += dx; y += dy; }]
    with [x] and [y] of type [uint16]. *)
Fixpoint circle_run (steps : nat) (cx cy dx dy xradius yradius : Z)
    (dst : option ManagedSurface) (fgcol bgcol : Z)
    : Outcome (Z * Z * option ManagedSurface) :=
  match steps with
  | O => Done (cx, cy, dst)
  | S steps' =>
      dst <- _filledCircle cx cy xradius yradius dst fgcol bgcol ;;
      circle_run steps' (to_uint16 (cx + dx)) (to_uint16 (cy + dy)) dx dy
                 xradius yradius dst fgcol bgcol
  end.

(** Comic thought box made up of circles with 2 circles going up to it.
    Draw circles with 5/4 more pixels in x because the pixels are not square. *)
Definition drawType3 (eng : EngineView) (dst : option ManagedSurface)
    (stage : DialogDrawStage) (d : Dialog) : DrawResult :=
  match _state d with
  | None => Done (d, dst)
  | Some _ =>
      match stage with
      | kDlgDrawStageBackground =>
          let r := _rect d in
          let usabley := to_int16 (DgdsRect.height r - 31) in
          let usablex := to_int16 (DgdsRect.width r - 30) in
          let '(_, yradius) := search_radius 40 usablex usabley 9999 40 in
          let xradius := to_uint16 (cdiv (yradius * 5) 4) in
          let circlesAcross := to_int16 (cdiv usablex xradius - 1) in
          let circlesDown := to_int16 (cdiv usabley yradius - 1) in
          let cx := to_uint16 (DgdsRect.x r + xradius) in
          let cy := to_uint16 (DgdsRect.y r + yradius) in
          let isbig := DgdsRect.x r + cdiv (DgdsRect.width r) 2 >? 160 in
          let cx := if isbig then to_uint16 (cx + 30) else cx in
          let '(fgcol, bgcol) :=
            if hasFlag d kDlgFlagFlatBg
            then (to_byte (_fontColor d), to_byte (_bgColor d)) else (0, 15) in
          let down := Z.to_nat (circlesDown - 1) in
          let across := Z.to_nat (circlesAcross - 1) in
          '(cx, cy, dst) <- circle_run down cx cy 0 yradius xradius yradius dst fgcol bgcol ;;
          '(cx, cy, dst) <- circle_run across cx cy xradius 0 xradius yradius dst fgcol bgcol ;;
          '(cx, cy, dst) <- circle_run down cx cy 0 (- yradius) xradius yradius dst fgcol bgcol ;;
          '(cx, cy, dst) <- circle_run across cx cy (- xradius) 0 xradius yradius dst fgcol bgcol ;;
          '(smallCircleX, dst) <-
            (if isbig then
               dst <- _filledCircle ((cx - xradius) - 5) (cy + circlesDown * yradius + 5)
                        10 8 dst fgcol bgcol ;;
               Done (to_uint16 ((cx - xradius) - 20), dst)
             else
               dst <- _filledCircle (cx + circlesAcross * xradius + 5)
                        (cy + circlesDown * yradius + 5) 10 8 dst fgcol bgcol ;;
               Done (to_uint16 (cx + circlesAcross * xradius + 20), dst)) ;;
          dst <- _filledCircle smallCircleX (cy + circlesDown * yradius + 25)
                   5 4 dst fgcol bgcol ;;
          let yoff := to_int16 (cdiv (yradius * 27) 32) in
          dst <- emit dst (FillRect cx (cy - yoff)
                             (cx + (circlesAcross - 1) * xradius + 1)
                             (cy + (circlesDown - 1) * yradius + yoff + 1) bgcol) ;;
          let xoff := to_int16 (cdiv (xradius * 27) 32) in
          dst <- emit dst (FillRect (cx - xoff) cy
                             (cx + (circlesAcross - 1) * xradius + xoff + 1)
                             (cy + (circlesDown - 1) * yradius + 1) bgcol) ;;
          let textRectX := to_int16 (cx - cdiv xradius 2) in
          let textRectY := to_int16 (cy - cdiv yradius 2) in
          Done (with_loc d (DgdsRect.mk textRectX textRectY
                              (circlesAcross * xradius) (circlesDown * yradius)), dst)
      | kDlgDrawFindSelectionPointXY => selectionXY eng dst d
      | kDlgDrawFindSelectionTxtOffset => selectionTxtOffset eng dst d
      | kDlgDrawStageForeground =>
          dst <- drawForeground eng dst (_fontColor d) (_str d) d ;;
          Done (d, dst)
      end
  end.

(** ellipse *)
Definition drawType4 (eng : EngineView) (dst : option ManagedSurface)
    (stage : DialogDrawStage) (d : Dialog) : DrawResult :=
  match _state d with
  | None => Done (d, dst)
  | Some _ =>
      let px := DgdsRect.x (_rect d) in
      let py := DgdsRect.y (_rect d) in
      let w := DgdsRect.width (_rect d) in
      let h := DgdsRect.height (_rect d) in
      let midy := cdiv (h - 1) 2 in
      let '(fillcolor, fillbgcolor) :=
        if negb (hasFlag d kDlgFlagFlatBg) then (0, 15)
        else (to_byte (_fontColor d), to_byte (_bgColor d)) in
      match stage with
      | kDlgDrawStageBackground =>
          dst <- emit dst (DrawRoundRect px py (px + w) (py + h) midy fillbgcolor true) ;;
          dst <- emit dst (DrawRoundRect px py (px + w) (py + h) midy fillcolor false) ;;
          Done (d, dst)
      | kDlgDrawFindSelectionPointXY => selectionXY eng dst d
      | kDlgDrawFindSelectionTxtOffset => selectionTxtOffset eng dst d
      | kDlgDrawStageForeground =>
          let d := with_loc d (DgdsRect.mk (px + midy) (py + 1) (w - midy) (h - 1)) in
          dst <- drawForeground eng dst fillcolor (_str d) d ;;
          Done (d, dst)
      end
  end.

(** [Dialog::draw]: creates the transient state when there is none, then
    dispatches on the frame style. *)
Definition draw (eng : EngineView) (dst : option ManagedSurface)
    (stage : DialogDrawStage) (d : Dialog) : DrawResult :=
  let d := match _state d with
           | None => set_state d (Some new_DialogState)
           | Some _ => d
           end in
  match _frameType d with
  | kDlgFramePlain => drawType1 eng dst stage d
  | kDlgFrameBorder => drawType2 eng dst stage d
  | kDlgFrameThought => drawType3 eng dst stage d
  | kDlgFrameRounded => drawType4 eng dst stage d
  | kDlgFrameOther _ => Abort (FatalError "unexpected frame type")
  end.

(* ===================================================================== *)
(** ** Action selection *)

(** A dialog's address, as compared with [_lastDialogSelectionChangedFor]. *)
Definition DialogPtr : Type := Z.

(** The two static members shared by all dialogs. *)
Record DialogStatics : Type := {
  _lastSelectedDialogItemNum : Z;
  _lastDialogSelectionChangedFor : option DialogPtr
}.

(** Their initial values (lines 56-57 of dialog.cpp). *)
Definition initial_statics : DialogStatics :=
  {| _lastSelectedDialogItemNum := 0; _lastDialogSelectionChangedFor := None |}.

(** The search for [_state->_selectedAction == &_action[i]]; [remaining]
    is [_action.size() - i]. *)
Fixpoint selected_index (remaining i : nat) (selected : nat) : option nat :=
  match remaining with
  | O => None
  | S remaining' =>
      if Nat.eqb selected i then Some i
      else selected_index remaining' (S i) selected
  end.

(** [while (num < 0) num += _action.size();] the sum is formed in
    [unsigned] arithmetic and stored back into the [int]. *)
Fixpoint wrap_negative (fuel : nat) (num n : Z) : option Z :=
  match fuel with
  | O => if num <? 0 then None else Some num
  | S fuel' => if num <? 0 then wrap_negative fuel' (to_int32 (num + n)) n else Some num
  end.

(** [Dialog::updateSelectedAction].  The result carries the arguments of
    the call to [g_system->warpMouse], when there is one. *)
Definition updateSelectedAction (eng : EngineView) (this : DialogPtr) (fuel : nat)
    (delta : Z) (w : DialogStatics) (d : Dialog)
    : Outcome (DialogStatics * Dialog * option (Z * Z)) :=
  let w :=
    match _lastDialogSelectionChangedFor w with
    | None => {| _lastSelectedDialogItemNum := _lastSelectedDialogItemNum w;
                 _lastDialogSelectionChangedFor := Some this |}
    | Some _ => {| _lastSelectedDialogItemNum := 0;
                   _lastDialogSelectionChangedFor := _lastDialogSelectionChangedFor w |}
    end in
  match _state d with
  | None => Done (w, d, None)
  | Some st =>
      let num :=
        match _selectedAction st with
        | Some selected =>
            match selected_index (List.length (_action d)) 0 selected with
            | Some i => Z.of_nat i
            | None => _lastSelectedDialogItemNum w
            end
        | None => _lastSelectedDialogItemNum w
        end in
      let num := num + delta in
      num <-
        (match _action d with
         | [] => Done num
         | _ :: _ =>
             match wrap_negative fuel num (size (_action d)) with
             | None => Abort OutOfFuel
             | Some num => Done (to_int32 (to_uint32 num mod size (_action d)))
             end
         end) ;;
      let w := {| _lastSelectedDialogItemNum := num;
                  _lastDialogSelectionChangedFor := Some this |} in
      let mouseX := DgdsRect.x (_loc st) + DgdsRect.width (_loc st) in
      let mouseY := DgdsRect.y (_loc st) + DgdsRect.height (_loc st) - 2 in
      '(d, mouseY) <-
        (if size (_action d) >? 1 then
           match (if 0 <=? num then nth_error (_action d) (Z.to_nat num) else None) with
           | None => Abort (AssertionFailed "Array index")
           | Some action =>
               let d := set_state d (Some (set_strMouseLoc st (strStart action))) in
               '(d, _) <- draw eng None kDlgDrawFindSelectionPointXY d ;;
               match _state d with
               | None => Abort (NullDereference "_state")
               | Some st =>
                   (* Move the mouse over the selected item *)
                   Done (d, _lastMouseY st + cdiv (_charHeight st) 2)
               end
           end
         else Done (d, mouseY)) ;;
      if (size (_action d) >? 1) || (delta =? 0)
      then Done (w, d, Some (mouseX, mouseY))
      else Done (w, d, None)
  end.

(** The loop of [pickAction] over the actions; returns the index of the
    first action that the offset selects. *)
Fixpoint pick_under_mouse (str : CString) (strMouseLoc : Z) (underMouse : ascii)
    (actions : list DialogAction) (i : nat) : Outcome (option nat) :=
  match actions with
  | [] => Done None
  | action :: rest =>
      if (strStart action <=? strMouseLoc) && (strMouseLoc <=? strEnd action)
      then Done (Some i)
      else
        hit <- (if (strMouseLoc =? strEnd action + 1) && Ascii.eqb underMouse CR
                then c <- char_at str (strEnd action) ;; Done (negb (Ascii.eqb c CR))
                else Done false) ;;
        if hit : bool then Done (Some i)
        else pick_under_mouse str strMouseLoc underMouse rest (S i)
  end.

(** [Dialog::pickAction]: the index of the returned action ([None] for
    [nullptr]) and the dialog, whose transient state the call may update. *)
Definition pickAction (eng : EngineView) (isClosing isForceClose : bool) (d : Dialog)
    : Outcome (option nat * Dialog) :=
  if negb isForceClose && isClosing then
    match _action d with
    | [] => Done (None, d)
    | _ :: _ =>
        let r := getRandomNumber eng (size (_action d) - 1) in
        if (0 <=? r) && (r <? size (_action d)) then Done (Some (Z.to_nat r), d)
        else Abort (AssertionFailed "Array index")
    end
  else
    match _state d with
    | None => Abort (AssertionFailed "_state")
    | Some st =>
        let '(mx, my) := getLastMouse eng in
        let loc := _loc st in
        '(found, d) <-
          (if (DgdsRect.x loc <=? mx) && (DgdsRect.x loc + DgdsRect.width loc >=? mx)
              && (DgdsRect.y loc <=? my) && (DgdsRect.y loc + DgdsRect.height loc >=? my)
           then
             let d := set_state d (Some (set_lastMouse st mx my)) in
             '(d, _) <- draw eng None kDlgDrawFindSelectionTxtOffset d ;;
             match _state d with
             | None => Abort (NullDereference "_state")
             | Some st =>
                 let underMouse :=
                   if (_strMouseLoc st >=? 0) && (_strMouseLoc st <? size (_str d))
                   then nth (Z.to_nat (_strMouseLoc st)) (_str d) Ascii.zero
                   else Ascii.zero in
                 found <- pick_under_mouse (_str d) (_strMouseLoc st) underMouse
                            (_action d) 0%nat ;;
                 Done (found, d)
             end
           else Done (None, d)) ;;
        match found with
        | Some i => Done (Some i, d)
        | None =>
            (* Note: maybe not in original, but if we are closing and
               there is only one action, always do that action. *)
            if isClosing && (size (_action d) =? 1) then Done (Some 0%nat, d)
            else Done (None, d)
        end
    end.

(* ===================================================================== *)
(** ** A concrete font, used to run the dialog code on examples *)

(** Modelled from the spec: the greedy line breaking of [wordWrapText]
    (font code is not under src/).  Characters are accumulated into words;
    at a space the word joins the current line when the line still fits the
    width limit and otherwise starts a new line; a carriage return always
    ends the line.  The break character itself is dropped.  [done] holds the
    finished lines, newest first. *)
Fixpoint wrap_greedy (strWidth : CString -> Z) (maxWidth : Z) (s : CString)
    (done : list CString) (line : option CString) (word : CString) : list CString :=
  let flush (done : list CString) (line : option CString) (word : CString) :=
    match line with
    | None => (done, word)
    | Some l =>
        if strWidth (l ++ SPACE :: word) <=? maxWidth
        then (done, l ++ SPACE :: word)
        else (l :: done, word)
    end in
  match s with
  | [] => let '(done, l) := flush done line word in rev (l :: done)
  | c :: rest =>
      if Ascii.eqb c CR then
        let '(done, l) := flush done line word in
        wrap_greedy strWidth maxWidth rest (l :: done) None []
      else if Ascii.eqb c SPACE then
        let '(done, l) := flush done line word in
        wrap_greedy strWidth maxWidth rest done (Some l) []
      else wrap_greedy strWidth maxWidth rest done line (word ++ [c])
  end.

(** Modelled from the spec: [wordWrapText] returns the wrapped lines and
    reports the maximum line width produced. *)
Definition spec_wordWrapText (strWidth : CString -> Z) (s : CString) (maxWidth : Z)
    : list CString * Z :=
  let lines := wrap_greedy strWidth maxWidth s [] None [] in
  (lines, fold_left (fun m l => Z.max m (strWidth l)) lines 0).

(** Modelled from the spec: a font provider whose glyphs all have width
    [cw] and height [ch]; the width of a string is the sum of its glyph
    widths. *)
Definition fixed_font (cw ch : Z) : DgdsFont :=
  {| getMaxCharWidth := cw;
     getFontHeight := ch;
     getCharWidth := fun _ => cw;
     getStringWidth := fun s => cw * size s;
     wordWrapText := spec_wordWrapText (fun s => cw * size s) |}.

(** An engine whose three dialog fonts are the 8x8 fixed font, with the
    pointer at [mouse] and a random source whose next draw is [rnd]. *)
Definition example_engine (mouse : Z * Z) (rnd : Z) : EngineView :=
  {| getFontMan := fun _ => fixed_font 8 8;
     getGameId := GID_DRAGON;
     getLastMouse := mouse;
     getRandomNumber := fun _ => rnd |}.

Definition example_dialog (frame : DialogFrameType) (flags : Z) (text : string)
    (actions : list DialogAction) (st : option DialogState) : Dialog :=
  {| _num := 1;
     _rect := DgdsRect.mk 10 10 300 60;
     _bgColor := 7; _fontColor := 0; _selectionBgCol := 0; _selectonFontCol := 4;
     _fontSize := 1; _flags := flags; _frameType := frame; _time := 0;
     _str := cstr text; _action := actions; _state := st |}.

(** A transient state with content rectangle [loc], offset [off] and a
    given selected action. *)
Definition example_state (loc : DgdsRect) (off : Z) (sel : option nat) : DialogState :=
  set_selectedAction (set_strMouseLoc (set_loc new_DialogState loc) off) sel.

(* ===================================================================== *)
(** ** The engine state touched by scene changes and save-state sync *)

(** [Inventory]'s data members used by [close] and [syncState]. *)
Record Inventory : Type := {
  _isOpen : bool;
  _openedFromSceneNum : Z;
  _showZoomBox : bool;
  _highlightItemNo : Z;
  _itemOffset : Z
}.

(** A screen buffer is the list of drawing calls made on it, oldest first. *)
Inductive BufferOp : Type :=
| BufFillRect (w h color : Z)
| BufDrawScreen (file : string).

Definition ScreenBuffer : Type := list BufferOp.

(** [Common::Error]: a code and a description. *)
Inductive ErrorCode : Type :=
| kNoError
| kReadingFailed
| kWritingFailed
| kUnknownError
| kOtherError (code : Z).

Record Error : Type := {
  getCode : ErrorCode;
  getDesc : string
}.

Definition is_no_error (r : Error) : bool :=
  match getCode r with
  | kNoError => true
  | _ => false
  end.

Definition NoError : Error := {| getCode := kNoError; getDesc := EmptyString |}.

(** [Ext] is the state owned by the collaborators: the loaded scene, the
    scene directory, the resource manager, the sound player, the script
    interpreter, the clock, the palettes, the menu and the cursor manager. *)
Record Engine (Ext : Type) : Type := {
  (** whether [_scene], [_adsInterp] and [_gdsScene] are non-null *)
  have_scene : bool;
  have_adsInterp : bool;
  have_gdsScene : bool;
  _inventory : Inventory;
  (** [Globals::_lastOpcode1SceneChageNum] *)
  _lastOpcode1SceneChageNum : Z;
  _backgroundBuffer : ScreenBuffer;
  _compositionBuffer : ScreenBuffer;
  _storedAreaBuffer : ScreenBuffer;
  _backgroundFile : string;
  _textSpeed : Z;
  _justChangedScene1 : bool;
  _justChangedScene2 : bool;
  _gameId : DgdsGameId;
  _currentCursor : Z;
  _currentCursorHot : Z * Z;
  totalPlayTime : Z;
  ext : Ext
}.
Arguments have_scene {Ext} e.
Arguments have_adsInterp {Ext} e.
Arguments have_gdsScene {Ext} e.
Arguments _inventory {Ext} e.
Arguments _lastOpcode1SceneChageNum {Ext} e.
Arguments _backgroundBuffer {Ext} e.
Arguments _compositionBuffer {Ext} e.
Arguments _storedAreaBuffer {Ext} e.
Arguments _backgroundFile {Ext} e.
Arguments _textSpeed {Ext} e.
Arguments _justChangedScene1 {Ext} e.
Arguments _justChangedScene2 {Ext} e.
Arguments _gameId {Ext} e.
Arguments _currentCursor {Ext} e.
Arguments _currentCursorHot {Ext} e.
Arguments totalPlayTime {Ext} e.
Arguments ext {Ext} e.

Section EngineUpdates.
Context {Ext : Type}.

Definition upd_ext (f : Ext -> Ext) (e : Engine Ext) : Engine Ext :=
  {| have_scene := have_scene e; have_adsInterp := have_adsInterp e;
     have_gdsScene := have_gdsScene e; _inventory := _inventory e;
     _lastOpcode1SceneChageNum := _lastOpcode1SceneChageNum e;
     _backgroundBuffer := _backgroundBuffer e;
     _compositionBuffer := _compositionBuffer e;
     _storedAreaBuffer := _storedAreaBuffer e;
     _backgroundFile := _backgroundFile e; _textSpeed := _textSpeed e;
     _justChangedScene1 := _justChangedScene1 e;
     _justChangedScene2 := _justChangedScene2 e;
     _gameId := _gameId e; _currentCursor := _currentCursor e;
     _currentCursorHot := _currentCursorHot e;
     totalPlayTime := totalPlayTime e; ext := f (ext e) |}.

Definition set_inventory (i : Inventory) (e : Engine Ext) : Engine Ext :=
  {| have_scene := have_scene e; have_adsInterp := have_adsInterp e;
     have_gdsScene := have_gdsScene e; _inventory := i;
     _lastOpcode1SceneChageNum := _lastOpcode1SceneChageNum e;
     _backgroundBuffer := _backgroundBuffer e;
     _compositionBuffer := _compositionBuffer e;
     _storedAreaBuffer := _storedAreaBuffer e;
     _backgroundFile := _backgroundFile e; _textSpeed := _textSpeed e;
     _justChangedScene1 := _justChangedScene1 e;
     _justChangedScene2 := _justChangedScene2 e;
     _gameId := _gameId e; _currentCursor := _currentCursor e;
     _currentCursorHot := _currentCursorHot e;
     totalPlayTime := totalPlayTime e; ext := ext e |}.

(** [Globals::setLastSceneNum(int16 num)] *)
Definition setLastSceneNum (num : Z) (e : Engine Ext) : Engine Ext :=
  {| have_scene := have_scene e; have_adsInterp := have_adsInterp e;
     have_gdsScene := have_gdsScene e; _inventory := _inventory e;
     _lastOpcode1SceneChageNum := to_int16 num;
     _backgroundBuffer := _backgroundBuffer e;
     _compositionBuffer := _compositionBuffer e;
     _storedAreaBuffer := _storedAreaBuffer e;
     _backgroundFile := _backgroundFile e; _textSpeed := _textSpeed e;
     _justChangedScene1 := _justChangedScene1 e;
     _justChangedScene2 := _justChangedScene2 e;
     _gameId := _gameId e; _currentCursor := _currentCursor e;
     _currentCursorHot := _currentCursorHot e;
     totalPlayTime := totalPlayTime e; ext := ext e |}.

Definition set_backgroundBuffer (bg : ScreenBuffer) (e : Engine Ext) : Engine Ext :=
  {| have_scene := have_scene e; have_adsInterp := have_adsInterp e;
     have_gdsScene := have_gdsScene e; _inventory := _inventory e;
     _lastOpcode1SceneChageNum := _lastOpcode1SceneChageNum e;
     _backgroundBuffer := bg;
     _compositionBuffer := _compositionBuffer e;
     _storedAreaBuffer := _storedAreaBuffer e;
     _backgroundFile := _backgroundFile e; _textSpeed := _textSpeed e;
     _justChangedScene1 := _justChangedScene1 e;
     _justChangedScene2 := _justChangedScene2 e;
     _gameId := _gameId e; _currentCursor := _currentCursor e;
     _currentCursorHot := _currentCursorHot e;
     totalPlayTime := totalPlayTime e; ext := ext e |}.

Definition set_storedAreaBuffer (b : ScreenBuffer) (e : Engine Ext) : Engine Ext :=
  {| have_scene := have_scene e; have_adsInterp := have_adsInterp e;
     have_gdsScene := have_gdsScene e; _inventory := _inventory e;
     _lastOpcode1SceneChageNum := _lastOpcode1SceneChageNum e;
     _backgroundBuffer := _backgroundBuffer e;
     _compositionBuffer := _compositionBuffer e;
     _storedAreaBuffer := b;
     _backgroundFile := _backgroundFile e; _textSpeed := _textSpeed e;
     _justChangedScene1 := _justChangedScene1 e;
     _justChangedScene2 := _justChangedScene2 e;
     _gameId := _gameId e; _currentCursor := _currentCursor e;
     _currentCursorHot := _currentCursorHot e;
     totalPlayTime := totalPlayTime e; ext := ext e |}.

Definition set_backgroundFile (f : string) (e : Engine Ext) : Engine Ext :=
  {| have_scene := have_scene e; have_adsInterp := have_adsInterp e;
     have_gdsScene := have_gdsScene e; _inventory := _inventory e;
     _lastOpcode1SceneChageNum := _lastOpcode1SceneChageNum e;
     _backgroundBuffer := _backgroundBuffer e;
     _compositionBuffer := _compositionBuffer e;
     _storedAreaBuffer := _storedAreaBuffer e;
     _backgroundFile := f; _textSpeed := _textSpeed e;
     _justChangedScene1 := _justChangedScene1 e;
     _justChangedScene2 := _justChangedScene2 e;
     _gameId := _gameId e; _currentCursor := _currentCursor e;
     _currentCursorHot := _currentCursorHot e;
     totalPlayTime := totalPlayTime e; ext := ext e |}.

Definition set_textSpeed (speed : Z) (e : Engine Ext) : Engine Ext :=
  {| have_scene := have_scene e; have_adsInterp := have_adsInterp e;
     have_gdsScene := have_gdsScene e; _inventory := _inventory e;
     _lastOpcode1SceneChageNum := _lastOpcode1SceneChageNum e;
     _backgroundBuffer := _backgroundBuffer e;
     _compositionBuffer := _compositionBuffer e;
     _storedAreaBuffer := _storedAreaBuffer e;
     _backgroundFile := _backgroundFile e; _textSpeed := speed;
     _justChangedScene1 := _justChangedScene1 e;
     _justChangedScene2 := _justChangedScene2 e;
     _gameId := _gameId e; _currentCursor := _currentCursor e;
     _currentCursorHot := _currentCursorHot e;
     totalPlayTime := totalPlayTime e; ext := ext e |}.

Definition set_justChangedScene (j1 j2 : bool) (e : Engine Ext) : Engine Ext :=
  {| have_scene := have_scene e; have_adsInterp := have_adsInterp e;
     have_gdsScene := have_gdsScene e; _inventory := _inventory e;
     _lastOpcode1SceneChageNum := _lastOpcode1SceneChageNum e;
     _backgroundBuffer := _backgroundBuffer e;
     _compositionBuffer := _compositionBuffer e;
     _storedAreaBuffer := _storedAreaBuffer e;
     _backgroundFile := _backgroundFile e; _textSpeed := _textSpeed e;
     _justChangedScene1 := j1;
     _justChangedScene2 := j2;
     _gameId := _gameId e; _currentCursor := _currentCursor e;
     _currentCursorHot := _currentCursorHot e;
     totalPlayTime := totalPlayTime e; ext := ext e |}.

Definition setTotalPlayTime (playtime : Z) (e : Engine Ext) : Engine Ext :=
  {| have_scene := have_scene e; have_adsInterp := have_adsInterp e;
     have_gdsScene := have_gdsScene e; _inventory := _inventory e;
     _lastOpcode1SceneChageNum := _lastOpcode1SceneChageNum e;
     _backgroundBuffer := _backgroundBuffer e;
     _compositionBuffer := _compositionBuffer e;
     _storedAreaBuffer := _storedAreaBuffer e;
     _backgroundFile := _backgroundFile e; _textSpeed := _textSpeed e;
     _justChangedScene1 := _justChangedScene1 e;
     _justChangedScene2 := _justChangedScene2 e;
     _gameId := _gameId e; _currentCursor := _currentCursor e;
     _currentCursorHot := _currentCursorHot e;
     totalPlayTime := playtime; ext := ext e |}.

Definition set_cursor (num : Z) (hot : Z * Z) (e : Engine Ext) : Engine Ext :=
  {| have_scene := have_scene e; have_adsInterp := have_adsInterp e;
     have_gdsScene := have_gdsScene e; _inventory := _inventory e;
     _lastOpcode1SceneChageNum := _lastOpcode1SceneChageNum e;
     _backgroundBuffer := _backgroundBuffer e;
     _compositionBuffer := _compositionBuffer e;
     _storedAreaBuffer := _storedAreaBuffer e;
     _backgroundFile := _backgroundFile e; _textSpeed := _textSpeed e;
     _justChangedScene1 := _justChangedScene1 e;
     _justChangedScene2 := _justChangedScene2 e;
     _gameId := _gameId e; _currentCursor := num;
     _currentCursorHot := hot;
     totalPlayTime := totalPlayTime e; ext := ext e |}.

End EngineUpdates.

(* ===================================================================== *)
(** ** The serializer *)

(** Modelled from the spec: the serializer ([common/serializer.h] is not
    under src/) offers ordered primitive read/write calls, a loading-mode
    flag and a format version.  When loading, [_loadStream] holds the bytes
    not yet read; when saving, [_saveStream] the bytes written so far. *)
Record Serializer : Type := {
  isLoading : bool;
  getVersion : Z;
  _loadStream : list Z;
  _saveStream : list Z
}.

(** Modelled from the spec: fixed-width integers are little-endian. *)
Fixpoint le_encode (n : nat) (v : Z) : list Z :=
  match n with
  | O => []
  | S k => (v mod 256) :: le_encode k (v / 256)
  end.

(** Modelled from the spec: the value of little-endian bytes. *)
Fixpoint le_decode (bs : list Z) : Z :=
  match bs with
  | [] => 0
  | b :: rest => b + 256 * le_decode rest
  end.

(** Modelled from the spec: reading [n] bytes; bytes past the end of the
    blob read as zero. *)
Fixpoint take_bytes (n : nat) (stream : list Z) : list Z * list Z :=
  match n with
  | O => ([], stream)
  | S k =>
      match stream with
      | [] => let '(bs, rest) := take_bytes k [] in (0 :: bs, rest)
      | b :: stream' => let '(bs, rest) := take_bytes k stream' in (b :: bs, rest)
      end
  end.

(** Modelled from the spec: one primitive sync of an [n]-byte unsigned
    integer: when loading the value is replaced by the one read, when
    saving it is written and kept. *)
Definition sync_le (n : nat) (s : Serializer) (v : Z) : Serializer * Z :=
  if isLoading s then
    let '(bs, rest) := take_bytes n (_loadStream s) in
    ({| isLoading := true; getVersion := getVersion s;
        _loadStream := rest; _saveStream := _saveStream s |}, le_decode bs)
  else
    ({| isLoading := false; getVersion := getVersion s;
        _loadStream := _loadStream s;
        _saveStream := _saveStream s ++ le_encode n v |}, v).

(** Modelled from the spec: [syncAsUint32LE], [syncAsUint16LE],
    [syncAsSint16LE] and [syncAsByte] of the serializer. *)
Definition syncAsUint32LE (s : Serializer) (v : Z) : Serializer * Z := sync_le 4 s v.

(** Modelled from the spec: see [syncAsUint32LE]. *)
Definition syncAsUint16LE (s : Serializer) (v : Z) : Serializer * Z := sync_le 2 s v.

(** Modelled from the spec: see [syncAsUint32LE]; the value read is
    sign-extended. *)
Definition syncAsSint16LE (s : Serializer) (v : Z) : Serializer * Z :=
  let '(s', v') := sync_le 2 s v in
  (s', if isLoading s then to_int16 v' else v').

(** Modelled from the spec: see [syncAsUint32LE]; a [bool] is one byte. *)
Definition syncAsByte (s : Serializer) (b : bool) : Serializer * bool :=
  let '(s', v') := sync_le 1 s (if b then 1 else 0) in
  (s', if isLoading s then negb (v' =? 0) else b).

(** Modelled from the spec: strings are length-prefixed (the prefix is
    taken to be a 32-bit little-endian count). *)
Definition syncString (s : Serializer) (str : string) : Serializer * string :=
  if isLoading s then
    let '(s1, n) := sync_le 4 s 0 in
    let '(bs, rest) := take_bytes (Z.to_nat n) (_loadStream s1) in
    ({| isLoading := true; getVersion := getVersion s1;
        _loadStream := rest; _saveStream := _saveStream s1 |},
     string_of_list_ascii (map (fun b => ascii_of_nat (Z.to_nat b)) bs))
  else
    let '(s1, _) := sync_le 4 s (Z.of_nat (String.length str)) in
    ({| isLoading := false; getVersion := getVersion s1;
        _loadStream := _loadStream s1;
        _saveStream := _saveStream s1 ++ map char_code (list_ascii_of_string str) |},
     str).

(** Modelled from the spec: the single version negotiation call.  A saver
    writes the current version; a loader reads the version field of the
    blob; the call reports whether that version is one the caller
    understands (not newer than [currentVersion]). *)
Definition syncVersion (currentVersion : Z) (s : Serializer) : bool * Serializer :=
  let '(s', v) := syncAsUint32LE s currentVersion in
  (v <=? currentVersion,
   {| isLoading := isLoading s'; getVersion := v;
      _loadStream := _loadStream s'; _saveStream := _saveStream s' |}).

(** A serializer that loads the blob [bytes]. *)
Definition loader (bytes : list Z) : Serializer :=
  {| isLoading := true; getVersion := 0; _loadStream := bytes; _saveStream := [] |}.

(** A serializer that saves into an empty blob. *)
Definition saver : Serializer :=
  {| isLoading := false; getVersion := 0; _loadStream := []; _saveStream := [] |}.

(* ===================================================================== *)
(** ** Collaborators of the engine *)

Inductive Subsystem : Type :=
| GdsScene
| Scene
| GameGlobals
| Clock
| InventoryState
| GamePals
| AdsInterp.

Inductive Field : Type :=
| SceneNum
| TextSpeed
| JustChangedScene1
| JustChangedScene2
| PlayTime
| BackgroundFile.

(** Calls made on collaborators and primitive syncs, in the order they are
    made.  The record is threaded next to the engine state so that what a
    call sequence did can be stated; collaborators cannot see or change it. *)
Inductive Call : Type :=
| CallWarning (msg : string)
| CallHideMenu
(** [who->syncState(s)], with the error it returned *)
| CallSyncState (who : Subsystem) (result : Error)
(** a primitive sync of one of the engine's own fields *)
| CallSyncField (f : Field)
| CallUnloadMusic
| CallStopAllSfx
| CallSceneUnload
| CallAdsUnload
| CallAdsLoad (file : string)
| CallSceneLoad (file : string)
| CallAddInvButton
| CallPaletteReset
| CallDrawScreen (file : string)
| CallRunLeaveSceneOps
| CallRunChangeSceneOps
| CallRunEnterSceneOps
| CallSetGlobal (num val : Z)
| CallSetDragItem
| CallReplaceCursor (num : Z)
| CallSetVisibleScript (b : bool).

Definition SyncFn (Ext : Type) : Type :=
  Serializer -> Engine Ext -> Error * Serializer * Engine Ext.

Record Externals (Ext : Type) : Type := {
  SCREEN_WIDTH : Z;
  SCREEN_HEIGHT : Z;
  (** [_resource->hasResource(name)] *)
  hasResource : Ext -> string -> bool;
  (** the loaded scene *)
  scene_getNum : Ext -> Z;
  scene_getDragItem : Ext -> option Z;
  scene_setDragItem : option Z -> Ext -> Ext;
  scene_getMagic : Ext -> Z;
  scene_getAdsFile : Ext -> string;
  scene_unload : Ext -> Ext;
  scene_load : string -> Ext -> Ext;
  scene_addInvButtonToHotAreaList : Ext -> Ext;
  scene_runLeaveSceneOps : Engine Ext -> Engine Ext;
  scene_runEnterSceneOps : Engine Ext -> Engine Ext;
  scene_syncState : SyncFn Ext;
  (** the scene directory *)
  gds_getMagic : Ext -> Z;
  gds_getCursorList : Ext -> list (Z * Z);
  gds_runChangeSceneOps : Engine Ext -> Engine Ext;
  gds_syncState : SyncFn Ext;
  (** [_icons->loadedFrameCount()], [None] while [_icons] is null *)
  icons_loadedFrameCount : Ext -> option Z;
  (** [CursorMan.replaceCursor] followed by [showMouse(true)] *)
  cursorMan_replaceCursor : Z -> Z * Z -> Ext -> Ext;
  sound_unloadMusic : Ext -> Ext;
  sound_stopAllSfx : Ext -> Ext;
  ads_load : string -> Ext -> Ext;
  ads_unload : Ext -> Ext;
  ads_syncState : SyncFn Ext;
  globals_setGlobal : Z -> Z -> Engine Ext -> Engine Ext;
  globals_syncState : SyncFn Ext;
  clock_setVisibleScript : bool -> Ext -> Ext;
  clock_syncState : SyncFn Ext;
  menu_hideMenu : Ext -> Ext;
  pals_reset : Ext -> Ext;
  pals_syncState : SyncFn Ext
}.
Arguments SCREEN_WIDTH {Ext} e.
Arguments SCREEN_HEIGHT {Ext} e.
Arguments hasResource {Ext} e _ _.
Arguments scene_getNum {Ext} e _.
Arguments scene_getDragItem {Ext} e _.
Arguments scene_setDragItem {Ext} e _ _.
Arguments scene_getMagic {Ext} e _.
Arguments scene_getAdsFile {Ext} e _.
Arguments scene_unload {Ext} e _.
Arguments scene_load {Ext} e _ _.
Arguments scene_addInvButtonToHotAreaList {Ext} e _.
Arguments scene_runLeaveSceneOps {Ext} e _.
Arguments scene_runEnterSceneOps {Ext} e _.
Arguments scene_syncState {Ext} e _ _.
Arguments gds_getMagic {Ext} e _.
Arguments gds_getCursorList {Ext} e _.
Arguments gds_runChangeSceneOps {Ext} e _.
Arguments gds_syncState {Ext} e _ _.
Arguments icons_loadedFrameCount {Ext} e _.
Arguments cursorMan_replaceCursor {Ext} e _ _ _.
Arguments sound_unloadMusic {Ext} e _.
Arguments sound_stopAllSfx {Ext} e _.
Arguments ads_load {Ext} e _ _.
Arguments ads_unload {Ext} e _.
Arguments ads_syncState {Ext} e _ _.
Arguments globals_setGlobal {Ext} e _ _ _.
Arguments globals_syncState {Ext} e _ _.
Arguments clock_setVisibleScript {Ext} e _ _.
Arguments clock_syncState {Ext} e _ _.
Arguments menu_hideMenu {Ext} e _.
Arguments pals_reset {Ext} e _.
Arguments pals_syncState {Ext} e _ _.

(* ===================================================================== *)
(** ** [DgdsEngine::changeScene], [Inventory::close], [DgdsEngine::syncGame] *)

Definition dec (n : Z) : string := NilZero.string_of_int (Z.to_int n).

(** [Common::String::format("S%d.SDS", sceneNum)] *)
Definition sceneFileName (sceneNum : Z) : string := "S" ++ dec sceneNum ++ ".SDS".

Section EngineCode.
Context {Ext : Type} (env : Externals Ext).

(** The engine state together with the record of calls. *)
Definition Run : Type := Engine Ext * list Call.

Definition note (c : Call) (r : Run) : Run := (fst r, snd r ++ [c]).
Definition on_engine (f : Engine Ext -> Engine Ext) (r : Run) : Run := (f (fst r), snd r).
Definition on_ext (f : Ext -> Ext) (r : Run) : Run := on_engine (upd_ext f) r.

Definition warning (msg : string) (r : Run) : Run := note (CallWarning msg) r.

(** [DgdsEngine::setMouseCursor(uint num)] *)
Definition setMouseCursor (num : Z) (r : Run) : Outcome Run :=
  let e := fst r in
  match icons_loadedFrameCount env (ext e) with
  | None => Done r
  | Some loadedFrameCount =>
      if to_int32 num >=? loadedFrameCount then Done r
      else if to_int32 num =? _currentCursor e then Done r
      else
        let cursors := gds_getCursorList env (ext e) in
        if num >=? size cursors then Abort (FatalError "Not enough cursor info")
        else
          let hot := nth (Z.to_nat num) cursors (0, 0) in
          let r := on_ext (cursorMan_replaceCursor env num hot) r in
          Done (note (CallReplaceCursor num) (on_engine (set_cursor (to_int32 num) hot) r))
  end.

(** [Inventory::close]; [changeScene] is the engine's scene change, which
    the inventory calls back. *)
Definition Inventory_close (changeScene : Z -> Run -> Outcome (bool * Run)) (r : Run)
    : Outcome Run :=
  let inv := _inventory (fst r) in
  if negb (_isOpen inv) then Done r
  else
    _ <- assert_that (negb (_openedFromSceneNum inv =? 0)) "_openedFromSceneNum != 0" ;;
    let r := on_engine (set_inventory
                          {| _isOpen := false;
                             _openedFromSceneNum := _openedFromSceneNum inv;
                             _showZoomBox := _showZoomBox inv;
                             _highlightItemNo := _highlightItemNo inv;
                             _itemOffset := _itemOffset inv |}) r in
    '(_, r) <- changeScene (_openedFromSceneNum inv) r ;;
    let inv := _inventory (fst r) in
    Done (on_engine (set_inventory
                       {| _isOpen := _isOpen inv;
                          _openedFromSceneNum := 0;
                          _showZoomBox := false;
                          _highlightItemNo := -1;
                          _itemOffset := _itemOffset inv |}) r).

(** [DgdsEngine::changeScene(int sceneNum)].  [depth] bounds the nesting
    of scene changes (the inventory's [close] calls back into
    [changeScene]). *)
Fixpoint changeScene (depth : nat) (sceneNum : Z) (r : Run) : Outcome (bool * Run) :=
  match depth with
  | O => Abort OutOfFuel
  | S depth' =>
      _ <- assert_that (have_scene (fst r) && have_adsInterp (fst r)) "_scene && _adsInterp" ;;
      if sceneNum =? scene_getNum env (ext (fst r)) then
        Done (false, warning ("Tried to change from scene " ++ dec sceneNum
                                ++ " to itself, doing nothing.") r)
      else
        r <- (if negb (sceneNum =? 2) && negb (scene_getNum env (ext (fst r)) =? 2)
                 && _isOpen (_inventory (fst r))
              then
                (* not going to or from inventory, ensure it's closed and
                   clear drag item. *)
                r <- Inventory_close (changeScene depth') r ;;
                Done (note CallSetDragItem (on_ext (scene_setDragItem env None) r))
              else Done r) ;;
        let sceneFile := sceneFileName sceneNum in
        if negb (hasResource env (ext (fst r)) sceneFile) then
          Done (false, warning ("Tried to switch to non-existant scene " ++ dec sceneNum) r)
        else
          let r := on_engine (setLastSceneNum sceneNum) r in
          (* Save the current foreground if we are going to the inventory,
             clear it otherwise. *)
          let r :=
            if sceneNum =? 2
            then on_engine (fun e => set_backgroundBuffer (_compositionBuffer e) e) r
            else on_engine (fun e => set_backgroundBuffer
                                       (_backgroundBuffer e
                                        ++ [BufFillRect (SCREEN_WIDTH env) (SCREEN_HEIGHT env) 0])
                                       e) r in
          let r := note CallRunLeaveSceneOps (on_engine (scene_runLeaveSceneOps env) r) in
          (* store the last non-inventory scene num *)
          let r :=
            let num := scene_getNum env (ext (fst r)) in
            if negb (num =? 2)
            (* [setGlobal] takes the value as [int16] *)
            then note (CallSetGlobal 97 (to_int16 num))
                   (on_engine (globals_setGlobal env 97 (to_int16 num)) r)
            else r in
          let r := note CallSceneUnload (on_ext (scene_unload env) r) in
          let r := on_engine (set_backgroundFile EmptyString) r in
          let r := note CallUnloadMusic (on_ext (sound_unloadMusic env) r) in
          let r := note CallStopAllSfx (on_ext (sound_stopAllSfx env) r) in
          let r := note CallRunChangeSceneOps (on_engine (gds_runChangeSceneOps env) r) in
          r <- (match scene_getDragItem env (ext (fst r)) with
                | None => setMouseCursor 0 r
                | Some _ => Done r
                end) ;;
          let r := on_engine (fun e => set_storedAreaBuffer
                                         (_storedAreaBuffer e
                                          ++ [BufFillRect (SCREEN_WIDTH env) (SCREEN_HEIGHT env) 0])
                                         e) r in
          let r := note (CallSceneLoad sceneFile) (on_ext (scene_load env sceneFile) r) in
          (* These are done inside the load function in the original.. cleaner here.. *)
          let r := note CallAddInvButton (on_ext (scene_addInvButtonToHotAreaList env) r) in
          let r :=
            match _gameId (fst r) with
            | GID_DRAGON => note (CallSetVisibleScript true)
                              (on_ext (clock_setVisibleScript env true) r)
            | _ => r
            end in
          if negb (scene_getMagic env (ext (fst r)) =? gds_getMagic env (ext (fst r)))
          then Abort (FatalError "Scene magic does not match GDS magic")
          else
            let adsFile := scene_getAdsFile env (ext (fst r)) in
            let r :=
              if negb (String.eqb adsFile EmptyString)
              then note (CallAdsLoad adsFile) (on_ext (ads_load env adsFile) r)
              else note CallAdsUnload (on_ext (ads_unload env) r) in
            let r := note CallRunEnterSceneOps (on_engine (scene_runEnterSceneOps env) r) in
            let r := on_engine (set_justChangedScene true true) r in
            Done (true, r)
  end.

(** [Inventory::syncState] *)
Definition Inventory_syncState (s : Serializer) (inv : Inventory)
    : Error * Serializer * Inventory :=
  let '(s, opened) := syncAsUint16LE s (_openedFromSceneNum inv) in
  let '(s, isopen) := syncAsByte s (_isOpen inv) in
  let '(s, highlight) := syncAsSint16LE s (_highlightItemNo inv) in
  let '(s, offset) := syncAsSint16LE s (_itemOffset inv) in
  (NoError, s,
   {| _isOpen := isopen; _openedFromSceneNum := opened;
      _showZoomBox := _showZoomBox inv;
      _highlightItemNo := highlight; _itemOffset := offset |}).

(** One subsystem's [syncState] call. *)
Definition sync_subsystem (who : Subsystem) (f : SyncFn Ext) (s : Serializer) (r : Run)
    : Error * Serializer * Run :=
  let '(result, s, e) := f s (fst r) in
  (result, s, note (CallSyncState who result) (e, snd r)).

Definition Inventory_sync : SyncFn Ext :=
  fun s e =>
    let '(result, s, inv) := Inventory_syncState s (_inventory e) in
    (result, s, set_inventory inv e).

(** [result = X->syncState(s); if (result.getCode() != Common::kNoError) return result;] *)
Notation "'sync' ( s , r ) <- c 'or_return' ;; k" :=
  (let '(result, s, r) := c in
   if is_no_error result then k else Done (result, s, r))
  (at level 61, s name, r name, c at next level, right associativity).

(** [DgdsEngine::syncGame(Common::Serializer &s)]

    Version history:
    1: First version
    2: Added GameItem.flags
    3: Stopped saving ADS/TTM state
    4: Stopped saving palette state *)
Definition syncGame (s : Serializer) (r : Run) : Outcome (Error * Serializer * Run) :=
  _ <- assert_that (have_scene (fst r) && have_gdsScene (fst r)) "_scene && _gdsScene" ;;
  let r := note CallHideMenu (on_ext (menu_hideMenu env) r) in
  let '(understood, s) := syncVersion 4 s in
  if negb understood then Abort (FatalError "Save game version too new")
  else
    sync (s, r) <- sync_subsystem GdsScene (gds_syncState env) s r or_return ;;
    let sceneNum := scene_getNum env (ext (fst r)) in
    let '(s, sceneNum) := syncAsUint16LE s sceneNum in
    let r := note (CallSyncField SceneNum) r in
    r <- (if isLoading s then
            (* load and prepare scene data before syncing the rest of the state *)
            let sceneFile := sceneFileName sceneNum in
            if negb (hasResource env (ext (fst r)) sceneFile)
            then Abort (FatalError "Game references non-existant scene")
            else
              let r := note CallUnloadMusic (on_ext (sound_unloadMusic env) r) in
              let r := note CallStopAllSfx (on_ext (sound_stopAllSfx env) r) in
              let r := note CallSceneUnload (on_ext (scene_unload env) r) in
              let r := note CallAdsUnload (on_ext (ads_unload env) r) in
              let r := note (CallSceneLoad sceneFile) (on_ext (scene_load env sceneFile) r) in
              Done (note CallAddInvButton (on_ext (scene_addInvButtonToHotAreaList env) r))
          else Done r) ;;
    sync (s, r) <- sync_subsystem Scene (scene_syncState env) s r or_return ;;
    sync (s, r) <- sync_subsystem GameGlobals (globals_syncState env) s r or_return ;;
    sync (s, r) <- sync_subsystem Clock (clock_syncState env) s r or_return ;;
    sync (s, r) <- sync_subsystem InventoryState Inventory_sync s r or_return ;;
    sync (s, r) <-
      (if getVersion s <? 4 then sync_subsystem GamePals (pals_syncState env) s r
       else if isLoading s then (NoError, s, note CallPaletteReset (on_ext (pals_reset env) r))
       else (NoError, s, r)) or_return ;;
    sync (s, r) <- sync_subsystem AdsInterp (ads_syncState env) s r or_return ;;
    let '(s, speed) := syncAsSint16LE s (_textSpeed (fst r)) in
    let r := note (CallSyncField TextSpeed) (on_engine (set_textSpeed speed) r) in
    let '(s, j1) := syncAsByte s (_justChangedScene1 (fst r)) in
    let r := note (CallSyncField JustChangedScene1)
               (on_engine (fun e => set_justChangedScene j1 (_justChangedScene2 e) e) r) in
    let '(s, j2) := syncAsByte s (_justChangedScene2 (fst r)) in
    let r := note (CallSyncField JustChangedScene2)
               (on_engine (fun e => set_justChangedScene (_justChangedScene1 e) j2 e) r) in
    (* sync engine play time to ensure various events run correctly. *)
    let '(s, playtime) := syncAsUint32LE s (totalPlayTime (fst r)) in
    let r := note (CallSyncField PlayTime) (on_engine (setTotalPlayTime playtime) r) in
    let '(s, file) := syncString s (_backgroundFile (fst r)) in
    let r := note (CallSyncField BackgroundFile) (on_engine (set_backgroundFile file) r) in
    let r :=
      if isLoading s then
        let r := note (CallDrawScreen file)
                   (on_engine (fun e => set_backgroundBuffer
                                          (_backgroundBuffer e ++ [BufDrawScreen file]) e) r) in
        on_engine (fun e => set_storedAreaBuffer
                              (_storedAreaBuffer e
                               ++ [BufFillRect (SCREEN_WIDTH env) (SCREEN_HEIGHT env) 0]) e) r
      else r in
    let r := note CallRunEnterSceneOps (on_engine (scene_runEnterSceneOps env) r) in
    Done (NoError, s, r).

End EngineCode.

(* ===================================================================== *)
(** ** A small world, used to run the engine code on examples *)

Record ExampleWorld : Type := {
  ex_sceneNum : Z;
  ex_dragItem : option Z;
  (** the scene files present, with the number of the scene each holds *)
  ex_scenes : list (string * Z);
  ex_palette : Z;
  ex_adsLoaded : bool
}.

Definition Subsystem_eqb (a b : Subsystem) : bool :=
  match a, b with
  | GdsScene, GdsScene | Scene, Scene | GameGlobals, GameGlobals | Clock, Clock
  | InventoryState, InventoryState | GamePals, GamePals | AdsInterp, AdsInterp => true
  | _, _ => false
  end.

Definition ex_lookup (w : ExampleWorld) (file : string) : option Z :=
  match find (fun p => String.eqb (fst p) file) (ex_scenes w) with
  | Some p => Some (snd p)
  | None => None
  end.

Definition ex_set_scene (n : Z) (w : ExampleWorld) : ExampleWorld :=
  {| ex_sceneNum := n; ex_dragItem := ex_dragItem w; ex_scenes := ex_scenes w;
     ex_palette := ex_palette w; ex_adsLoaded := ex_adsLoaded w |}.

Definition ex_set_drag (i : option Z) (w : ExampleWorld) : ExampleWorld :=
  {| ex_sceneNum := ex_sceneNum w; ex_dragItem := i; ex_scenes := ex_scenes w;
     ex_palette := ex_palette w; ex_adsLoaded := ex_adsLoaded w |}.

Definition ex_set_palette (p : Z) (w : ExampleWorld) : ExampleWorld :=
  {| ex_sceneNum := ex_sceneNum w; ex_dragItem := ex_dragItem w; ex_scenes := ex_scenes w;
     ex_palette := p; ex_adsLoaded := ex_adsLoaded w |}.

Definition ex_set_ads (b : bool) (w : ExampleWorld) : ExampleWorld :=
  {| ex_sceneNum := ex_sceneNum w; ex_dragItem := ex_dragItem w; ex_scenes := ex_scenes w;
     ex_palette := ex_palette w; ex_adsLoaded := b |}.

(** The collaborators of the example world.  Every subsystem's sync
    succeeds and transfers nothing, except the palettes, which transfer the
    one palette byte, and except [failing], whose sync reports [err]. *)
Definition example_env (failing : option Subsystem) (err : Error)
    : Externals ExampleWorld :=
  let sync_of (who : Subsystem) : SyncFn ExampleWorld :=
    fun s e =>
      (match failing with
       | Some f => if Subsystem_eqb f who then err else NoError
       | None => NoError
       end, s, e) in
  {| SCREEN_WIDTH := 320;
     SCREEN_HEIGHT := 200;
     hasResource := fun w file => match ex_lookup w file with Some _ => true | None => false end;
     scene_getNum := ex_sceneNum;
     scene_getDragItem := ex_dragItem;
     scene_setDragItem := ex_set_drag;
     scene_getMagic := fun _ => 7;
     scene_getAdsFile := fun _ => EmptyString;
     scene_unload := ex_set_scene 0;
     scene_load := fun file w => match ex_lookup w file with
                                 | Some n => ex_set_scene n w
                                 | None => w
                                 end;
     scene_addInvButtonToHotAreaList := fun w => w;
     scene_runLeaveSceneOps := fun e => e;
     scene_runEnterSceneOps := fun e => e;
     scene_syncState := sync_of Scene;
     gds_getMagic := fun _ => 7;
     gds_getCursorList := fun _ => [];
     gds_runChangeSceneOps := fun e => e;
     gds_syncState := sync_of GdsScene;
     icons_loadedFrameCount := fun _ => None;
     cursorMan_replaceCursor := fun _ _ w => w;
     sound_unloadMusic := fun w => w;
     sound_stopAllSfx := fun w => w;
     ads_load := fun _ => ex_set_ads true;
     ads_unload := ex_set_ads false;
     ads_syncState := sync_of AdsInterp;
     globals_setGlobal := fun _ _ e => e;
     globals_syncState := sync_of GameGlobals;
     clock_setVisibleScript := fun _ w => w;
     clock_syncState := sync_of Clock;
     menu_hideMenu := fun w => w;
     pals_reset := ex_set_palette 0;
     pals_syncState :=
       fun s e =>
         let '(s', p) := sync_le 1 s (ex_palette (ext e)) in
         (fst (fst (sync_of GamePals s e)), s', upd_ext (ex_set_palette p) e) |}.

Definition example_inventory (open : bool) (from : Z) : Inventory :=
  {| _isOpen := open; _openedFromSceneNum := from; _showZoomBox := open;
     _highlightItemNo := 4; _itemOffset := 0 |}.

(** An engine standing in scene [num], with scene files for scenes 2, 3
    and 5 present. *)
Definition example_game (num : Z) (inv : Inventory) (palette : Z) : Engine ExampleWorld :=
  {| have_scene := true; have_adsInterp := true; have_gdsScene := true;
     _inventory := inv;
     _lastOpcode1SceneChageNum := 0;
     _backgroundBuffer := []; _compositionBuffer := []; _storedAreaBuffer := [];
     _backgroundFile := EmptyString;
     _textSpeed := 1; _justChangedScene1 := false; _justChangedScene2 := false;
     _gameId := GID_DRAGON; _currentCursor := -1; _currentCursorHot := (0, 0);
     totalPlayTime := 0;
     ext := {| ex_sceneNum := num; ex_dragItem := Some 9;
               ex_scenes := [("S2.SDS"%string, 2); ("S3.SDS"%string, 3); ("S5.SDS"%string, 5)];
               ex_palette := palette; ex_adsLoaded := false |} |}.


(* ===================================================================== *)
(** ** Notions used in the statements *)

Definition has_state (d : Dialog) : Prop := exists st, _state d = Some st.

(** The frame styles that [Dialog::draw] can render. *)
Definition known_frame (d : Dialog) : Prop :=
  match _frameType d with
  | kDlgFrameOther _ => False
  | _ => True
  end.

(** The shared index left by a call of [updateSelectedAction]. *)
Definition index_after (o : Outcome (DialogStatics * Dialog * option (Z * Z))) : option Z :=
  match o with
  | Done (w, _, _) => Some (_lastSelectedDialogItemNum w)
  | Abort _ => None
  end.

(** The shared index when [updateSelectedAction] comes to add [delta]: the
    value found at the call if no dialog owned the selection marker, zero
    if one did. *)
Definition index_after_claim (w : DialogStatics) : Z :=
  match _lastDialogSelectionChangedFor w with
  | None => _lastSelectedDialogItemNum w
  | Some _ => 0
  end.

(** [n] calls of [updateSelectedAction] in a row, nothing happening in
    between. *)
Fixpoint update_n (n : nat) (eng : EngineView) (this : DialogPtr) (fuel : nat) (delta : Z)
    (w : DialogStatics) (d : Dialog) : Outcome (DialogStatics * Dialog) :=
  match n with
  | O => Done (w, d)
  | S n' =>
      '(w, d, _) <- updateSelectedAction eng this fuel delta w d ;;
      update_n n' eng this fuel delta w d
  end.

(** Modelled from the spec: the selector's state "action selected at index
    i".  The code that stores the selected action into the [DialogState]
    after the pointer has been moved is scene code, not under src/; here
    the action at the index the call reported becomes the selected one. *)
Definition select_reported (w : DialogStatics) (d : Dialog) : Dialog :=
  match _state d with
  | Some st =>
      set_state d (Some (set_selectedAction st
                           (Some (Z.to_nat (_lastSelectedDialogItemNum w)))))
  | None => d
  end.

(** Modelled from the spec: one [advance(delta)] of the selector:
    [updateSelectedAction], after which the reported action is the
    selected one. *)
Definition advance (eng : EngineView) (this : DialogPtr) (fuel : nat) (delta : Z)
    (w : DialogStatics) (d : Dialog) : Outcome (DialogStatics * Dialog) :=
  '(w, d, _) <- updateSelectedAction eng this fuel delta w d ;;
  Done (w, select_reported w d).

(** Modelled from the spec: [advance(delta)] repeated [n] times. *)
Fixpoint advance_n (n : nat) (eng : EngineView) (this : DialogPtr) (fuel : nat) (delta : Z)
    (w : DialogStatics) (d : Dialog) : Outcome (DialogStatics * Dialog) :=
  match n with
  | O => Done (w, d)
  | S n' =>
      '(w, d) <- advance eng this fuel delta w d ;;
      advance_n n' eng this fuel delta w d
  end.

Definition selected_of (d : Dialog) : option nat :=
  match _state d with
  | Some st => _selectedAction st
  | None => None
  end.

Definition index_of (o : Outcome (DialogStatics * Dialog)) : option Z :=
  match o with
  | Done (w, _) => Some (_lastSelectedDialogItemNum w)
  | Abort _ => None
  end.

(** The dialog of the selection scenario: two actions over
    "Pick a direction.<CR>Go north<CR>Go south". *)
Definition direction_dialog (sel : option nat) : Dialog :=
  {| _num := 1;
     _rect := DgdsRect.mk 10 10 300 60;
     _bgColor := 7; _fontColor := 0; _selectionBgCol := 0; _selectonFontCol := 4;
     _fontSize := 1; _flags := 0; _frameType := kDlgFramePlain; _time := 0;
     _str := cstr "Pick a direction." ++ CR :: cstr "Go north" ++ CR :: cstr "Go south";
     _action := [ {| strStart := 19; strEnd := 26; sceneOpList := [] |};
                  {| strStart := 28; strEnd := 35; sceneOpList := [] |} ];
     _state := Some (example_state (DgdsRect.mk 13 13 294 54) 0 sel) |}.

(** The index from which a call of [updateSelectedAction] starts counting:
    that of the selected action when there is one among the dialog's
    actions, else the index left by the ownership step. *)
Definition start_index (w : DialogStatics) (d : Dialog) (st : DialogState) : Z :=
  match _selectedAction st with
  | Some s => if (s <? List.length (_action d))%nat then Z.of_nat s else index_after_claim w
  | None => index_after_claim w
  end.

(** *** Layout notions *)

(** The sum of the glyph widths of a string, every glyph measured as
    [drawFindSelectionTxtOffset] measures it: by [getCharWidth] of the plain
    [char] converted to [uint32]. *)
Fixpoint glyphs_width (font : DgdsFont) (s : CString) : Z :=
  match s with
  | [] => 0
  | c :: rest => getCharWidth font (char_as_uint32 c) + glyphs_width font rest
  end.

(** The characters of the original string consumed by wrapped lines: each
    line and the break character elided after it. *)
Fixpoint chars_consumed (lines : list CString) : Z :=
  match lines with
  | [] => 0
  | l :: rest => size l + 1 + chars_consumed rest
  end.

(** The offset, in the original string, of the first character of wrapped
    line [j]. *)
Definition line_offset (lines : list CString) (j : nat) : Z :=
  chars_consumed (firstn j lines).

(** The wrapped lines are cut out of [str]: every line is the text that
    follows the previous line and its elided break character. *)
Fixpoint lines_of (str : CString) (lines : list CString) : Prop :=
  match lines with
  | [] => True
  | l :: rest =>
      firstn (List.length l) str = l /\ lines_of (skipn (S (List.length l)) str) rest
  end.

(** Line [k] is the located line for pointer height [ypos]: every line
    before it has its bottom edge above [ypos], and line [k] has not (or
    there is no line [k]). *)
Definition located_line (nlines : nat) (top lineHeight ypos : Z) (k : nat) : Prop :=
  (k <= nlines)%nat
  /\ (forall i, (i < k)%nat -> top + (Z.of_nat i + 1) * lineHeight < ypos)
  /\ (k = nlines \/ ypos <= top + (Z.of_nat k + 1) * lineHeight).

(** The cumulative glyph width of [line] through glyph [c], counted from
    [left], meets or exceeds [xpos]. *)
Definition reaches (font : DgdsFont) (left xpos : Z) (line : CString) (c : nat) : Prop :=
  xpos <= left + glyphs_width font (firstn (S c) line).

(** Glyph [c] of line [j] is the first one, reading from line [k] on and
    every line from its left edge, that reaches [xpos]. *)
Definition first_reached (font : DgdsFont) (lines : list CString) (left xpos : Z)
    (k j c : nat) : Prop :=
  (k <= j < List.length lines)%nat
  /\ (c < List.length (nth j lines []))%nat
  /\ reaches font left xpos (nth j lines []) c
  /\ (forall c', (c' < c)%nat -> ~ reaches font left xpos (nth j lines []) c')
  /\ (forall j' c', (k <= j' < j)%nat -> (c' < List.length (nth j' lines []))%nat ->
                    ~ reaches font left xpos (nth j' lines []) c').

(** No glyph of line [k] or of a later line reaches [xpos]. *)
Definition none_reached (font : DgdsFont) (lines : list CString) (left xpos : Z)
    (k : nat) : Prop :=
  forall j c, (k <= j < List.length lines)%nat -> (c < List.length (nth j lines []))%nat ->
              ~ reaches font left xpos (nth j lines []) c.

(** The left and top of the text block that [drawFindSelectionTxtOffset]
    measures from. *)
Definition text_origin (d : Dialog) (st : DialogState) (font : DgdsFont)
    (lines : list CString) (maxWidth : Z) : Z * Z :=
  if hasFlag d kDlgFlagLeftJust then
    (DgdsRect.x (_loc st) + cdiv (DgdsRect.width (_loc st) - maxWidth - 1) 2,
     DgdsRect.y (_loc st)
     + cdiv (DgdsRect.height (_loc st) - to_int32 (size lines * getFontHeight font) - 1) 2)
  else (DgdsRect.x (_loc st), DgdsRect.y (_loc st)).

(** The offset stored by a stage. *)
Definition offset_of (d : Dialog) : option Z :=
  match _state d with
  | Some st => Some (_strMouseLoc st)
  | None => None
  end.

(** A plain dialog over a text of two lines, "a" and "bbbb", with the
    stored pointer at [(mx, my)] and the stored offset [off]. *)
Definition two_line_dialog (mx my off : Z) : Dialog :=
  {| _num := 2;
     _rect := DgdsRect.mk 10 10 300 60;
     _bgColor := 7; _fontColor := 0; _selectionBgCol := 0; _selectonFontCol := 4;
     _fontSize := 1; _flags := 0; _frameType := kDlgFramePlain; _time := 0;
     _str := cstr "a" ++ CR :: cstr "bbbb";
     _action := [];
     _state := Some (set_lastMouse (example_state (DgdsRect.mk 13 13 294 54) off None)
                                   mx my) |}.

(** The wrapped text block fits into the content rectangle and the sizes
    involved are within [int]; this matters for dialogs with the
    left-justify flag, whose block is centred in the rectangle. *)
Definition block_fits (st : DialogState) (font : DgdsFont) (lines : list CString)
    (maxWidth : Z) : Prop :=
  0 <= DgdsRect.width (_loc st) - maxWidth - 1
  /\ 0 <= DgdsRect.height (_loc st) - size lines * getFontHeight font - 1
  /\ fits_int (DgdsRect.height (_loc st))
  /\ fits_int (size lines * getFontHeight font)
  /\ fits_int (DgdsRect.y (_loc st) + 1
             + (DgdsRect.height (_loc st) - size lines * getFontHeight font - 1) / 2).

(** *** The case analysis of [pickAction] *)

(** The character of [str] at offset [o], NUL outside the string. *)
Definition char_under (str : CString) (o : Z) : ascii :=
  if (o >=? 0) && (o <? size str) then nth (Z.to_nat o) str Ascii.zero else Ascii.zero.

(** Offset [o] selects action [a]: it lies within the action's span, ends
    included, or it is exactly one past the end of the span on a carriage
    return while the span does not itself end in a carriage return. *)
Definition span_selects (str : CString) (o : Z) (a : DialogAction) : bool :=
  ((strStart a <=? o) && (o <=? strEnd a))
  || ((o =? strEnd a + 1) && Ascii.eqb (char_under str o) CR
      && negb (Ascii.eqb (nth (Z.to_nat (strEnd a)) str Ascii.zero) CR)).

Fixpoint first_index {A : Type} (p : A -> bool) (l : list A) (i : nat) : option nat :=
  match l with
  | [] => None
  | a :: rest => if p a then Some i else first_index p rest (S i)
  end.

(** The pointer lies within the content rectangle, edges included. *)
Definition pointer_inside (mouse : Z * Z) (loc : DgdsRect) : bool :=
  (DgdsRect.x loc <=? fst mouse) && (DgdsRect.x loc + DgdsRect.width loc >=? fst mouse)
  && (DgdsRect.y loc <=? snd mouse) && (DgdsRect.y loc + DgdsRect.height loc >=? snd mouse).

(** The character offset that the pointer resolves to. *)
Definition pointer_offset (eng : EngineView) (d : Dialog) (st : DialogState) : Z :=
  match offset_of (drawFindSelectionTxtOffset eng
                     (set_state d (Some (set_lastMouse st (fst (getLastMouse eng))
                                                       (snd (getLastMouse eng)))))) with
  | Some o => o
  | None => 0
  end.

(** The case analysis: closing without force draws an action at random;
    otherwise a pointer inside the content rectangle is resolved to an
    offset and the first action that the offset selects is returned; when
    nothing is selected that way, a closing dialog with exactly one action
    returns that action, and any other dialog none. *)
Definition pickAction_cases (eng : EngineView) (isClosing isForceClose : bool) (d : Dialog)
    : option nat :=
  if negb isForceClose && isClosing then
    match _action d with
    | [] => None
    | _ :: _ => Some (Z.to_nat (getRandomNumber eng (size (_action d) - 1)))
    end
  else
    let hit :=
      match _state d with
      | Some st =>
          if pointer_inside (getLastMouse eng) (_loc st)
          then first_index (span_selects (_str d) (pointer_offset eng d st)) (_action d) 0
          else None
      | None => None
      end in
    match hit with
    | Some i => Some i
    | None => if isClosing && (size (_action d) =? 1) then Some 0%nat else None
    end.

(** A dialog whose only action spans "Go north", offsets 0 to 7. *)
Definition north_dialog : Dialog :=
  {| _num := 3;
     _rect := DgdsRect.mk 10 10 300 60;
     _bgColor := 7; _fontColor := 0; _selectionBgCol := 0; _selectonFontCol := 4;
     _fontSize := 1; _flags := 0; _frameType := kDlgFramePlain; _time := 0;
     _str := cstr "Go north";
     _action := [ {| strStart := 0; strEnd := 7; sceneOpList := [] |} ];
     _state := Some (example_state (DgdsRect.mk 13 13 294 54) 0 None) |}.

(** *** Scene changes *)

(** Neither the target nor the current scene is the inventory scene and
    the inventory is open: the case in which [changeScene] closes the
    inventory before it looks for the target's resource. *)
Definition closes_inventory {Ext : Type} (env : Externals Ext) (sceneNum : Z)
    (e : Engine Ext) : bool :=
  negb (sceneNum =? 2) && negb (scene_getNum env (ext e) =? 2)
  && _isOpen (_inventory e).

(** *** The order of save-state synchronisation

    The order is written down as the specification gives it: a list of
    steps, run one after the other until one reports an error.  The
    theorems compare [syncGame], embedded from the source above, with the
    run of this list. *)

Inductive Step : Type :=
| StepSync (who : Subsystem)
| StepField (f : Field)
| StepEnterOps.

(** The steps before the palette: scene directory, current scene number,
    scene state, global variables, clock, inventory. *)
Definition steps_before_palette : list Step :=
  [StepSync GdsScene; StepField SceneNum; StepSync Scene; StepSync GameGlobals;
   StepSync Clock; StepSync InventoryState].

(** The steps after the palette: script-overlay interpreter, text speed,
    the two just-changed-scene flags, elapsed play time, background image
    filename, then the scene's enter ops. *)
Definition steps_after_palette : list Step :=
  [StepSync AdsInterp; StepField TextSpeed; StepField JustChangedScene1;
   StepField JustChangedScene2; StepField PlayTime; StepField BackgroundFile;
   StepEnterOps].

(** The fixed order: scene directory, current scene number, scene state,
    global variables, clock, inventory, palette (only when version < 4),
    script-overlay interpreter, text speed, the two just-changed-scene
    flags, elapsed play time, background image filename, then the scene's
    enter ops. *)
Definition sync_order (version : Z) : list Step :=
  steps_before_palette
  ++ (if version <? 4 then [StepSync GamePals] else [])
  ++ steps_after_palette.

(** What a run does, one after the other: a step of the fixed order, or the
    reset of the palette to its default. *)
Inductive Action : Type :=
| ActStep (st : Step)
| ActPaletteReset.

(** The plan of a run for a format version: the fixed order, with the reset
    of the palette in the place of the palette step when a blob of
    version 4 is loaded. *)
Definition sync_plan (version : Z) (loading : bool) : list Action :=
  map ActStep steps_before_palette
  ++ (if version <? 4 then [ActStep (StepSync GamePals)]
      else if loading then [ActPaletteReset] else [])
  ++ map ActStep steps_after_palette.

(** The steps of the fixed order among the actions of a plan. *)
Fixpoint plan_steps (plan : list Action) : list Step :=
  match plan with
  | [] => []
  | ActStep st :: rest => st :: plan_steps rest
  | ActPaletteReset :: rest => plan_steps rest
  end.

(** The [syncState] of a subsystem. *)
Definition subsystem_sync {Ext : Type} (env : Externals Ext) (who : Subsystem) : SyncFn Ext :=
  match who with
  | GdsScene => gds_syncState env
  | Scene => scene_syncState env
  | GameGlobals => globals_syncState env
  | Clock => clock_syncState env
  | InventoryState => Inventory_sync
  | GamePals => pals_syncState env
  | AdsInterp => ads_syncState env
  end.

(** The sync of one field of the engine.  The scene number is followed,
    when loading, by the loading of that scene, which is fatal when the
    scene has no resource; the background file name is followed, when
    loading, by the drawing of that background. *)
Definition sync_field {Ext : Type} (env : Externals Ext) (f : Field) (s : Serializer)
    (r : Run) : Outcome (Serializer * Run) :=
  match f with
  | SceneNum =>
      let '(s, sceneNum) := syncAsUint16LE s (scene_getNum env (ext (fst r))) in
      let r := note (CallSyncField SceneNum) r in
      if isLoading s then
        let sceneFile := sceneFileName sceneNum in
        if negb (hasResource env (ext (fst r)) sceneFile)
        then Abort (FatalError "Game references non-existant scene")
        else
          let r := note CallUnloadMusic (on_ext (sound_unloadMusic env) r) in
          let r := note CallStopAllSfx (on_ext (sound_stopAllSfx env) r) in
          let r := note CallSceneUnload (on_ext (scene_unload env) r) in
          let r := note CallAdsUnload (on_ext (ads_unload env) r) in
          let r := note (CallSceneLoad sceneFile) (on_ext (scene_load env sceneFile) r) in
          Done (s, note CallAddInvButton (on_ext (scene_addInvButtonToHotAreaList env) r))
      else Done (s, r)
  | TextSpeed =>
      let '(s, speed) := syncAsSint16LE s (_textSpeed (fst r)) in
      Done (s, note (CallSyncField TextSpeed) (on_engine (set_textSpeed speed) r))
  | JustChangedScene1 =>
      let '(s, j1) := syncAsByte s (_justChangedScene1 (fst r)) in
      Done (s, note (CallSyncField JustChangedScene1)
                 (on_engine (fun e => set_justChangedScene j1 (_justChangedScene2 e) e) r))
  | JustChangedScene2 =>
      let '(s, j2) := syncAsByte s (_justChangedScene2 (fst r)) in
      Done (s, note (CallSyncField JustChangedScene2)
                 (on_engine (fun e => set_justChangedScene (_justChangedScene1 e) j2 e) r))
  | PlayTime =>
      let '(s, playtime) := syncAsUint32LE s (totalPlayTime (fst r)) in
      Done (s, note (CallSyncField PlayTime) (on_engine (setTotalPlayTime playtime) r))
  | BackgroundFile =>
      let '(s, file) := syncString s (_backgroundFile (fst r)) in
      let r := note (CallSyncField BackgroundFile) (on_engine (set_backgroundFile file) r) in
      if isLoading s then
        let r := note (CallDrawScreen file)
                   (on_engine (fun e => set_backgroundBuffer
                                          (_backgroundBuffer e ++ [BufDrawScreen file]) e) r) in
        Done (s, on_engine (fun e => set_storedAreaBuffer
                                       (_storedAreaBuffer e
                                        ++ [BufFillRect (SCREEN_WIDTH env) (SCREEN_HEIGHT env) 0])
                                       e) r)
      else Done (s, r)
  end.

(** One action, on the serializer and the engine it finds: a subsystem
    step calls the subsystem's [syncState] and reports what that returns;
    the other actions report no error. *)
Definition run_action {Ext : Type} (env : Externals Ext) (a : Action) (s : Serializer)
    (r : Run) : Outcome (Error * Serializer * Run) :=
  match a with
  | ActStep (StepSync who) => Done (sync_subsystem who (subsystem_sync env who) s r)
  | ActStep (StepField f) => '(s, r) <- sync_field env f s r ;; Done (NoError, s, r)
  | ActStep StepEnterOps =>
      Done (NoError, s, note CallRunEnterSceneOps (on_engine (scene_runEnterSceneOps env) r))
  | ActPaletteReset => Done (NoError, s, note CallPaletteReset (on_ext (pals_reset env) r))
  end.

(** The actions of a plan in sequence, each on what the one before left,
    stopping at the first that reports an error: that error is returned as
    it is, with the serializer and the engine as that action left them, and
    no later action is run.  A plan that runs to its end returns no
    error. *)
Fixpoint run_plan {Ext : Type} (env : Externals Ext) (plan : list Action) (s : Serializer)
    (r : Run) : Outcome (Error * Serializer * Run) :=
  match plan with
  | [] => Done (NoError, s, r)
  | a :: rest =>
      '(result, s, r) <- run_action env a s r ;;
      if is_no_error result then run_plan env rest s r else Done (result, s, r)
  end.

(** A subsystem's [syncState] uses the serializer it is handed without
    renegotiating the version or changing between loading and saving. *)
Definition keeps_mode {Ext : Type} (f : SyncFn Ext) : Prop :=
  forall s e, getVersion (snd (fst (f s e))) = getVersion s
              /\ isLoading (snd (fst (f s e))) = isLoading s.

Definition subsystems_keep_mode {Ext : Type} (env : Externals Ext) : Prop :=
  keeps_mode (gds_syncState env) /\ keeps_mode (scene_syncState env)
  /\ keeps_mode (globals_syncState env) /\ keeps_mode (clock_syncState env)
  /\ keeps_mode (pals_syncState env) /\ keeps_mode (ads_syncState env).

(** The version that [syncVersion(4)] leaves in the serializer: 4 when
    saving, the version field of the blob when loading. *)
Definition negotiated_version (s : Serializer) : Z := snd (sync_le 4 s 4).

(** The serializer and the run as [syncGame] has them when the first step
    begins: the version is negotiated and the menu is hidden. *)
Definition sync_start {Ext : Type} (env : Externals Ext) (s : Serializer) (r : @Run Ext)
    : Serializer * Run :=
  (snd (syncVersion 4 s), note CallHideMenu (on_ext (menu_hideMenu env) r)).

(** The serializer that loads a blob of version [v], after the version
    field has been read. *)
Definition loader_at (v : Z) (blob : list Z) : Serializer :=
  {| isLoading := true; getVersion := v; _loadStream := blob; _saveStream := [] |}.

(** The palette state was read from (or written to) the palette block. *)
Definition palette_synced (log : list Call) : Prop :=
  exists r, In (CallSyncState GamePals r) log.

(** The palette state was reset to its default. *)
Definition palette_reset (log : list Call) : Prop := In CallPaletteReset log.

(** A disk-full error, for examples. *)
Definition disk_full : Error := {| getCode := kWritingFailed; getDesc := "disk full" |}.

(** The palette byte of the example world after a run, when it completed. *)
Definition palette_after (o : Outcome (Error * Serializer * (Engine ExampleWorld * list Call)))
    : option Z :=
  match o with
  | Done (_, _, (e, _)) => Some (ex_palette (ext e))
  | Abort _ => None
  end.

(* ===================================================================== *)
(** ** Trailing blanks before carriage returns: [Dialog::fixupStringAndActions] *)

Definition set_text (d : Dialog) (str : CString) (actions : list DialogAction) : Dialog :=
  {| _num := _num d; _rect := _rect d; _bgColor := _bgColor d;
     _fontColor := _fontColor d; _selectionBgCol := _selectionBgCol d;
     _selectonFontCol := _selectonFontCol d; _fontSize := _fontSize d;
     _flags := _flags d; _frameType := _frameType d; _time := _time d;
     _str := str; _action := actions; _state := _state d |}.

(** [Common::String::deleteChar(p)] *)
Definition deleteChar (s : CString) (p : nat) : CString := firstn p s ++ skipn (S p) s.

(** [if (off >= i) off--;] on a [uint16] offset. *)
Definition shift_offset (i : Z) (off : Z) : Z :=
  if off >=? i then to_uint16 (off - 1) else off.

(** The body of [for (auto &action : _action)]. *)
Definition shift_span (i : Z) (a : DialogAction) : DialogAction :=
  {| strStart := shift_offset i (strStart a);
     strEnd := shift_offset i (strEnd a);
     sceneOpList := sceneOpList a |}.

(** [while (i > 0 && _str[i - 1] == ' ')]: every step removes the blank
    before position [i], moves the spans that lie at or after [i] and steps
    [i] back. *)
Fixpoint fixup_blanks (i : nat) (str : CString) (actions : list DialogAction)
    : CString * list DialogAction * nat :=
  match i with
  | O => (str, actions, O)
  | S j =>
      if Ascii.eqb (nth j str Ascii.zero) SPACE
      then fixup_blanks j (deleteChar str j) (map (shift_span (Z.of_nat i)) actions)
      else (str, actions, i)
  end.

(** [for (uint i = 0; i < _str.size(); i++)].  [remaining] is
    [_str.size() - i]: the inner loop removes one character for every step
    it takes back, so every iteration of the outer loop lowers the
    difference by one. *)
Fixpoint fixup_from (remaining : nat) (i : nat) (str : CString)
    (actions : list DialogAction) : CString * list DialogAction :=
  match remaining with
  | O => (str, actions)
  | S remaining' =>
      let '(str, actions, i) :=
        if Ascii.eqb (nth i str Ascii.zero) CR
        then fixup_blanks i str actions
        else (str, actions, i) in
      fixup_from remaining' (S i) str actions
  end.

Definition fixupStringAndActions (d : Dialog) : Dialog :=
  let '(str, actions) := fixup_from (List.length (_str d)) 0 (_str d) (_action d) in
  set_text d str actions.

(** *** Notions used in the statements about the fix-up *)

(** [s] begins with a possibly empty run of blanks that ends at a carriage
    return. *)
Fixpoint leads_to_CR (s : CString) : bool :=
  match s with
  | [] => false
  | c :: rest => Ascii.eqb c CR || (Ascii.eqb c SPACE && leads_to_CR rest)
  end.

(** The text without the blanks that stand in a run directly before a
    carriage return. *)
Fixpoint trim_before_CR (s : CString) : CString :=
  match s with
  | [] => []
  | c :: rest =>
      if Ascii.eqb c SPACE && leads_to_CR rest then trim_before_CR rest
      else c :: trim_before_CR rest
  end.

(** The number of such blanks among the first [o] characters of [s]. *)
Fixpoint trimmed_below (s : CString) (o : nat) : nat :=
  match o, s with
  | S o', c :: rest =>
      ((if Ascii.eqb c SPACE && leads_to_CR rest then 1 else 0) + trimmed_below rest o')%nat
  | _, _ => 0%nat
  end.

(** The character at position [o] of [s] is one of those blanks. *)
Definition trimmed_at (s : CString) (o : nat) : bool :=
  match skipn o s with
  | c :: rest => Ascii.eqb c SPACE && leads_to_CR rest
  | [] => false
  end.

(** Where an offset into the text points after the fix-up. *)
Definition offset_after_trim (s : CString) (off : Z) : Z :=
  off - Z.of_nat (trimmed_below s (Z.to_nat off)).

(** A span as the fix-up leaves it. *)
Definition span_after_trim (s : CString) (a : DialogAction) : DialogAction :=
  {| strStart := offset_after_trim s (strStart a);
     strEnd := offset_after_trim s (strEnd a);
     sceneOpList := sceneOpList a |}.

(** The spans are [uint16] offsets. *)
Definition span_in_uint16 (a : DialogAction) : Prop :=
  0 <= strStart a < 2 ^ 16 /\ 0 <= strEnd a < 2 ^ 16.

(** The text without its trailing blanks. *)
Fixpoint drop_end_blanks (s : CString) : CString :=
  match s with
  | [] => []
  | c :: rest =>
      match drop_end_blanks rest with
      | [] => if Ascii.eqb c SPACE then [] else [c]
      | r => c :: r
      end
  end.

(** An offset after the blanks at positions [a] to [b - 1] have been
    removed. *)
Definition offset_less_run (a b : Z) (off : Z) : Z := off - Z.max 0 (Z.min off b - a).

Definition span_less_run (a b : Z) (s : DialogAction) : DialogAction :=
  {| strStart := offset_less_run a b (strStart s);
     strEnd := offset_less_run a b (strEnd s);
     sceneOpList := sceneOpList s |}.

(** A dialog of the fix-up examples: the text "Hi  <CR>Go  " with one span
    over "Go". *)
Definition blank_dialog : Dialog :=
  {| _num := 4;
     _rect := DgdsRect.mk 10 10 300 60;
     _bgColor := 7; _fontColor := 0; _selectionBgCol := 0; _selectonFontCol := 4;
     _fontSize := 1; _flags := 0; _frameType := kDlgFramePlain; _time := 0;
     _str := cstr "Hi  " ++ CR :: cstr "Go  ";
     _action := [ {| strStart := 5; strEnd := 6; sceneOpList := [] |} ];
     _state := None |}.

(** Where an offset points at the end of the fix-up, seen from the middle
    of the run: [P] is the text already gone through, [R] the text still to
    come. *)
Definition offset_from (P R : CString) (off : Z) : Z :=
  (if leads_to_CR R then offset_less_run (size (drop_end_blanks P)) (size P) off else off)
  - Z.of_nat (trimmed_below R (Z.to_nat (off - size P))).

Definition span_from (P R : CString) (a : DialogAction) : DialogAction :=
  {| strStart := offset_from P R (strStart a);
     strEnd := offset_from P R (strEnd a);
     sceneOpList := sceneOpList a |}.

(** *** Notions used in the statements about drawing *)

(** One [drawString] call for every line, in colour [col]: line [i] at
    height [ystart + i * h]. *)
Definition plain_lines (lines : list CString) (first : nat) (px ystart h xwidth col : Z)
    (align : TextAlign) : list DrawCmd :=
  map (fun i => DrawString (nth (i - first) lines []) px (ystart + Z.of_nat i * h)
                           xwidth col align)
      (seq first (List.length lines)).

(** Where [drawForeground] puts the text block: left edge, width handed to
    [drawString] and alignment. *)
Definition text_block (d : Dialog) (st : DialogState) (font : DgdsFont)
    (lines : list CString) : Z * TextAlign * Z :=
  if hasFlag d kDlgFlagLeftJust then
    (DgdsRect.x (_loc st)
     + cdiv (DgdsRect.width (_loc st) - max_line_width font lines 0) 2,
     kTextAlignLeft, max_line_width font lines 0)
  else (DgdsRect.x (_loc st), kTextAlignCenter, DgdsRect.width (_loc st)).

(* ===================================================================== *)
(** ** [DgdsEngine::canSaveGameStateCurrently] *)

Definition DgdsGameId_eqb (a b : DgdsGameId) : bool :=
  match a, b with
  | GID_DRAGON, GID_DRAGON | GID_HOC, GID_HOC | GID_WILLY, GID_WILLY
  | GID_SQ5DEMO, GID_SQ5DEMO | GID_COMINGATTRACTIONS, GID_COMINGATTRACTIONS => true
  | _, _ => false
  end.

(** The engine's [_isLoading] member is handed in as [loading]. *)
Definition canSaveGameStateCurrently {Ext : Type} (env : Externals Ext) (loading : bool)
    (e : Engine Ext) : bool :=
  (* Doesn't make sense to save non-interactive demos.. *)
  let isSavableGame := negb (DgdsGameId_eqb (_gameId e) GID_SQ5DEMO)
                       && negb (DgdsGameId_eqb (_gameId e) GID_COMINGATTRACTIONS) in
  isSavableGame && have_gdsScene e && have_scene e
  && negb (scene_getNum env (ext e) =? 2)
  && match scene_getDragItem env (ext e) with None => true | Some _ => false end
  && negb loading.

(** *** Notions used in the statements about the engine *)

(** The calls that a save makes: hiding the menu, the syncs, and the
    scene's enter ops. *)
Definition save_call (c : Call) : Prop :=
  match c with
  | CallHideMenu | CallSyncState _ _ | CallSyncField _ | CallRunEnterSceneOps => True
  | _ => False
  end.

(** What a scene change that has returned left behind. *)
Definition scene_change_result {Ext : Type} (env : Externals Ext) (sceneNum : Z)
    (before : Engine Ext) (changed : bool) (after : Engine Ext) (log : list Call) : Prop :=
  if changed then
    _justChangedScene1 after = true /\ _justChangedScene2 after = true
    /\ In (CallSceneLoad (sceneFileName sceneNum)) log
    /\ last log CallHideMenu = CallRunEnterSceneOps
    /\ sceneNum <> scene_getNum env (ext before)
  else exists msg, last log CallHideMenu = CallWarning msg.

(** The example world with [count] cursor frames loaded and the cursor
    list [cursors]. *)
Definition cursor_env (count : Z) (cursors : list (Z * Z)) : Externals ExampleWorld :=
  let env := example_env None NoError in
  {| SCREEN_WIDTH := SCREEN_WIDTH env;
     SCREEN_HEIGHT := SCREEN_HEIGHT env;
     hasResource := hasResource env;
     scene_getNum := scene_getNum env;
     scene_getDragItem := scene_getDragItem env;
     scene_setDragItem := scene_setDragItem env;
     scene_getMagic := scene_getMagic env;
     scene_getAdsFile := scene_getAdsFile env;
     scene_unload := scene_unload env;
     scene_load := scene_load env;
     scene_addInvButtonToHotAreaList := scene_addInvButtonToHotAreaList env;
     scene_runLeaveSceneOps := scene_runLeaveSceneOps env;
     scene_runEnterSceneOps := scene_runEnterSceneOps env;
     scene_syncState := scene_syncState env;
     gds_getMagic := gds_getMagic env;
     gds_getCursorList := fun _ => cursors;
     gds_runChangeSceneOps := gds_runChangeSceneOps env;
     gds_syncState := gds_syncState env;
     icons_loadedFrameCount := fun _ => Some count;
     cursorMan_replaceCursor := cursorMan_replaceCursor env;
     sound_unloadMusic := sound_unloadMusic env;
     sound_stopAllSfx := sound_stopAllSfx env;
     ads_load := ads_load env;
     ads_unload := ads_unload env;
     ads_syncState := ads_syncState env;
     globals_setGlobal := globals_setGlobal env;
     globals_syncState := globals_syncState env;
     clock_setVisibleScript := clock_setVisibleScript env;
     clock_syncState := clock_syncState env;
     menu_hideMenu := menu_hideMenu env;
     pals_reset := pals_reset env;
     pals_syncState := pals_syncState env |}.

(* ===================================================================== *)
(** ** [DialogState::syncState] and [Dialog::syncState] *)

(** The members are synced in the order of the source.  A value that is
    loaded is converted to the type of its member: [_strMouseLoc], which the
    dialog code compares with [int] values, is an [int]; the members synced
    as [Uint16] and [_hideTime] hold the value as read.  [_selectedAction]
    is not part of the saved state. *)
Definition DialogState_syncState (s : Serializer) (st : DialogState)
    : Error * Serializer * DialogState :=
  let '(s, hideTime) := syncAsUint32LE s (_hideTime st) in
  let '(s, lastMouseX) := syncAsSint16LE s (_lastMouseX st) in
  let '(s, lastMouseY) := syncAsSint16LE s (_lastMouseY st) in
  let '(s, charWidth) := syncAsUint16LE s (_charWidth st) in
  let '(s, charHeight) := syncAsUint16LE s (_charHeight st) in
  let '(s1, strMouseLoc) := syncAsUint32LE s (_strMouseLoc st) in
  let strMouseLoc := if isLoading s then to_int32 strMouseLoc else strMouseLoc in
  let '(s, lx) := syncAsUint16LE s1 (DgdsRect.x (_loc st)) in
  let '(s, ly) := syncAsUint16LE s (DgdsRect.y (_loc st)) in
  let '(s, lw) := syncAsUint16LE s (DgdsRect.width (_loc st)) in
  let '(s, lh) := syncAsUint16LE s (DgdsRect.height (_loc st)) in
  (NoError, s,
   {| _hideTime := hideTime;
      _loc := DgdsRect.mk lx ly lw lh;
      _lastMouseX := lastMouseX; _lastMouseY := lastMouseY;
      _charWidth := charWidth; _charHeight := charHeight;
      _strMouseLoc := strMouseLoc;
      _selectedAction := _selectedAction st |}).

Definition Dialog_syncState (s : Serializer) (d : Dialog) : Error * Serializer * Dialog :=
  let '(s, flags) := syncAsUint32LE s (_flags d) in
  let d := set_flags d flags in
  let hasState := match _state d with Some _ => true | None => false end in
  let '(s, hasState) := syncAsByte s hasState in
  if hasState then
    let st := match _state d with
              | Some st => st
              | None => new_DialogState
              end in
    let '(_, s, st) := DialogState_syncState s st in
    (NoError, s, set_state d (Some st))
  else (NoError, s, set_state d None).

(** *** Notions used in the statements about saved state *)

(** The values of an inventory fit the fields of the save file. *)
Definition inventory_fits (inv : Inventory) : Prop :=
  0 <= _openedFromSceneNum inv < 2 ^ 16
  /\ - 2 ^ 15 <= _highlightItemNo inv < 2 ^ 15
  /\ - 2 ^ 15 <= _itemOffset inv < 2 ^ 15.

(** The values of a transient dialog state fit the fields of the save
    file. *)
Definition state_fits (st : DialogState) : Prop :=
  0 <= _hideTime st < 2 ^ 31
  /\ - 2 ^ 15 <= _lastMouseX st < 2 ^ 15 /\ - 2 ^ 15 <= _lastMouseY st < 2 ^ 15
  /\ 0 <= _charWidth st < 2 ^ 16 /\ 0 <= _charHeight st < 2 ^ 16
  /\ - 2 ^ 31 <= _strMouseLoc st < 2 ^ 31
  /\ 0 <= DgdsRect.x (_loc st) < 2 ^ 16 /\ 0 <= DgdsRect.y (_loc st) < 2 ^ 16
  /\ 0 <= DgdsRect.width (_loc st) < 2 ^ 16 /\ 0 <= DgdsRect.height (_loc st) < 2 ^ 16.

Definition dialog_fits (d : Dialog) : Prop :=
  0 <= _flags d < 2 ^ 32
  /\ match _state d with
     | Some st => state_fits st
     | None => True
     end.

(** A serializer that saves after the bytes [written]. *)
Definition saving_after (written : list Z) : Serializer :=
  {| isLoading := false; getVersion := 4; _loadStream := []; _saveStream := written |}.

(** A serializer that loads a version 4 blob of which [bytes] are left. *)
Definition loading_from (bytes : list Z) : Serializer :=
  {| isLoading := true; getVersion := 4; _loadStream := bytes; _saveStream := [] |}.

(** The bytes that a sync in saving mode added to [written]. *)
Definition bytes_added {A : Type} (written : list Z) (r : Error * Serializer * A) : list Z :=
  skipn (List.length written) (_saveStream (snd (fst r))).

(** The inventory [inv] as it is after loading: the zoom box flag is not
    part of the saved state and stays as in [old]. *)
Definition inventory_loaded (inv old : Inventory) : Inventory :=
  {| _isOpen := _isOpen inv; _openedFromSceneNum := _openedFromSceneNum inv;
     _showZoomBox := _showZoomBox old;
     _highlightItemNo := _highlightItemNo inv; _itemOffset := _itemOffset inv |}.

(** The dialog [old] as it is after loading what was saved of [d]: flags
    and transient state come from [d], the selected action stays that of
    [old] (none when [old] had no state). *)
Definition dialog_loaded (d old : Dialog) : Dialog :=
  set_state (set_flags old (_flags d))
    match _state d with
    | Some st =>
        Some (set_selectedAction st
                match _state old with
                | Some st0 => _selectedAction st0
                | None => None
                end)
    | None => None
    end.

(** The bytes that [DialogState::syncState] writes. *)
Definition state_bytes (st : DialogState) : list Z :=
  le_encode 4 (_hideTime st)
  ++ le_encode 2 (_lastMouseX st)
  ++ le_encode 2 (_lastMouseY st)
  ++ le_encode 2 (_charWidth st)
  ++ le_encode 2 (_charHeight st)
  ++ le_encode 4 (_strMouseLoc st)
  ++ le_encode 2 (DgdsRect.x (_loc st))
  ++ le_encode 2 (DgdsRect.y (_loc st))
  ++ le_encode 2 (DgdsRect.width (_loc st))
  ++ le_encode 2 (DgdsRect.height (_loc st)).

(** The bytes that [Dialog::syncState] writes. *)
Definition dialog_bytes (d : Dialog) : list Z :=
  le_encode 4 (_flags d)
  ++ match _state d with
     | Some st => le_encode 1 1 ++ state_bytes st
     | None => le_encode 1 0
     end.

(** *** The title of a framed dialog *)

(** The title and the body that [drawType2] takes from the text of the
    dialog: the title is everything before the first colon. *)
Definition type2_text (str : CString) : CString * CString :=
  match find_char ":"%char str with
  | Some colonpos =>
      let title := substr str 0 colonpos in
      let txt := substr str (colonpos + 1) (-1) in
      match txt with
      | c :: _ => if Ascii.eqb c CR then (title, substr txt 1 (-1)) else (title, txt)
      | [] => (title, txt)
      end
  | None => ([], str)
  end.

(** The text holds a colon. *)
Definition has_colon (str : CString) : bool := existsb (Ascii.eqb ":"%char) str.

(* ===================================================================== *)
(** ** The pointer in the inventory: [Inventory::mouseLUp] *)

(** The members of a request gadget that the inventory reads. *)
Module Gadget.
Record t : Type := mk {
  _x : Z;
  _y : Z;
  _parentX : Z;
  _parentY : Z;
  _width : Z;
  _height : Z;
  _xStep : Z;
  _yStep : Z;
  _flags3 : Z
}.
End Gadget.

(** The members of a game item that the inventory reads and writes. *)
Module GameItem.
Record t : Type := mk {
  _num : Z;
  _iconNum : Z;
  _inSceneNum : Z
}.
End GameItem.

(** What the inventory uses of the request data, of the scene directory,
    of the scene and of the clock.  The gadgets are those that
    [setRequestData] has looked up; the three optional ones may be null. *)
Record InventoryUI (Ext : Type) : Type := {
  (** [Gadget::containsPoint] *)
  containsPoint : Gadget.t -> Z * Z -> bool;
  inv_prevPageBtn : Ext -> Gadget.t;
  inv_nextPageBtn : Ext -> Gadget.t;
  inv_exitButton : Ext -> Gadget.t;
  inv_itemArea : Ext -> Gadget.t;
  inv_clockSkipMinBtn : Ext -> option Gadget.t;
  inv_clockSkipHrBtn : Ext -> option Gadget.t;
  inv_dropBtn : Ext -> option Gadget.t;
  (** [getGDSScene()->getGameItems()] *)
  gds_getGameItems : Ext -> list GameItem.t;
  gds_setGameItems : list GameItem.t -> Ext -> Ext;
  (** [getScene()->onDragFinish(pt)] *)
  scene_onDragFinish : Z * Z -> Engine Ext -> Engine Ext;
  (** [getClock().addGameTime(mins)] *)
  clock_addGameTime : Z -> Ext -> Ext
}.
Arguments containsPoint {Ext} i _ _.
Arguments inv_prevPageBtn {Ext} i _.
Arguments inv_nextPageBtn {Ext} i _.
Arguments inv_exitButton {Ext} i _.
Arguments inv_itemArea {Ext} i _.
Arguments inv_clockSkipMinBtn {Ext} i _.
Arguments inv_clockSkipHrBtn {Ext} i _.
Arguments inv_dropBtn {Ext} i _.
Arguments gds_getGameItems {Ext} i _.
Arguments gds_setGameItems {Ext} i _ _.
Arguments scene_onDragFinish {Ext} i _ _.
Arguments clock_addGameTime {Ext} i _ _.

(** [for (auto &item: items) if (item._inSceneNum == 2) numInvItems++;] *)
Fixpoint count_inventory_items (items : list GameItem.t) : Z :=
  match items with
  | [] => 0
  | item :: rest =>
      (if GameItem._inSceneNum item =? 2 then 1 else 0) + count_inventory_items rest
  end.

(** The loop of the drop button: the first item with the highlighted number
    goes to the scene the inventory was opened from. *)
Fixpoint drop_highlighted (items : list GameItem.t) (highlightItemNo openedFrom : Z)
    : list GameItem.t :=
  match items with
  | [] => []
  | item :: rest =>
      if GameItem._num item =? highlightItemNo
      then GameItem.mk (GameItem._num item) (GameItem._iconNum item) openedFrom :: rest
      else item :: drop_highlighted rest highlightItemNo openedFrom
  end.

Definition set_itemOffset (off : Z) (inv : Inventory) : Inventory :=
  {| _isOpen := _isOpen inv; _openedFromSceneNum := _openedFromSceneNum inv;
     _showZoomBox := _showZoomBox inv; _highlightItemNo := _highlightItemNo inv;
     _itemOffset := off |}.

(** The button is visible: [!(btn->_flags3 & 0x40)]. *)
Definition shown (g : Gadget.t) : bool := Z.land (Gadget._flags3 g) 64 =? 0.

Section InventoryPointer.
Context {Ext : Type} (env : Externals Ext) (ui : InventoryUI Ext).

(** [Inventory::mouseLUp].  An integer division by zero ends the program;
    the sum and the difference of page offset and page size are taken to
    fit an [int]. *)
Definition Inventory_mouseLUp (depth : nat) (pt : Z * Z) (r : Run) : Outcome Run :=
  match scene_getDragItem env (ext (fst r)) with
  | Some _ => Done (on_engine (scene_onDragFinish ui pt) r)
  | None =>
      r <- setMouseCursor env 0 r ;;
      let w := ext (fst r) in
      let area := inv_itemArea ui w in
      if (Gadget._xStep area =? 0) || (Gadget._yStep area =? 0)
      then Abort (FatalError "Division by zero")
      else
        let itemsPerPage := cdiv (Gadget._width area) (Gadget._xStep area)
                            * cdiv (Gadget._height area) (Gadget._yStep area) in
        let inv := _inventory (fst r) in
        let on_optional (g : option Gadget.t) : bool :=
          match g with
          | Some g => containsPoint ui g pt
          | None => false
          end in
        if containsPoint ui (inv_exitButton ui w) pt then
          Inventory_close (changeScene env depth) r
        else if containsPoint ui (inv_nextPageBtn ui w) pt && shown (inv_nextPageBtn ui w) then
          let numInvItems := count_inventory_items (gds_getGameItems ui w) in
          if _itemOffset inv <? numInvItems
          then Done (on_engine (set_inventory (set_itemOffset (_itemOffset inv + itemsPerPage)
                                                 inv)) r)
          else Done r
        else if containsPoint ui (inv_prevPageBtn ui w) pt && shown (inv_prevPageBtn ui w) then
          if _itemOffset inv >? 0
          then Done (on_engine (set_inventory (set_itemOffset (_itemOffset inv - itemsPerPage)
                                                 inv)) r)
          else Done r
        else if on_optional (inv_clockSkipMinBtn ui w) then
          Done (on_ext (clock_addGameTime ui 1) r)
        else if on_optional (inv_clockSkipHrBtn ui w) then
          Done (on_ext (clock_addGameTime ui 60) r)
        else if on_optional (inv_dropBtn ui w) && (_highlightItemNo inv >=? 0) then
          Done (on_ext (fun w => gds_setGameItems ui
                                   (drop_highlighted (gds_getGameItems ui w)
                                      (_highlightItemNo inv) (_openedFromSceneNum inv)) w) r)
        else Done r
  end.

End InventoryPointer.

(** *** Notions used in the statements about the inventory *)

(** The number of items that one page of the item area shows. *)
Definition items_per_page (area : Gadget.t) : Z :=
  cdiv (Gadget._width area) (Gadget._xStep area)
  * cdiv (Gadget._height area) (Gadget._yStep area).

(** The page offset lies on the page grid. *)
Definition on_page_grid (area : Gadget.t) (off : Z) : Prop :=
  0 <= off /\ exists page, off = page * items_per_page area.

(** The inventory screen of the examples: an item area of three by two
    cells, a next-page button at (200, 10) and a previous-page button at
    (180, 10); a gadget holds a point when the point is its corner. *)
Definition example_ui (items : list GameItem.t) : InventoryUI ExampleWorld :=
  let at_corner (g : Gadget.t) (pt : Z * Z) :=
    (Gadget._x g =? fst pt) && (Gadget._y g =? snd pt) in
  {| containsPoint := at_corner;
     inv_prevPageBtn := fun _ => Gadget.mk 180 10 0 0 16 16 0 0 0;
     inv_nextPageBtn := fun _ => Gadget.mk 200 10 0 0 16 16 0 0 0;
     inv_exitButton := fun _ => Gadget.mk 220 10 0 0 16 16 0 0 0;
     inv_itemArea := fun _ => Gadget.mk 20 40 0 0 120 80 40 40 0;
     inv_clockSkipMinBtn := fun _ => None;
     inv_clockSkipHrBtn := fun _ => None;
     inv_dropBtn := fun _ => None;
     gds_getGameItems := fun _ => items;
     gds_setGameItems := fun _ w => w;
     scene_onDragFinish := fun _ e => e;
     clock_addGameTime := fun _ w => w |}.

(* ===================================================================== *)
(** * Properties *)

(** ** Frame drawing and the transient state *)

Ltac break_match :=
  match goal with
  | |- context [match ?x with _ => _ end] => destruct x eqn:?
  | H : context [match ?x with _ => _ end] |- _ => destruct x eqn:?
  | H : context [obind ?c _] |- _ => destruct c eqn:?; cbn [obind] in H
  | |- context [obind ?c _] => destruct c eqn:?; cbn [obind]
  end.

Ltac done_inv :=
  repeat match goal with
  | H : Done _ = Done _ |- _ => inversion H; subst; clear H
  | H : Abort _ = Done _ |- _ => discriminate H
  | H : Done _ = Abort _ |- _ => discriminate H
  | H : (_, _) = (_, _) |- _ => inversion H; subst; clear H
  end.

Lemma has_state_set (d : Dialog) (st : DialogState) : has_state (set_state d (Some st)).
Proof. exists st. reflexivity. Qed.

Lemma has_state_with_loc (d : Dialog) (r : DgdsRect) :
  has_state d -> has_state (with_loc d r).
Proof.
  intros [st H]. unfold with_loc. rewrite H. apply has_state_set.
Qed.

Lemma XY_keeps_state (eng : EngineView) (d d' : Dialog) :
  drawFindSelectionXY eng d = Done d' -> has_state d -> has_state d'.
Proof.
  unfold drawFindSelectionXY. intros H [st Hst]. rewrite Hst in H.
  repeat (break_match; cbn [obind] in * ); done_inv;
    try apply has_state_set; try discriminate.
Qed.

Lemma TxtOffset_keeps_state (eng : EngineView) (d : Dialog) :
  has_state d -> has_state (drawFindSelectionTxtOffset eng d).
Proof.
  unfold drawFindSelectionTxtOffset. intros [st Hst]. rewrite Hst.
  repeat break_match; apply has_state_set.
Qed.

Lemma selectionXY_keeps_state eng dst d d' dst' :
  selectionXY eng dst d = Done (d', dst') -> has_state d -> has_state d'.
Proof.
  unfold selectionXY. intros H Hs.
  destruct (drawFindSelectionXY eng d) eqn:E; cbn in H; done_inv.
  eapply XY_keeps_state; eauto.
Qed.

Lemma selectionTxtOffset_keeps_state eng dst d d' dst' :
  selectionTxtOffset eng dst d = Done (d', dst') -> has_state d -> has_state d'.
Proof.
  unfold selectionTxtOffset. intros H Hs. done_inv.
  now apply TxtOffset_keeps_state.
Qed.

Lemma drawType1_keeps_state eng dst stage d d' dst' :
  drawType1 eng dst stage d = Done (d', dst') -> has_state d -> has_state d'.
Proof.
  unfold drawType1. intros H Hs. destruct Hs as [st Hst]. rewrite Hst in H.
  destruct stage.
  - repeat break_match; done_inv. exists st; assumption.
  - eapply selectionXY_keeps_state; eauto. exists st; assumption.
  - eapply selectionTxtOffset_keeps_state; eauto. exists st; assumption.
  - repeat break_match; done_inv. apply has_state_with_loc. exists st; assumption.
Qed.

Lemma drawType2_keeps_state eng dst stage d d' dst' :
  drawType2 eng dst stage d = Done (d', dst') -> has_state d -> has_state d'.
Proof.
  unfold drawType2. intros H Hs. pose proof Hs as [st Hst]. rewrite Hst in H.
  destruct (match find_char ":" (_str d) with Some _ => _ | None => _ end) as [title txt].
  destruct stage.
  - unfold drawType2BackgroundDragon, drawType2BackgroundChina in H. rewrite Hst in H.
    repeat break_match; done_inv; try discriminate;
      apply has_state_with_loc; assumption.
  - eapply selectionXY_keeps_state; eauto.
  - eapply selectionTxtOffset_keeps_state; eauto.
  - repeat break_match; done_inv. assumption.
Qed.

Lemma drawType3_keeps_state eng dst stage d d' dst' :
  drawType3 eng dst stage d = Done (d', dst') -> has_state d -> has_state d'.
Proof.
  unfold drawType3. intros H Hs. pose proof Hs as [st Hst]. rewrite Hst in H.
  destruct stage.
  - repeat break_match; done_inv; try discriminate;
      apply has_state_with_loc; assumption.
  - eapply selectionXY_keeps_state; eauto.
  - eapply selectionTxtOffset_keeps_state; eauto.
  - repeat break_match; done_inv. assumption.
Qed.

Lemma drawType4_keeps_state eng dst stage d d' dst' :
  drawType4 eng dst stage d = Done (d', dst') -> has_state d -> has_state d'.
Proof.
  unfold drawType4. intros H Hs. pose proof Hs as [st Hst]. rewrite Hst in H.
  destruct (if negb (hasFlag d kDlgFlagFlatBg) then _ else _) as [fillcolor fillbgcolor].
  destruct stage.
  - repeat break_match; done_inv. assumption.
  - eapply selectionXY_keeps_state; eauto.
  - eapply selectionTxtOffset_keeps_state; eauto.
  - repeat break_match; done_inv. apply has_state_with_loc. assumption.
Qed.

Lemma draw_leaves_state eng dst stage d d' dst' :
  draw eng dst stage d = Done (d', dst') -> has_state d'.
Proof.
  unfold draw. intros H.
  set (d0 := match _state d with None => set_state d (Some new_DialogState) | Some _ => d end) in *.
  assert (Hs : has_state d0).
  { subst d0. destruct (_state d) as [st|] eqn:E; [exists st; assumption | apply has_state_set]. }
  destruct (_frameType d0); try discriminate.
  - eapply drawType1_keeps_state; eauto.
  - eapply drawType2_keeps_state; eauto.
  - eapply drawType3_keeps_state; eauto.
  - eapply drawType4_keeps_state; eauto.
Qed.

(** C9, as stated, fails: requesting the background stage of a plain
    dialog that has no [DialogState] through [Dialog::draw] creates the
    state and fills two rectangles. *)
Lemma draw_without_state_creates_and_draws :
  _state (example_dialog kDlgFramePlain 0 "Hello" [] None) = None /\
  draw (example_engine (0, 0) 0) (Some []) kDlgDrawStageBackground
       (example_dialog kDlgFramePlain 0 "Hello" [] None)
  = Done (example_dialog kDlgFramePlain 0 "Hello" [] (Some new_DialogState),
          Some [FillRect 10 10 310 70 7; FillRect 11 11 309 69 0]).
Proof. split; reflexivity. Qed.

(** C9, amended: without a [DialogState] each of the four style routines
    and both selection routines is a no-op for every stage (nothing drawn,
    dialog unchanged, state still absent); [Dialog::draw] itself first
    creates a fresh state, runs the stage on it, and never returns a dialog
    without a state. *)
Theorem frame_routines_without_state
    (eng : EngineView) (dst : option ManagedSurface) (stage : DialogDrawStage)
    (d : Dialog) :
  _state d = None ->
  drawType1 eng dst stage d = Done (d, dst) /\
  drawType2 eng dst stage d = Done (d, dst) /\
  drawType3 eng dst stage d = Done (d, dst) /\
  drawType4 eng dst stage d = Done (d, dst) /\
  drawFindSelectionXY eng d = Done d /\
  drawFindSelectionTxtOffset eng d = d /\
  draw eng dst stage d = draw eng dst stage (set_state d (Some new_DialogState)) /\
  (forall d' dst', draw eng dst stage d = Done (d', dst') -> has_state d').
Proof.
  intros H.
  unfold drawType1, drawType2, drawType3, drawType4, drawFindSelectionXY,
    drawFindSelectionTxtOffset.
  rewrite H. repeat split.
  - unfold draw. rewrite H. reflexivity.
  - intros d' dst'. apply draw_leaves_state.
Qed.

Lemma frame_routines_without_state_witness :
  drawType3 (example_engine (0, 0) 0) (Some []) kDlgDrawStageBackground
            (example_dialog kDlgFrameThought 0 "Hello" [] None)
  = Done (example_dialog kDlgFrameThought 0 "Hello" [] None, Some []).
Proof.
  apply (frame_routines_without_state (example_engine (0, 0) 0) (Some [])
           kDlgDrawStageBackground (example_dialog kDlgFrameThought 0 "Hello" [] None)).
  reflexivity.
Defined.

(** ** Selection on a dialog without actions *)

(** C10, as stated, fails: on a dialog that has no [DialogState] the call
    returns before [delta] is added (the index stays 0 for delta 5); and
    when some dialog already owns the selection marker the index restarts
    from zero (index 3, delta 1 gives 1, not 4). *)
Lemma updateSelectedAction_index_not_previous_plus_delta :
  index_after (updateSelectedAction (example_engine (0, 0) 0) 1 0 5 initial_statics
                 (example_dialog kDlgFramePlain 0 "Hello" [] None))
  = Some 0 /\
  index_after (updateSelectedAction (example_engine (0, 0) 0) 1 0 1
                 {| _lastSelectedDialogItemNum := 3;
                    _lastDialogSelectionChangedFor := Some 2 |}
                 (example_dialog kDlgFramePlain 0 "Hello" []
                    (Some (example_state (DgdsRect.mk 13 13 294 54) 0 None))))
  = Some 1.
Proof. split; reflexivity. Qed.

(** C10, amended: on a dialog with an empty action list and an existing
    [DialogState], for every [delta] and with no loop iteration available
    at all, the call completes, the wrap step is skipped, and the shared
    index becomes [delta] added to the index left by the ownership step
    (the previous value if no dialog owned the marker, zero otherwise),
    unwrapped; the dialog is unchanged and the pointer is warped only for
    delta 0. *)
Theorem updateSelectedAction_without_actions
    (eng : EngineView) (this : DialogPtr) (fuel : nat) (delta : Z)
    (w : DialogStatics) (d : Dialog) (st : DialogState) :
  _action d = [] ->
  _state d = Some st ->
  updateSelectedAction eng this fuel delta w d
  = Done ({| _lastSelectedDialogItemNum := index_after_claim w + delta;
             _lastDialogSelectionChangedFor := Some this |},
          d,
          if delta =? 0
          then Some (DgdsRect.x (_loc st) + DgdsRect.width (_loc st),
                     DgdsRect.y (_loc st) + DgdsRect.height (_loc st) - 2)
          else None).
Proof.
  intros Ha Hs. unfold updateSelectedAction, index_after_claim.
  rewrite Hs, Ha. cbn [List.length selected_index size obind].
  destruct (_lastDialogSelectionChangedFor w), (_selectedAction st);
    cbn; rewrite ?Ha; cbn; destruct (delta =? 0); reflexivity.
Qed.

Lemma updateSelectedAction_without_actions_witness :
  index_after (updateSelectedAction (example_engine (0, 0) 0) 1 0 (-3) initial_statics
                 (example_dialog kDlgFramePlain 0 "Hello" []
                    (Some (example_state (DgdsRect.mk 13 13 294 54) 0 None))))
  = Some (-3).
Proof.
  rewrite (updateSelectedAction_without_actions (example_engine (0, 0) 0) 1 0 (-3)
             initial_statics _ (example_state (DgdsRect.mk 13 13 294 54) 0 None));
    reflexivity.
Defined.

(** ** Wrapping the selected index *)

Lemma to_int32_small (z : Z) : INT_MIN <= z <= INT_MAX -> to_int32 z = z.
Proof.
  unfold to_int32, INT_MIN, INT_MAX. intros H.
  rewrite Z.mod_small; lia.
Qed.

Lemma to_uint32_small (z : Z) : 0 <= z < 2 ^ 32 -> to_uint32 z = z.
Proof. unfold to_uint32. intros H. apply Z.mod_small; lia. Qed.

Lemma wrap_negative_spec (fuel : nat) : forall (num n : Z),
  1 <= n < 2 ^ 31 -> INT_MIN <= num <= INT_MAX -> - num <= Z.of_nat fuel ->
  exists v, wrap_negative fuel num n = Some v
            /\ 0 <= v <= INT_MAX /\ v mod n = num mod n /\ (num < 0 -> v < n).
Proof.
  induction fuel as [|fuel IH]; intros num n Hn Hr Hf; cbn [wrap_negative].
  - destruct (Z.ltb_spec num 0); [lia|]. exists num. repeat split; lia.
  - destruct (Z.ltb_spec num 0) as [Hneg|Hpos].
    + assert (Hsum : to_int32 (num + n) = num + n).
      { apply to_int32_small. unfold INT_MIN, INT_MAX in *. lia. }
      rewrite Hsum.
      destruct (IH (num + n) n Hn) as (v & Hv & Hv0 & Hmod & Hlt).
      * unfold INT_MIN, INT_MAX in *. lia.
      * lia.
      * exists v. split; [assumption|]. split; [assumption|]. split.
        -- rewrite Hmod. rewrite <- (Z.mul_1_l n) at 1.
           now rewrite Z.mod_add by lia.
        -- intros _. destruct (Z.ltb_spec (num + n) 0) as [H1|H1]; [now apply Hlt|].
           destruct fuel; cbn [wrap_negative] in Hv;
             (destruct (Z.ltb_spec (num + n) 0); [lia|]); inversion Hv; lia.
    + exists num. repeat split; try lia.
Qed.

Lemma wrap_index_value (fuel : nat) (num n : Z) :
  1 <= n < 2 ^ 31 -> INT_MIN <= num <= INT_MAX -> - num <= Z.of_nat fuel ->
  exists v, wrap_negative fuel num n = Some v
            /\ to_int32 (to_uint32 v mod n) = num mod n.
Proof.
  intros Hn Hr Hf.
  destruct (wrap_negative_spec fuel num n Hn Hr Hf) as (v & Hv & Hv0 & Hmod & _).
  exists v. split; [assumption|].
  unfold INT_MAX in Hv0.
  rewrite to_uint32_small by lia. rewrite Hmod.
  apply to_int32_small. pose proof (Z.mod_pos_bound num n ltac:(lia)).
  unfold INT_MIN, INT_MAX. lia.
Qed.

Lemma selected_index_spec (selected : nat) : forall (remaining i : nat),
  selected_index remaining i selected
  = if (i <=? selected)%nat && (selected <? i + remaining)%nat then Some selected else None.
Proof.
  induction remaining as [|rem IH]; intros i; cbn [selected_index].
  - destruct (Nat.leb_spec i selected), (Nat.ltb_spec selected (i + 0)); cbn; try reflexivity; lia.
  - destruct (Nat.eqb_spec selected i) as [->|Hne].
    + rewrite Nat.leb_refl. destruct (Nat.ltb_spec i (i + S rem)); [reflexivity | lia].
    + rewrite IH.
      destruct (Nat.leb_spec (S i) selected), (Nat.leb_spec i selected),
        (Nat.ltb_spec selected (S i + rem)), (Nat.ltb_spec selected (i + S rem));
        cbn; try reflexivity; lia.
Qed.

(** ** [updateSelectedAction] with actions *)

Lemma size_nonneg {A : Type} (l : list A) : 0 <= size l.
Proof. unfold size. lia. Qed.

Lemma char_at_in_range (s : CString) (i : Z) :
  0 <= i < size s -> exists c, char_at s i = Done c.
Proof.
  intros H. unfold char_at.
  destruct (Z.leb_spec 0 i); [|lia]. destruct (Z.ltb_spec i (size s)); [|lia].
  cbn. destruct (nth_error s (Z.to_nat i)) eqn:E; [eauto|].
  apply nth_error_None in E. unfold size in H. lia.
Qed.

(** The offset-to-position stage completes whenever the text is not empty
    and the offset is not negative; it changes the transient state only. *)
Lemma XY_total (eng : EngineView) (d : Dialog) (st : DialogState) :
  _state d = Some st -> 0 <= _strMouseLoc st -> _str d <> [] ->
  exists st', drawFindSelectionXY eng d = Done (set_state d (Some st'))
              /\ _selectedAction st' = _selectedAction st /\ _loc st' = _loc st.
Proof.
  intros Hs Hoff Hne. unfold drawFindSelectionXY. rewrite Hs.
  assert (Hsz : 0 < size (_str d)).
  { destruct (_str d); [congruence|]. unfold size. cbn. lia. }
  cbn [_strMouseLoc set_charSize set_lastMouse].
  destruct (_strMouseLoc st =? 0); [eexists; split; [reflexivity|split; reflexivity]|].
  destruct (wordWrapText _ _ _) as [lines maxWidth].
  destruct (hasFlag d kDlgFlagLeftJust);
    cbn [_strMouseLoc set_charSize set_lastMouse set_strMouseLoc _charHeight _loc];
    destruct (Z.geb_spec (_strMouseLoc st) (size (_str d)));
    cbn [_strMouseLoc set_charSize set_lastMouse set_strMouseLoc _charHeight _loc];
    destruct (xy_find_line _ _ _ _ _) as [totalchars py];
    destruct (_ <? _);
    try (eexists; split; [reflexivity|split; reflexivity]).
  all: match goal with
       | |- context [char_at ?s ?i] =>
           destruct (char_at_in_range s i ltac:(lia)) as [c Hc]; rewrite Hc
       end; cbn [obind];
       destruct (_ <? _); eexists; split; try reflexivity; split; reflexivity.
Qed.

Lemma draw_XY_stage (eng : EngineView) (dst : option ManagedSurface) (d : Dialog) :
  has_state d -> known_frame d ->
  draw eng dst kDlgDrawFindSelectionPointXY d = selectionXY eng dst d.
Proof.
  intros [st Hs] Hk. unfold draw, known_frame in *. rewrite Hs.
  destruct (_frameType d); try contradiction;
    unfold drawType1, drawType2, drawType3, drawType4; rewrite Hs;
    repeat break_match; reflexivity.
Qed.

Lemma draw_TxtOffset_stage (eng : EngineView) (dst : option ManagedSurface) (d : Dialog) :
  has_state d -> known_frame d ->
  draw eng dst kDlgDrawFindSelectionTxtOffset d = selectionTxtOffset eng dst d.
Proof.
  intros [st Hs] Hk. unfold draw, known_frame in *. rewrite Hs.
  destruct (_frameType d); try contradiction;
    unfold drawType1, drawType2, drawType3, drawType4; rewrite Hs;
    repeat break_match; reflexivity.
Qed.

(** One call on a dialog with actions: the index becomes
    [(start + delta) mod n]. *)
Lemma updateSelectedAction_step
    (eng : EngineView) (this : DialogPtr) (fuel : nat) (delta : Z)
    (w : DialogStatics) (d : Dialog) (st : DialogState) :
  1 <= size (_action d) < 2 ^ 31 ->
  _state d = Some st ->
  known_frame d -> _str d <> [] -> Forall (fun a => 0 <= strStart a) (_action d) ->
  INT_MIN <= start_index w d st + delta <= INT_MAX ->
  - (start_index w d st + delta) <= Z.of_nat fuel ->
  exists st' m,
    updateSelectedAction eng this fuel delta w d
    = Done ({| _lastSelectedDialogItemNum := (start_index w d st + delta) mod size (_action d);
               _lastDialogSelectionChangedFor := Some this |},
            set_state d (Some st'), m)
    /\ _selectedAction st' = _selectedAction st /\ _loc st' = _loc st.
Proof.
  intros Hn Hs Hk Hne Hstart Hr Hf.
  unfold updateSelectedAction. rewrite Hs.
  set (w1 := match _lastDialogSelectionChangedFor w with None => _ | Some _ => _ end).
  assert (Hw1 : _lastSelectedDialogItemNum w1 = index_after_claim w).
  { subst w1. unfold index_after_claim. destruct (_lastDialogSelectionChangedFor w); reflexivity. }
  set (num0 := match _selectedAction st with Some _ => _ | None => _ end).
  assert (Hnum0 : num0 = start_index w d st).
  { subst num0. unfold start_index. destruct (_selectedAction st) as [s|]; [|assumption].
    rewrite selected_index_spec. cbn [Nat.leb andb Nat.add].
    destruct (s <? List.length (_action d))%nat; [reflexivity | assumption]. }
  rewrite Hnum0. clear num0 Hnum0.
  set (num := start_index w d st + delta) in *.
  destruct (wrap_index_value fuel num (size (_action d)) Hn Hr Hf) as (v & Hv & Hval).
  destruct (_action d) as [|a0 rest] eqn:Ha; [unfold size in Hn; cbn in Hn; lia|].
  rewrite <- Ha in *. rewrite Hv. cbn [obind]. rewrite Hval.
  pose proof (Z.mod_pos_bound num (size (_action d)) ltac:(lia)) as Hb.
  set (idx := num mod size (_action d)) in *.
  destruct (Z.gtb_spec (size (_action d)) 1) as [Hmany|Hone]; cbn [orb].
  - destruct (Z.leb_spec 0 idx); [|lia].
    destruct (nth_error (_action d) (Z.to_nat idx)) as [action|] eqn:Hnth.
    2:{ apply nth_error_None in Hnth. unfold size in Hb. lia. }
    assert (Hact : 0 <= strStart action).
    { rewrite Forall_forall in Hstart. apply Hstart. eapply nth_error_In; eauto. }
    set (d1 := set_state d (Some (set_strMouseLoc st (strStart action)))).
    rewrite (draw_XY_stage eng None d1) by first [apply has_state_set | exact Hk].
    unfold selectionXY.
    destruct (XY_total eng d1 (set_strMouseLoc st (strStart action)) eq_refl Hact Hne)
      as (st' & HXY & Hsel & Hloc).
    rewrite HXY. subst d1. cbn [obind _state set_state _action].
    destruct (Z.gtb_spec (size (_action d)) 1); [|lia]. cbn [orb].
    exists st'. eexists. split; [reflexivity|]. split; assumption.
  - cbn [obind]. destruct (Z.gtb_spec (size (_action d)) 1); [lia|]. cbn [orb].
    exists st.
    replace (set_state d (Some st)) with d
      by (destruct d; cbn in *; subst; reflexivity).
    destruct (delta =? 0); eexists; (split; [reflexivity | split; reflexivity]).
Qed.

(** C6, as stated, fails: from the unselected state (shared index 0, no
    owner of the selection marker, no selected action) the first
    [updateSelectedAction(1)] leaves the shared index at 1, not 0. *)
Lemma first_advance_selects_second_action :
  index_after (updateSelectedAction (example_engine (0, 0) 0) 1 0 1 initial_statics
                 (direction_dialog None))
  = Some 1 /\
  index_after (updateSelectedAction (example_engine (0, 0) 0) 1 0 1 initial_statics
                 (direction_dialog None))
  <> Some 0.
Proof. split; [reflexivity | discriminate]. Qed.

(** C6, amended: on the two-action dialog, from the unselected state, the
    first [advance(1)] selects index 1, the second wraps to index 0 and the
    third selects index 1 again, the action reported by a call being the
    selected one at the next; the same holds whatever number of loop
    iterations is allowed. *)
Theorem direction_scenario (this : DialogPtr) (fuel : nat) :
  index_of (advance_n 1 (example_engine (0, 0) 0) this fuel 1 initial_statics
              (direction_dialog None)) = Some 1 /\
  index_of (advance_n 2 (example_engine (0, 0) 0) this fuel 1 initial_statics
              (direction_dialog None)) = Some 0 /\
  index_of (advance_n 3 (example_engine (0, 0) 0) this fuel 1 initial_statics
              (direction_dialog None)) = Some 1.
Proof.
  destruct fuel; repeat split; vm_compute; reflexivity.
Qed.

(** C5, as stated, fails: two calls in a row with delta 1 on the
    two-action dialog leave the shared index at 1 although it started at 0,
    both from the unselected state and with action 0 selected: every call
    after the first starts again from the selected action, or from zero. *)
Lemma two_updates_do_not_return :
  _lastSelectedDialogItemNum initial_statics = 0 /\
  index_of (update_n 2 (example_engine (0, 0) 0) 1 0 1 initial_statics
              (direction_dialog None)) = Some 1 /\
  index_of (update_n 2 (example_engine (0, 0) 0) 1 0 1 initial_statics
              (direction_dialog (Some 0%nat))) = Some 1.
Proof. repeat split. Qed.

Lemma advance_step
    (eng : EngineView) (this : DialogPtr) (fuel : nat) (delta : Z)
    (w : DialogStatics) (d : Dialog) (st : DialogState) (s : nat) :
  1 <= size (_action d) < 2 ^ 31 ->
  _state d = Some st -> _selectedAction st = Some s -> Z.of_nat s < size (_action d) ->
  known_frame d -> _str d <> [] -> Forall (fun a => 0 <= strStart a) (_action d) ->
  INT_MIN <= delta -> delta + size (_action d) <= INT_MAX + 1 ->
  - delta <= Z.of_nat fuel ->
  exists st1 m,
    updateSelectedAction eng this fuel delta w d
    = Done ({| _lastSelectedDialogItemNum := (Z.of_nat s + delta) mod size (_action d);
               _lastDialogSelectionChangedFor := Some this |},
            set_state d (Some st1), m)
    /\ _selectedAction st1 = Some s.
Proof.
  intros Hn Hs Hsel Hlt Hk Hne Hst Hd1 Hd2 Hf.
  assert (Hstart : start_index w d st = Z.of_nat s).
  { unfold start_index. rewrite Hsel.
    destruct (Nat.ltb_spec s (List.length (_action d))); [reflexivity|].
    unfold size in Hlt. lia. }
  destruct (updateSelectedAction_step eng this fuel delta w d st Hn Hs Hk Hne Hst)
    as (st1 & m & Heq & Hsel1 & _).
  - rewrite Hstart. unfold INT_MIN, INT_MAX in *. lia.
  - rewrite Hstart. lia.
  - exists st1, m. rewrite Hstart in Heq. split; [exact Heq | congruence].
Qed.

Lemma advance_n_index
    (eng : EngineView) (this : DialogPtr) (fuel : nat) (delta : Z) (k : nat) :
  forall (w : DialogStatics) (d : Dialog) (st : DialogState) (s : nat),
  1 <= size (_action d) < 2 ^ 31 ->
  _state d = Some st -> _selectedAction st = Some s -> Z.of_nat s < size (_action d) ->
  known_frame d -> _str d <> [] -> Forall (fun a => 0 <= strStart a) (_action d) ->
  INT_MIN <= delta -> delta + size (_action d) <= INT_MAX + 1 ->
  - delta <= Z.of_nat fuel ->
  exists w' d',
    advance_n (S k) eng this fuel delta w d = Done (w', d')
    /\ _lastSelectedDialogItemNum w'
       = (Z.of_nat s + Z.of_nat (S k) * delta) mod size (_action d)
    /\ selected_of d' = Some (Z.to_nat (_lastSelectedDialogItemNum w')).
Proof.
  induction k as [|k IH]; intros w d st s Hn Hs Hsel Hlt Hk Hne Hst Hd1 Hd2 Hf.
  - destruct (advance_step eng this fuel delta w d st s) as (st1 & m & Heq & Hsel1);
      try assumption.
    cbn [advance_n]. unfold advance. rewrite Heq. cbn [obind].
    eexists; eexists. split; [reflexivity|]. split.
    + cbn [_lastSelectedDialogItemNum]. f_equal. lia.
    + reflexivity.
  - destruct (advance_step eng this fuel delta w d st s) as (st1 & m & Heq & Hsel1);
      try assumption.
    change (advance_n (S (S k)) eng this fuel delta w d)
      with ('(w, d) <- advance eng this fuel delta w d ;;
            advance_n (S k) eng this fuel delta w d).
    unfold advance at 1. rewrite Heq. cbn [obind].
    set (i1 := (Z.of_nat s + delta) mod size (_action d)).
    pose proof (Z.mod_pos_bound (Z.of_nat s + delta) (size (_action d)) ltac:(lia)) as Hb.
    fold i1 in Hb.
    unfold select_reported. cbn [_state set_state _lastSelectedDialogItemNum].
    match goal with
    | |- context [advance_n (S k) eng this fuel delta ?w1 ?d1] =>
        destruct (IH w1 d1 (set_selectedAction st1 (Some (Z.to_nat i1))) (Z.to_nat i1))
          as (w' & d' & Hrun & Hidx & Hseld);
          try assumption; try reflexivity
    end.
    + cbn [_action set_state]. rewrite Z2Nat.id by lia. lia.
    + exists w', d'. split; [exact Hrun|]. split; [|exact Hseld].
      rewrite Hidx. cbn [_action set_state]. rewrite Z2Nat.id by lia.
      subst i1. rewrite Z.add_mod_idemp_l by lia. f_equal. lia.
Qed.

(** C5, amended: on a dialog with [n >= 1] actions, an existing
    [DialogState] and action [s] selected (of a known frame type, with a
    non-empty text, spans that start at non-negative offsets and [delta],
    [delta + n] within [int]), every call of [updateSelectedAction] sets
    the shared index to [(s + delta) mod n] (delta is added, negatives are
    brought into range by adding [n] repeatedly, then the remainder is
    taken); and when the action reported by each call is the selected one
    at the next, [n] calls with the same delta return the index to [s]. *)
Theorem advance_n_times_returns
    (eng : EngineView) (this : DialogPtr) (fuel : nat) (delta : Z)
    (w : DialogStatics) (d : Dialog) (st : DialogState) (s : nat) :
  1 <= size (_action d) < 2 ^ 31 ->
  _state d = Some st -> _selectedAction st = Some s -> Z.of_nat s < size (_action d) ->
  known_frame d -> _str d <> [] -> Forall (fun a => 0 <= strStart a) (_action d) ->
  INT_MIN <= delta -> delta + size (_action d) <= INT_MAX + 1 ->
  - delta <= Z.of_nat fuel ->
  (exists st1 m,
     updateSelectedAction eng this fuel delta w d
     = Done ({| _lastSelectedDialogItemNum := (Z.of_nat s + delta) mod size (_action d);
                _lastDialogSelectionChangedFor := Some this |},
             set_state d (Some st1), m)) /\
  (exists w' d',
     advance_n (List.length (_action d)) eng this fuel delta w d = Done (w', d')
     /\ _lastSelectedDialogItemNum w' = Z.of_nat s
     /\ selected_of d' = Some s).
Proof.
  intros Hn Hs Hsel Hlt Hk Hne Hst Hd1 Hd2 Hf. split.
  - destruct (advance_step eng this fuel delta w d st s) as (st1 & m & Heq & _);
      try assumption.
    exists st1, m. exact Heq.
  - destruct (List.length (_action d)) as [|k] eqn:Hlen.
    { unfold size in Hn. rewrite Hlen in Hn. cbn in Hn. lia. }
    destruct (advance_n_index eng this fuel delta k w d st s) as (w' & d' & Hrun & Hidx & Hseld);
      try assumption.
    assert (Hret : _lastSelectedDialogItemNum w' = Z.of_nat s).
    { rewrite Hidx. unfold size in *. rewrite Hlen in *.
      rewrite (Z.mul_comm (Z.of_nat (S k)) delta).
      rewrite Z.mod_add by lia. apply Z.mod_small. lia. }
    exists w', d'. split; [exact Hrun|]. split; [exact Hret|].
    rewrite Hseld, Hret. now rewrite Nat2Z.id.
Qed.

Lemma advance_n_times_returns_witness :
  exists w' d',
    advance_n 2 (example_engine (0, 0) 0) 1 1 (-1) initial_statics
              (direction_dialog (Some 1%nat)) = Done (w', d')
    /\ _lastSelectedDialogItemNum w' = 1
    /\ selected_of d' = Some 1%nat.
Proof.
  apply (advance_n_times_returns (example_engine (0, 0) 0) 1 1 (-1) initial_statics
           (direction_dialog (Some 1%nat))
           (example_state (DgdsRect.mk 13 13 294 54) 0 (Some 1%nat)) 1%nat).
  - vm_compute. split; [discriminate | reflexivity].
  - reflexivity.
  - reflexivity.
  - vm_compute. reflexivity.
  - exact I.
  - discriminate.
  - repeat constructor; vm_compute; discriminate.
  - vm_compute. discriminate.
  - vm_compute. discriminate.
  - vm_compute. discriminate.
Defined.

(** ** Screen position to offset *)

Lemma wrappedLineOffsets_from_length (lines : list CString) : forall off,
  List.length (wrappedLineOffsets_from off lines) = List.length lines.
Proof. induction lines as [|l rest IH]; intros off; cbn; [reflexivity | now rewrite IH]. Qed.

Lemma wrappedLineOffsets_from_nth (lines : list CString) : forall off k,
  (k < List.length lines)%nat ->
  nth k (wrappedLineOffsets_from off lines) 0 = off + line_offset lines k.
Proof.
  unfold line_offset.
  induction lines as [|l rest IH]; intros off k Hk; cbn in Hk; [lia|].
  destruct k as [|k]; cbn [wrappedLineOffsets_from nth firstn chars_consumed]; [lia|].
  rewrite IH by lia. lia.
Qed.

Lemma wrappedLineOffsets_nth (s : CString) (lines : list CString) (k : nat) :
  (k <= List.length lines)%nat ->
  nth k (_wrappedLineOffsets s lines) 0
  = if (k <? List.length lines)%nat then line_offset lines k else size s.
Proof.
  intros Hk. unfold _wrappedLineOffsets.
  destruct (Nat.ltb_spec k (List.length lines)).
  - rewrite app_nth1 by (rewrite wrappedLineOffsets_from_length; lia).
    rewrite wrappedLineOffsets_from_nth by lia. lia.
  - rewrite app_nth2 by (rewrite wrappedLineOffsets_from_length; lia).
    rewrite wrappedLineOffsets_from_length.
    replace (k - List.length lines)%nat with 0%nat by lia. reflexivity.
Qed.

(** The first loop stops at the located line. *)
Lemma txt_skip_lines_spec (lineOffs : list Z) (lineHeight ypos : Z) :
  forall (remaining lineno : nat) (totalchars dlgy : Z),
  exists k,
    txt_skip_lines remaining lineOffs lineHeight ypos lineno totalchars dlgy
    = (k, (if (k =? lineno)%nat then totalchars else nth k lineOffs 0),
       dlgy + Z.of_nat (k - lineno) * lineHeight)
    /\ (lineno <= k <= lineno + remaining)%nat
    /\ (forall i, (lineno <= i < k)%nat ->
                  dlgy + (Z.of_nat (i - lineno) + 1) * lineHeight < ypos)
    /\ (k = (lineno + remaining)%nat
        \/ ypos <= dlgy + (Z.of_nat (k - lineno) + 1) * lineHeight).
Proof.
  induction remaining as [|rem IH]; intros lineno totalchars dlgy; cbn [txt_skip_lines].
  - exists lineno. rewrite Nat.eqb_refl, Nat.sub_diag.
    split; [f_equal; lia|]. split; [lia|]. split; [intros i Hi; lia | left; lia].
  - destruct (Z.ltb_spec (dlgy + lineHeight) ypos) as [Hlt|Hge].
    + destruct (IH (S lineno) (nth (S lineno) lineOffs 0) (dlgy + lineHeight))
        as (k & Heq & Hk & Hbefore & Hstop).
      exists k. rewrite Heq. split; [|split; [lia|split]].
      * assert (Hkl : (k =? lineno)%nat = false) by (apply Nat.eqb_neq; lia).
        rewrite Hkl.
        replace (Z.of_nat (k - lineno)) with (Z.of_nat (k - S lineno) + 1) by lia.
        destruct (Nat.eqb_spec k (S lineno)) as [E|E]; [rewrite <- E|]; f_equal; lia.
      * intros i Hi. destruct (Nat.eq_dec i lineno) as [->|Hne].
        -- rewrite Nat.sub_diag. lia.
        -- specialize (Hbefore i ltac:(lia)).
           replace (Z.of_nat (i - lineno)) with (Z.of_nat (i - S lineno) + 1) by lia.
           lia.
      * destruct Hstop as [->|Hstop]; [left; lia|right].
        replace (Z.of_nat (k - lineno)) with (Z.of_nat (k - S lineno) + 1) by lia.
        lia.
    + exists lineno. rewrite Nat.eqb_refl, Nat.sub_diag.
      split; [f_equal; lia|]. split; [lia|]. split; [intros i Hi; lia | right; lia].
Qed.

(** The scan of one line finds the first glyph that reaches the target. *)
Lemma txt_scan_line_spec (font : DgdsFont) (xpos : Z) (line : CString) :
  forall (charno dlgx : Z),
  match txt_scan_line font line xpos charno dlgx with
  | Some r =>
      exists c, r = charno + Z.of_nat c /\ (c < List.length line)%nat
                /\ reaches font dlgx xpos line c
                /\ (forall c', (c' < c)%nat -> ~ reaches font dlgx xpos line c')
  | None => forall c, (c < List.length line)%nat -> ~ reaches font dlgx xpos line c
  end.
Proof.
  unfold reaches.
  induction line as [|ch rest IH]; intros charno dlgx; cbn [txt_scan_line].
  - intros c Hc. cbn in Hc. lia.
  - destruct (Z.leb_spec xpos (dlgx + getCharWidth font (char_as_uint32 ch))) as [Hle|Hgt].
    + exists 0%nat. split; [lia|]. split; [cbn; lia|]. split.
      * cbn [firstn glyphs_width]. lia.
      * intros c' Hc'. lia.
    + specialize (IH (charno + 1) (dlgx + getCharWidth font (char_as_uint32 ch))).
      destruct (txt_scan_line font rest xpos (charno + 1)
                  (dlgx + getCharWidth font (char_as_uint32 ch))) as [r|].
      * destruct IH as (c & Hr & Hc & Hreach & Hmin).
        exists (S c). split; [lia|]. split; [cbn; lia|]. split.
        -- cbn [firstn glyphs_width] in *. lia.
        -- intros c' Hc'. destruct c' as [|c'].
           ++ cbn [firstn glyphs_width]. lia.
           ++ specialize (Hmin c' ltac:(lia)). cbn [firstn glyphs_width] in *. lia.
      * intros c Hc. destruct c as [|c].
        -- cbn [firstn glyphs_width]. lia.
        -- specialize (IH c ltac:(cbn in Hc; lia)). cbn [firstn glyphs_width] in *. lia.
Qed.

(** The scan of the lines from the located one on. *)
Lemma txt_scan_lines_spec (font : DgdsFont) (xpos startx : Z) (ls : list CString) :
  forall (totalchars : Z),
  match txt_scan_lines font ls xpos startx totalchars with
  | Some r =>
      exists j c, r = totalchars + line_offset ls j + Z.of_nat c
                  /\ first_reached font ls startx xpos 0 j c
  | None => none_reached font ls startx xpos 0
  end.
Proof.
  unfold line_offset, first_reached, none_reached.
  induction ls as [|line rest IH]; intros totalchars; cbn [txt_scan_lines].
  - intros j c Hj. cbn in Hj. lia.
  - pose proof (txt_scan_line_spec font xpos line 0 startx) as Hline.
    destruct (txt_scan_line font line xpos 0 startx) as [charno|].
    + destruct Hline as (c & Hr & Hc & Hreach & Hmin).
      exists 0%nat, c. split; [cbn; lia|].
      cbn [nth List.length].
      split; [lia|]. split; [assumption|]. split; [assumption|]. split; [assumption|].
      intros j' c' Hj'. lia.
    + specialize (IH (totalchars + size line + 1)).
      destruct (txt_scan_lines font rest xpos startx (totalchars + size line + 1)) as [r|].
      * destruct IH as (j & c & Hr & Hj & Hc & Hreach & Hmin & Hprev).
        exists (S j), c. split; [cbn [firstn chars_consumed]; lia|].
        cbn [nth List.length].
        split; [lia|]. split; [assumption|]. split; [assumption|]. split; [assumption|].
        intros j' c' Hj' Hc'. destruct j' as [|j'].
        -- cbn [nth] in *. apply Hline. assumption.
        -- cbn [nth] in *. apply Hprev; [lia | assumption].
      * intros j c Hj Hc. destruct j as [|j]; cbn [nth List.length] in *.
        -- apply Hline. assumption.
        -- apply IH; [lia | assumption].
Qed.

Lemma nth_skipn_add {A : Type} (dflt : A) (l : list A) : forall k j,
  nth j (skipn k l) dflt = nth (k + j) l dflt.
Proof.
  induction l as [|a l IH]; intros k j.
  - rewrite skipn_nil. destruct j, k; reflexivity.
  - destruct k; [reflexivity|]. cbn [skipn Nat.add nth]. apply IH.
Qed.

Lemma length_skipn_sub {A : Type} (l : list A) : forall k,
  List.length (skipn k l) = (List.length l - k)%nat.
Proof.
  induction l as [|a l IH]; intros k.
  - rewrite skipn_nil. reflexivity.
  - destruct k; [reflexivity|]. cbn [skipn List.length Nat.sub]. apply IH.
Qed.

Lemma line_offset_skipn (lines : list CString) : forall k j,
  line_offset lines (k + j) = line_offset lines k + line_offset (skipn k lines) j.
Proof.
  unfold line_offset.
  induction lines as [|l rest IH]; intros k j.
  - rewrite skipn_nil, !firstn_nil. reflexivity.
  - destruct k; [cbn; lia|].
    cbn [Nat.add firstn skipn chars_consumed]. rewrite IH. lia.
Qed.

(** C8, amended: [drawFindSelectionTxtOffset] walks the wrapped lines while
    the bottom edge of the line is above the stored pointer height; from the
    located line on it accumulates glyph widths (each the answer of
    [getCharWidth] for the plain [char] converted to [uint32]), line after
    line and each line again from the left edge, until the cumulative width
    meets or exceeds the stored pointer x; it stores the offset of that
    glyph as an index into the unwrapped string, and the length of the
    string when no glyph of the located line or of a later line is
    reached. *)
Theorem TxtOffset_resolves (eng : EngineView) (d : Dialog) (st : DialogState) :
  _state d = Some st ->
  let font := getDlgTextFont eng d in
  let lines := fst (wordWrapText font (_str d) (DgdsRect.width (_loc st))) in
  let maxWidth := snd (wordWrapText font (_str d) (DgdsRect.width (_loc st))) in
  let left := fst (text_origin d st font lines maxWidth) in
  let top := snd (text_origin d st font lines maxWidth) in
  exists k,
    located_line (List.length lines) top (getFontHeight font) (_lastMouseY st) k
    /\ ((exists j c,
           first_reached font lines left (_lastMouseX st) k j c
           /\ drawFindSelectionTxtOffset eng d
              = set_state d (Some (set_strMouseLoc st (line_offset lines j + Z.of_nat c))))
        \/ (none_reached font lines left (_lastMouseX st) k
            /\ drawFindSelectionTxtOffset eng d
               = set_state d (Some (set_strMouseLoc st (size (_str d)))))).
Proof.
  intros Hs font lines maxWidth left top.
  unfold drawFindSelectionTxtOffset. rewrite Hs. fold font.
  subst left top. unfold text_origin. subst lines maxWidth.
  destruct (wordWrapText font (_str d) (DgdsRect.width (_loc st))) as [lines maxWidth].
  cbn [fst snd]. fold font.
  set (origin := if hasFlag d kDlgFlagLeftJust then _ else _).
  destruct origin as [left top] eqn:Ho. cbn [fst snd].
  destruct (txt_skip_lines_spec (_wrappedLineOffsets (_str d) lines) (getFontHeight font)
              (_lastMouseY st) (List.length lines) 0 0 top)
    as (k & Heq & Hk & Hbefore & Hstop).
  rewrite Heq. exists k. split.
  - split; [lia|]. split.
    + intros i Hi. specialize (Hbefore i ltac:(lia)). now rewrite Nat.sub_0_r in Hbefore.
    + rewrite Nat.sub_0_r in Hstop. destruct Hstop; [left; lia | right; assumption].
  - set (totalchars := if (k =? 0)%nat then 0 else _).
    pose proof (txt_scan_lines_spec font (_lastMouseX st) left (skipn k lines) totalchars)
      as Hscan.
    destruct (txt_scan_lines font (skipn k lines) (_lastMouseX st) left totalchars) as [r|].
    + left. destruct Hscan as (j & c & Hr & Hj & Hc & Hreach & Hmin & Hprev).
      rewrite length_skipn_sub in Hj.
      assert (Htot : totalchars = line_offset lines k).
      { subst totalchars. destruct (Nat.eqb_spec k 0) as [E|E]; [rewrite E; reflexivity|].
        rewrite wrappedLineOffsets_nth by lia.
        destruct (Nat.ltb_spec k (List.length lines)); [reflexivity | lia]. }
      exists (k + j)%nat, c. split.
      * rewrite nth_skipn_add in Hc, Hreach, Hmin.
        split; [lia|]. split; [assumption|]. split; [assumption|]. split; [assumption|].
        intros j' c' Hj' Hc'.
        specialize (Hprev (j' - k)%nat c').
        rewrite nth_skipn_add in Hprev.
        replace (k + (j' - k))%nat with j' in Hprev by lia.
        apply Hprev; [lia | assumption].
      * rewrite Hr, Htot, line_offset_skipn. reflexivity.
    + right. split; [|reflexivity].
      intros j c Hj Hc.
      specialize (Hscan (j - k)%nat c).
      rewrite length_skipn_sub, nth_skipn_add in Hscan.
      replace (k + (j - k))%nat with j in Hscan by lia.
      apply Hscan; [lia | assumption].
Qed.

(** C8, as stated, fails: with the pointer on the first line (whose bottom
    edge, 21, is not above the pointer height 15) and to the right of its
    only glyph, no character of the located line matches; the call does not
    return the string length 6 but goes on to the second line and returns
    offset 4. *)
Lemma TxtOffset_continues_on_later_lines :
  fst (wordWrapText (fixed_font 8 8) (_str (two_line_dialog 33 15 0)) 294)
  = [cstr "a"; cstr "bbbb"] /\
  located_line 2 13 8 15 0 /\
  (forall c, (c < 1)%nat -> ~ reaches (fixed_font 8 8) 13 33 (cstr "a") c) /\
  size (_str (two_line_dialog 33 15 0)) = 6 /\
  offset_of (drawFindSelectionTxtOffset (example_engine (0, 0) 0) (two_line_dialog 33 15 0))
  = Some 4.
Proof.
  split; [reflexivity|]. split.
  - unfold located_line. split; [lia|]. split; [intros i Hi; lia | right; lia].
  - split; [|split; reflexivity].
    intros c Hc. assert (c = 0%nat) as -> by lia. unfold reaches. cbn. lia.
Qed.

Lemma TxtOffset_resolves_witness :
  exists k j c,
    first_reached (fixed_font 8 8) [cstr "a"; cstr "bbbb"] 13 33 k j c
    /\ drawFindSelectionTxtOffset (example_engine (0, 0) 0) (two_line_dialog 33 15 0)
       = set_state (two_line_dialog 33 15 0)
           (Some (set_strMouseLoc
                    (set_lastMouse (example_state (DgdsRect.mk 13 13 294 54) 0 None) 33 15)
                    (line_offset [cstr "a"; cstr "bbbb"] j + Z.of_nat c))).
Proof.
  destruct (TxtOffset_resolves (example_engine (0, 0) 0) (two_line_dialog 33 15 0)
              (set_lastMouse (example_state (DgdsRect.mk 13 13 294 54) 0 None) 33 15)
              eq_refl)
    as (k & _ & [(j & c & Hfirst & Heq) | (_ & Heq)]).
  - exists k, j, c. split; [exact Hfirst | exact Heq].
  - vm_compute in Heq. discriminate Heq.
Defined.

(** ** Offset to screen position and back *)

Lemma chars_consumed_nonneg (lines : list CString) : 0 <= chars_consumed lines.
Proof.
  induction lines as [|l rest IH]; cbn [chars_consumed]; [lia|].
  pose proof (size_nonneg l). lia.
Qed.

Lemma line_offset_nonneg (lines : list CString) (k : nat) : 0 <= line_offset lines k.
Proof. apply chars_consumed_nonneg. Qed.

Lemma line_offset_S (l : CString) (rest : list CString) (k : nat) :
  line_offset (l :: rest) (S k) = size l + 1 + line_offset rest k.
Proof. reflexivity. Qed.

Lemma line_offset_ge (lines : list CString) : forall k,
  (k <= List.length lines)%nat -> Z.of_nat k <= line_offset lines k.
Proof.
  induction lines as [|l rest IH]; intros k Hk.
  - cbn in Hk. assert (k = 0%nat) as -> by lia. cbn. lia.
  - destruct k; [cbn; lia|]. rewrite line_offset_S.
    specialize (IH k ltac:(cbn in Hk; lia)). pose proof (size_nonneg l). lia.
Qed.

(** The first loop of [drawFindSelectionXY] stops at the line that holds
    the offset. *)
Lemma xy_find_line_at (o charHeight : Z) (lines : list CString) :
  forall (k : nat) (c totalchars py : Z),
  (k < List.length lines)%nat -> 0 <= c <= size (nth k lines []) ->
  o = totalchars + line_offset lines k + c ->
  xy_find_line lines o charHeight totalchars py
  = (totalchars + line_offset lines k, py + Z.of_nat k * charHeight).
Proof.
  induction lines as [|l rest IH]; intros k c totalchars py Hk Hc Ho; cbn in Hk; [lia|].
  cbn [xy_find_line]. destruct k as [|k].
  - cbn [nth] in Hc. change (line_offset (l :: rest) 0) with 0 in *.
    destruct (Z.gtb_spec (totalchars + size l + 1) o); [|lia].
    f_equal; lia.
  - rewrite line_offset_S in *. cbn [nth] in Hc.
    pose proof (line_offset_nonneg rest k).
    destruct (Z.gtb_spec (totalchars + size l + 1) o); [lia|].
    rewrite (IH k c) by lia. f_equal; lia.
Qed.

Lemma lines_of_nth (lines : list CString) : forall (str : CString) (k : nat),
  lines_of str lines -> (k < List.length lines)%nat ->
  firstn (List.length (nth k lines []))
         (skipn (Z.to_nat (line_offset lines k)) str) = nth k lines []
  /\ (nth k lines [] <> [] -> line_offset lines k + size (nth k lines []) <= size str).
Proof.
  induction lines as [|l rest IH]; intros str k Hl Hk; cbn in Hk; [lia|].
  destruct Hl as [Hfirst Hrest]. destruct k as [|k].
  - cbn [nth]. change (line_offset (l :: rest) 0) with 0. cbn [Z.to_nat skipn].
    split; [assumption|]. intros _.
    unfold size. rewrite <- Hfirst at 1. rewrite length_firstn. lia.
  - cbn [nth]. rewrite line_offset_S.
    destruct (IH (skipn (S (List.length l)) str) k Hrest ltac:(lia)) as [Hn Hsz].
    pose proof (line_offset_nonneg rest k).
    replace (Z.to_nat (size l + 1 + line_offset rest k))
      with (Z.to_nat (line_offset rest k) + S (List.length l))%nat
      by (unfold size; lia).
    rewrite <- skipn_skipn. split; [assumption|].
    intros Hne. specialize (Hsz Hne).
    assert (0 < size (nth k rest [])).
    { destruct (nth k rest []); [congruence|]. unfold size. cbn. lia. }
    unfold size in *. rewrite length_skipn in Hsz. lia.
Qed.

Lemma substr_inside (s : CString) (pos len : Z) :
  0 <= pos -> 0 <= len -> pos + len < size s ->
  substr s pos len = firstn (Z.to_nat len) (skipn (Z.to_nat pos) s).
Proof.
  intros Hp Hl Hs. unfold substr.
  destruct (Z.ltb_spec pos 0); [lia|]. destruct (Z.leb_spec (size s) pos); [lia|].
  cbn [orb]. destruct (Z.ltb_spec len 0); [lia|].
  rewrite Z.min_r by lia. reflexivity.
Qed.

(** The text before column [c] of line [k], cut from the unwrapped string. *)
Lemma substr_line_prefix (str : CString) (lines : list CString) (k c : nat) :
  lines_of str lines -> (k < List.length lines)%nat ->
  (c < List.length (nth k lines []))%nat ->
  substr str (line_offset lines k) (Z.of_nat c) = firstn c (nth k lines []).
Proof.
  intros Hl Hk Hc. destruct (lines_of_nth lines str k Hl Hk) as [Hn Hsz].
  specialize (Hsz ltac:(destruct (nth k lines []); [cbn in Hc; lia | discriminate])).
  rewrite substr_inside.
  - rewrite Nat2Z.id. rewrite <- Hn at 1. rewrite firstn_firstn.
    now rewrite Nat.min_l by lia.
  - apply line_offset_nonneg.
  - lia.
  - unfold size in *. lia.
Qed.

Lemma glyphs_width_pos (font : DgdsFont) :
  (forall ch, 0 < getCharWidth font ch) ->
  forall (s : CString), s <> [] -> 0 < glyphs_width font s.
Proof.
  intros Hpos s. induction s as [|a s IH]; intros Hne; [congruence|].
  cbn [glyphs_width]. pose proof (Hpos (char_as_uint32 a)).
  destruct s as [|b s]; [cbn; lia|]. specialize (IH ltac:(discriminate)). lia.
Qed.

(** Scanning a line for the position of its column [c]: column 0 is found
    again, any later column resolves to the glyph before it. *)
Lemma txt_scan_line_at (font : DgdsFont) :
  (forall ch, 0 < getCharWidth font ch) ->
  forall (line : CString) (c : nat) (charno dlgx : Z),
  (c < List.length line)%nat ->
  txt_scan_line font line (dlgx + glyphs_width font (firstn c line)) charno dlgx
  = Some (charno + Z.of_nat (Nat.pred c)).
Proof.
  intros Hpos. induction line as [|ch rest IH]; intros c charno dlgx Hc; cbn in Hc; [lia|].
  cbn [txt_scan_line]. pose proof (Hpos (char_as_uint32 ch)) as Hw.
  destruct c as [|[|c]].
  - cbn [firstn glyphs_width Nat.pred].
    destruct (Z.leb_spec (dlgx + 0) (dlgx + getCharWidth font (char_as_uint32 ch))); [|lia].
    f_equal. lia.
  - cbn [firstn glyphs_width Nat.pred].
    destruct (Z.leb_spec (dlgx + (getCharWidth font (char_as_uint32 ch) + 0))
                         (dlgx + getCharWidth font (char_as_uint32 ch))); [|lia].
    f_equal. lia.
  - change (firstn (S (S c)) (ch :: rest)) with (ch :: firstn (S c) rest).
    cbn [glyphs_width Nat.pred].
    assert (Hrest : 0 < glyphs_width font (firstn (S c) rest)).
    { apply glyphs_width_pos; [assumption|].
      destruct rest; [cbn in Hc; lia | discriminate]. }
    destruct (Z.leb_spec (dlgx + (getCharWidth font (char_as_uint32 ch)
                                  + glyphs_width font (firstn (S c) rest)))
                         (dlgx + getCharWidth font (char_as_uint32 ch))); [lia|].
    replace (dlgx + (getCharWidth font (char_as_uint32 ch) + glyphs_width font (firstn (S c) rest)))
      with (dlgx + getCharWidth font (char_as_uint32 ch) + glyphs_width font (firstn (S c) rest))
      by lia.
    rewrite (IH (S c)) by lia. cbn [Nat.pred]. f_equal. lia.
Qed.

(** A target at or left of the first glyph's right edge resolves to
    column 0. *)
Lemma txt_scan_line_first (font : DgdsFont) (line : CString) (xpos charno dlgx : Z) :
  (forall ch, 0 < getCharWidth font ch) -> line <> [] -> xpos <= dlgx ->
  txt_scan_line font line xpos charno dlgx = Some charno.
Proof.
  intros Hpos Hne Hx. destruct line as [|ch rest]; [congruence|].
  cbn [txt_scan_line]. pose proof (Hpos (char_as_uint32 ch)).
  destruct (Z.leb_spec xpos (dlgx + getCharWidth font (char_as_uint32 ch))); [reflexivity | lia].
Qed.

Lemma skipn_nth_cons {A : Type} (dflt : A) (l : list A) : forall k,
  (k < List.length l)%nat -> skipn k l = nth k l dflt :: skipn (S k) l.
Proof.
  induction l as [|a l IH]; intros k Hk; cbn in Hk; [lia|].
  destruct k; [reflexivity|]. cbn [skipn nth]. apply IH. lia.
Qed.

(** The first loop of [drawFindSelectionTxtOffset] stops at line [k] when
    the pointer height is that of line [k]. *)
Lemma txt_skip_lines_at (lineOffs : list Z) (h top : Z) (nlines k : nat) :
  0 < h -> (k <= nlines)%nat ->
  txt_skip_lines nlines lineOffs h (top + 1 + Z.of_nat k * h) 0 0 top
  = (k, (if (k =? 0)%nat then 0 else nth k lineOffs 0), top + Z.of_nat k * h).
Proof.
  intros Hh Hk.
  destruct (txt_skip_lines_spec lineOffs h (top + 1 + Z.of_nat k * h) nlines 0 0 top)
    as (k' & Heq & Hk' & Hbefore & Hstop).
  assert (k' = k) as ->.
  { assert (k' <= k)%nat.
    { destruct k' as [|k']; [lia|].
      specialize (Hbefore k' ltac:(lia)). rewrite Nat.sub_0_r in Hbefore. nia. }
    destruct Hstop as [->|Hstop]; [lia|]. rewrite Nat.sub_0_r in Hstop. nia. }
  rewrite Heq, Nat.sub_0_r. reflexivity.
Qed.

Lemma to_uint16_small (z : Z) : 0 <= z < 2 ^ 16 -> to_uint16 z = z.
Proof. unfold to_uint16. intros H. apply Z.mod_small; lia. Qed.

(** Where [drawFindSelectionXY] puts the pointer for the offset of column
    [c] of wrapped line [k]. *)
Lemma XY_at (eng : EngineView) (d : Dialog) (st : DialogState) (k c : nat) :
  let font := getDlgTextFont eng d in
  let lines := fst (wordWrapText font (_str d) (DgdsRect.width (_loc st))) in
  let maxWidth := snd (wordWrapText font (_str d) (DgdsRect.width (_loc st))) in
  let left := fst (text_origin d st font lines maxWidth) in
  let top := snd (text_origin d st font lines maxWidth) in
  _state d = Some st ->
  0 < getFontHeight font < 2 ^ 16 ->
  (forall s, getStringWidth font s = glyphs_width font s) ->
  lines_of (_str d) lines ->
  (hasFlag d kDlgFlagLeftJust = true -> block_fits st font lines maxWidth) ->
  (k < List.length lines)%nat -> (c < List.length (nth k lines []))%nat ->
  _strMouseLoc st = line_offset lines k + Z.of_nat c ->
  left + glyphs_width font (firstn c (nth k lines []))
  + getCharWidth font (to_uint32 (_strMouseLoc st))
    <= DgdsRect.x (_loc st) + DgdsRect.width (_loc st) ->
  exists st1,
    drawFindSelectionXY eng d = Done (set_state d (Some st1))
    /\ _strMouseLoc st1 = _strMouseLoc st /\ _loc st1 = _loc st
    /\ ((_strMouseLoc st = 0 /\ _lastMouseX st1 = DgdsRect.x (_loc st)
         /\ _lastMouseY st1 = DgdsRect.y (_loc st) + 1)
        \/ (_strMouseLoc st <> 0
            /\ _lastMouseX st1 = left + glyphs_width font (firstn c (nth k lines []))
            /\ _lastMouseY st1 = top + 1 + Z.of_nat k * getFontHeight font)).
Proof.
  intros font lines maxWidth left top Hs Hh Hsw Hl Hfit Hk Hc Ho Hroom.
  unfold drawFindSelectionXY. rewrite Hs. fold font.
  cbn [_strMouseLoc set_charSize set_lastMouse _loc].
  destruct (Z.eqb_spec (_strMouseLoc st) 0) as [H0|H0].
  { eexists. split; [reflexivity|]. split; [reflexivity|]. split; [reflexivity|].
    left. repeat split; try assumption; reflexivity. }
  subst left top. unfold text_origin in *. subst lines maxWidth.
  destruct (wordWrapText font (_str d) (DgdsRect.width (_loc st))) as [lines maxWidth].
  cbn [fst snd] in *.
  destruct (lines_of_nth lines (_str d) k Hl Hk) as [_ Hsz].
  specialize (Hsz ltac:(destruct (nth k lines []); [cbn in Hc; lia | discriminate])).
  assert (Hin : _strMouseLoc st < size (_str d)) by (unfold size in *; lia).
  assert (Hch : to_uint16 (getFontHeight font) = getFontHeight font)
    by (apply to_uint16_small; lia).
  destruct (hasFlag d kDlgFlagLeftJust) eqn:Hflag;
    cbn [_strMouseLoc set_charSize set_lastMouse set_strMouseLoc _charHeight _loc fst snd] in *;
    rewrite ?Hch.
  - destruct (Hfit eq_refl) as (Hw & Hv & HH & Hnh & Hy).
    unfold fits_int, INT_MIN, INT_MAX in *.
    pose proof (size_nonneg lines) as Hn0.
    set (v := DgdsRect.height (_loc st) - size lines * getFontHeight font - 1) in *.
    assert (Hpy : to_int32 (DgdsRect.y (_loc st) + 1 + to_uint32 v / 2)
                  = DgdsRect.y (_loc st)
                    + cdiv (DgdsRect.height (_loc st)
                            - to_int32 (size lines * getFontHeight font) - 1) 2 + 1).
    { rewrite (to_int32_small (size lines * getFontHeight font))
        by (unfold INT_MIN, INT_MAX; lia).
      fold v. unfold cdiv. rewrite Z.quot_div_nonneg by lia.
      rewrite to_uint32_small by (subst v; nia).
      rewrite to_int32_small by (unfold INT_MIN, INT_MAX; lia). lia. }
    rewrite Hpy.
    destruct (Z.geb_spec (_strMouseLoc st) (size (_str d))); [lia|].
    cbn [_strMouseLoc set_charSize set_lastMouse set_strMouseLoc _charHeight _loc].
    rewrite Hch.
    rewrite (xy_find_line_at (_strMouseLoc st) (getFontHeight font) lines k (Z.of_nat c))
      by (unfold size; lia).
    rewrite Hsw.
    replace (_strMouseLoc st - (0 + line_offset lines k)) with (Z.of_nat c) by lia.
    replace (0 + line_offset lines k) with (line_offset lines k) by lia.
    rewrite (substr_line_prefix (_str d) lines k c Hl Hk Hc).
    destruct (Z.ltb_spec (DgdsRect.x (_loc st) + DgdsRect.width (_loc st))
                (DgdsRect.x (_loc st) + cdiv (DgdsRect.width (_loc st) - maxWidth - 1) 2
                 + glyphs_width font (firstn c (nth k lines []))
                 + getCharWidth font (to_uint32 (_strMouseLoc st)))); [lia|].
    eexists. split; [reflexivity|]. split; [reflexivity|]. split; [reflexivity|].
    right. split; [assumption|]. split; cbn; lia.
  - destruct (Z.geb_spec (_strMouseLoc st) (size (_str d))); [lia|].
    cbn [_strMouseLoc set_charSize set_lastMouse set_strMouseLoc _charHeight _loc].
    rewrite Hch.
    rewrite (xy_find_line_at (_strMouseLoc st) (getFontHeight font) lines k (Z.of_nat c))
      by (unfold size; lia).
    rewrite Hsw.
    replace (_strMouseLoc st - (0 + line_offset lines k)) with (Z.of_nat c) by lia.
    replace (0 + line_offset lines k) with (line_offset lines k) by lia.
    rewrite (substr_line_prefix (_str d) lines k c Hl Hk Hc).
    destruct (Z.ltb_spec (DgdsRect.x (_loc st) + DgdsRect.width (_loc st))
                (DgdsRect.x (_loc st)
                 + glyphs_width font (firstn c (nth k lines []))
                 + getCharWidth font (to_uint32 (_strMouseLoc st)))); [lia|].
    eexists. split; [reflexivity|]. split; [reflexivity|]. split; [reflexivity|].
    right. split; [assumption|]. split; cbn; lia.
Qed.

(** C1, as stated, fails: offset 1 of the one-line text "ab" is a valid
    offset and not a break character, yet resolving it to a position and
    the position back to an offset gives 0: the position of a character is
    its left edge, which the inverse attributes to the character before. *)
Lemma roundtrip_of_second_character :
  nth_error (_str (example_dialog kDlgFramePlain 0 "ab" []
                     (Some (example_state (DgdsRect.mk 13 13 294 54) 1 None)))) 1
  = Some "b"%char /\
  exists d1,
    drawFindSelectionXY (example_engine (0, 0) 0)
      (example_dialog kDlgFramePlain 0 "ab" []
         (Some (example_state (DgdsRect.mk 13 13 294 54) 1 None))) = Done d1
    /\ offset_of (drawFindSelectionTxtOffset (example_engine (0, 0) 0) d1) = Some 0.
Proof.
  split; [reflexivity|]. eexists. split; reflexivity.
Qed.

(** C1, amended: for every valid offset [o] that is column [c] of wrapped
    line [k] (so not an elided break character), with glyphs of positive
    width, a line height that is positive and below 65536, a string width
    that is the sum of its glyph widths (each glyph measured by
    [getCharWidth] of the plain [char] converted to [uint32]), wrapped lines
    cut out of the display string, the wrapped block fitting the content
    rectangle when the dialog is left-justified, and the right-edge test of
    [drawFindSelectionXY] not firing: the left edge of the character at [o]
    plus the width that [getCharWidth] answers for the number [o] itself,
    taken as a [uint32] character code (the code passes the offset, not the
    character at the offset), does not pass the right edge of the content
    rectangle.  Then resolving [o] to a screen position and that position
    back to an offset yields [o] again when [o] is the first character of
    its wrapped line, and [o - 1] otherwise. *)
Theorem roundtrip_offset (eng : EngineView) (d : Dialog) (st : DialogState) (k c : nat) :
  let font := getDlgTextFont eng d in
  let lines := fst (wordWrapText font (_str d) (DgdsRect.width (_loc st))) in
  let maxWidth := snd (wordWrapText font (_str d) (DgdsRect.width (_loc st))) in
  let left := fst (text_origin d st font lines maxWidth) in
  _state d = Some st ->
  0 < getFontHeight font < 2 ^ 16 ->
  (forall ch, 0 < getCharWidth font ch) ->
  (forall s, getStringWidth font s = glyphs_width font s) ->
  lines_of (_str d) lines ->
  (hasFlag d kDlgFlagLeftJust = true -> block_fits st font lines maxWidth) ->
  (k < List.length lines)%nat -> (c < List.length (nth k lines []))%nat ->
  _strMouseLoc st = line_offset lines k + Z.of_nat c ->
  left + glyphs_width font (firstn c (nth k lines []))
  + getCharWidth font (to_uint32 (_strMouseLoc st))
    <= DgdsRect.x (_loc st) + DgdsRect.width (_loc st) ->
  exists d1,
    drawFindSelectionXY eng d = Done d1
    /\ offset_of (drawFindSelectionTxtOffset eng d1)
       = Some (if (c =? 0)%nat then _strMouseLoc st else _strMouseLoc st - 1).
Proof.
  intros font lines maxWidth left Hs Hh Hpos Hsw Hl Hfit Hk Hc Ho Hroom.
  destruct (XY_at eng d st k c Hs Hh Hsw Hl Hfit Hk Hc Ho Hroom)
    as (st1 & HXY & Hoff1 & Hloc1 & Hpos1).
  exists (set_state d (Some st1)). split; [exact HXY|].
  unfold drawFindSelectionTxtOffset. cbn [_state set_state _str].
  change (getDlgTextFont eng (set_state d (Some st1))) with font.
  change (hasFlag (set_state d (Some st1)) kDlgFlagLeftJust)
    with (hasFlag d kDlgFlagLeftJust).
  rewrite Hloc1.
  fold font in Hpos1. cbn zeta in Hpos1.
  subst left. unfold text_origin in *. subst lines maxWidth.
  destruct (wordWrapText font (_str d) (DgdsRect.width (_loc st))) as [lines maxWidth].
  cbn [fst snd] in *.
  set (origin := if hasFlag d kDlgFlagLeftJust then _ else _) in *.
  assert (Hline : skipn k lines = nth k lines [] :: skipn (S k) lines)
    by (apply skipn_nth_cons; assumption).
  destruct Hpos1 as [(H0 & HX & HY) | (H0 & HX & HY)].
  - (* offset 0: the position is the corner of the content rectangle *)
    pose proof (line_offset_ge lines k ltac:(lia)) as Hge.
    assert (k = 0%nat) by lia. assert (c = 0%nat) by lia. subst k c.
    assert (Horigin : DgdsRect.x (_loc st) <= fst origin
                      /\ DgdsRect.y (_loc st) <= snd origin).
    { subst origin. destruct (hasFlag d kDlgFlagLeftJust).
      - destruct (Hfit eq_refl) as (Hw & Hv & HH & Hnh & Hy).
        cbn [fst snd]. unfold cdiv.
        rewrite (to_int32_small (size lines * getFontHeight font)) by exact Hnh.
        pose proof (Z.quot_pos (DgdsRect.width (_loc st) - maxWidth - 1) 2 Hw ltac:(lia)).
        pose proof (Z.quot_pos (DgdsRect.height (_loc st)
                                - size lines * getFontHeight font - 1) 2 Hv ltac:(lia)).
        lia.
      - cbn [fst snd]. lia. }
    destruct origin as [left top]. cbn [fst snd] in *.
    destruct (txt_skip_lines_spec (_wrappedLineOffsets (_str d) lines) (getFontHeight font)
                (_lastMouseY st1) (List.length lines) 0 0 top)
      as (k' & Heq & Hk' & Hbefore & _).
    assert (k' = 0%nat).
    { destruct k' as [|k']; [reflexivity|].
      specialize (Hbefore 0%nat ltac:(lia)).
      change (Z.of_nat (0 - 0)) with 0 in Hbefore. rewrite HY in Hbefore. lia. }
    subst k'. rewrite Heq. cbn [Nat.eqb]. rewrite Hline. cbn [txt_scan_lines].
    rewrite txt_scan_line_first; [| assumption | | lia].
    + cbn [offset_of _state set_state _strMouseLoc set_strMouseLoc Nat.eqb]. f_equal. lia.
    + destruct (nth 0 lines []); [cbn in Hc; lia | discriminate].
  - (* any other offset *)
    destruct origin as [left top]. cbn [fst snd] in *.
    rewrite HY, HX.
    rewrite txt_skip_lines_at by (try lia).
    rewrite Hline. cbn [txt_scan_lines].
    rewrite txt_scan_line_at by assumption.
    cbn [offset_of _state set_state _strMouseLoc set_strMouseLoc].
    f_equal.
    assert (Htot : (if (k =? 0)%nat then 0
                    else nth k (_wrappedLineOffsets (_str d) lines) 0)
                   = line_offset lines k).
    { destruct (Nat.eqb_spec k 0) as [E|E]; [rewrite E; reflexivity|].
      rewrite wrappedLineOffsets_nth by lia.
      destruct (Nat.ltb_spec k (List.length lines)); [reflexivity | lia]. }
    rewrite Htot. destruct c as [|c]; cbn [Nat.eqb Nat.pred]; lia.
Qed.

Lemma fixed_font_additive (cw ch : Z) (s : CString) :
  getStringWidth (fixed_font cw ch) s = glyphs_width (fixed_font cw ch) s.
Proof.
  cbn [getStringWidth fixed_font]. unfold size.
  induction s as [|a s IH]; cbn [glyphs_width List.length getCharWidth fixed_font] in *; lia.
Qed.

Lemma roundtrip_offset_witness :
  exists d1,
    drawFindSelectionXY (example_engine (0, 0) 0) (two_line_dialog 0 0 2) = Done d1
    /\ offset_of (drawFindSelectionTxtOffset (example_engine (0, 0) 0) d1) = Some 2.
Proof.
  apply (roundtrip_offset (example_engine (0, 0) 0) (two_line_dialog 0 0 2)
           (set_lastMouse (example_state (DgdsRect.mk 13 13 294 54) 2 None) 0 0)
           1%nat 0%nat).
  - reflexivity.
  - vm_compute. split; reflexivity.
  - intros ch. vm_compute. reflexivity.
  - intros s. apply fixed_font_additive.
  - vm_compute. repeat split.
  - intros H. vm_compute in H. discriminate H.
  - vm_compute. lia.
  - vm_compute. lia.
  - reflexivity.
  - vm_compute. discriminate.
Defined.

(** ** Picking an action *)

Lemma TxtOffset_fields (eng : EngineView) (d : Dialog) :
  _str (drawFindSelectionTxtOffset eng d) = _str d
  /\ _action (drawFindSelectionTxtOffset eng d) = _action d.
Proof.
  unfold drawFindSelectionTxtOffset.
  repeat break_match; split; reflexivity.
Qed.

Lemma pick_under_mouse_spec (str : CString) (o : Z) (actions : list DialogAction) :
  forall (i : nat),
  Forall (fun a => 0 <= strEnd a) actions ->
  pick_under_mouse str o (char_under str o) actions i
  = Done (first_index (span_selects str o) actions i).
Proof.
  induction actions as [|a rest IH]; intros i Hall; [reflexivity|].
  inversion Hall as [|? ? Ha Hrest]; subst.
  cbn [pick_under_mouse first_index]. unfold span_selects at 1.
  destruct ((strStart a <=? o) && (o <=? strEnd a)); [reflexivity|]. cbn [orb].
  destruct (Z.eqb_spec o (strEnd a + 1)) as [Ho|Ho]; cbn [andb].
  - destruct (Ascii.eqb (char_under str o) CR) eqn:Hcr; cbn [andb obind].
    + assert (Hin : 0 <= strEnd a < size str).
      { unfold char_under in Hcr.
        destruct (Z.geb_spec o 0); destruct (Z.ltb_spec o (size str)); cbn [andb] in Hcr;
          try (vm_compute in Hcr; discriminate). lia. }
      unfold char_at. destruct (Z.leb_spec 0 (strEnd a)); [|lia].
      destruct (Z.ltb_spec (strEnd a) (size str)); [|lia]. cbn [andb].
      destruct (nth_error str (Z.to_nat (strEnd a))) as [ch|] eqn:Hnth.
      * cbn [obind]. rewrite (nth_error_nth _ _ Ascii.zero Hnth).
        destruct (negb (Ascii.eqb ch CR)); [reflexivity | apply IH; assumption].
      * apply nth_error_None in Hnth. unfold size in Hin. lia.
    + apply IH; assumption.
  - apply IH; assumption.
Qed.

(** C7, as stated, fails: with the pointer at (0,0), outside the content
    rectangle, the pointer would resolve to offset 0, which lies in the
    span of the dialog's action, yet [pickAction(false, false)] returns no
    action: the pointer is resolved only when it lies inside the content
    rectangle. *)
Lemma pickAction_ignores_pointer_outside :
  pointer_offset (example_engine (0, 0) 0) north_dialog
                 (example_state (DgdsRect.mk 13 13 294 54) 0 None) = 0 /\
  first_index (span_selects (_str north_dialog) 0) (_action north_dialog) 0 = Some 0%nat /\
  pickAction (example_engine (0, 0) 0) false false north_dialog = Done (None, north_dialog).
Proof. repeat split. Qed.

(** C7, amended: with a random source that answers within [0..max], and
    on the pointer path a [DialogState], a known frame type and spans that
    end at non-negative offsets, [pickAction] behaves as the case analysis
    [pickAction_cases]: closing without force returns the action drawn by
    the random source; otherwise, if the pointer lies inside the content
    rectangle (edges included), it is resolved to a character offset and
    the first action is returned whose span contains the offset or ends
    just before it on a carriage-return boundary, and if the pointer lies
    outside nothing is resolved; a closing dialog with exactly one action
    returns that action whatever the pointer position. *)
Theorem pickAction_case_analysis
    (eng : EngineView) (isClosing isForceClose : bool) (d : Dialog) :
  (forall max, 0 <= max -> 0 <= getRandomNumber eng max <= max) ->
  (negb isForceClose && isClosing = false -> has_state d /\ known_frame d) ->
  Forall (fun a => 0 <= strEnd a) (_action d) ->
  (exists d', pickAction eng isClosing isForceClose d
              = Done (pickAction_cases eng isClosing isForceClose d, d'))
  /\ (isClosing = true -> size (_action d) = 1 ->
      pickAction_cases eng isClosing isForceClose d = Some 0%nat).
Proof.
  intros Hrnd Hpre Hspans. split.
  - unfold pickAction, pickAction_cases.
    destruct (negb isForceClose && isClosing) eqn:Hmode.
    + destruct (_action d) as [|a rest] eqn:Ha; [exists d; reflexivity|].
      rewrite <- Ha.
      assert (Hn : 1 <= size (_action d)) by (rewrite Ha; unfold size; cbn; lia).
      specialize (Hrnd (size (_action d) - 1) ltac:(lia)).
      destruct (Z.leb_spec 0 (getRandomNumber eng (size (_action d) - 1))); [|lia].
      destruct (Z.ltb_spec (getRandomNumber eng (size (_action d) - 1)) (size (_action d)));
        [|lia].
      exists d. reflexivity.
    + destruct (Hpre eq_refl) as [[st Hs] Hk]. rewrite Hs.
      unfold pointer_inside, pointer_offset.
      destruct (getLastMouse eng) as [mx my]. cbn [fst snd].
      destruct ((DgdsRect.x (_loc st) <=? mx)
                && (DgdsRect.x (_loc st) + DgdsRect.width (_loc st) >=? mx)
                && (DgdsRect.y (_loc st) <=? my)
                && (DgdsRect.y (_loc st) + DgdsRect.height (_loc st) >=? my)).
      * set (d2 := set_state d (Some (set_lastMouse st mx my))).
        rewrite (draw_TxtOffset_stage eng None d2)
          by first [apply has_state_set | exact Hk].
        unfold selectionTxtOffset. cbn [obind].
        destruct (TxtOffset_keeps_state eng d2 (has_state_set d _)) as [st3 Hs3].
        destruct (TxtOffset_fields eng d2) as [Hstr Hact].
        rewrite Hs3. unfold offset_of. rewrite Hs3.
        rewrite Hstr, Hact. subst d2. cbn [_str _action set_state].
        change (if (_strMouseLoc st3 >=? 0) && (_strMouseLoc st3 <? size (_str d))
                then nth (Z.to_nat (_strMouseLoc st3)) (_str d) Ascii.zero
                else Ascii.zero)
          with (char_under (_str d) (_strMouseLoc st3)).
        rewrite pick_under_mouse_spec by assumption. cbn [obind].
        rewrite ?Hact. cbn [_action set_state].
        destruct (first_index _ _ _); eexists; [reflexivity|].
        destruct (isClosing && (size (_action d) =? 1)); reflexivity.
      * cbn [obind].
        destruct (isClosing && (size (_action d) =? 1)); eexists; reflexivity.
  - intros Hc Hone. subst isClosing. unfold pickAction_cases.
    destruct isForceClose; cbn [negb andb].
    + rewrite Hone. cbn [Z.eqb Pos.eqb].
      destruct (_state d) as [st|]; [|reflexivity].
      destruct (pointer_inside _ _); [|reflexivity].
      destruct (_action d) as [|a [|b rest]]; try (unfold size in Hone; cbn in Hone; lia).
      cbn [first_index]. destruct (span_selects _ _ a); reflexivity.
    + destruct (_action d) as [|a [|b rest]]; try (unfold size in Hone; cbn in Hone; lia).
      change (size [a] - 1) with 0. specialize (Hrnd 0 ltac:(lia)).
      f_equal. lia.
Qed.

Lemma pickAction_case_analysis_witness :
  pickAction_cases (example_engine (20, 20) 0) true true north_dialog = Some 0%nat.
Proof.
  apply (pickAction_case_analysis (example_engine (20, 20) 0) true true north_dialog).
  - intros max Hmax. cbn. lia.
  - intros _. split; [eexists; reflexivity | exact I].
  - repeat constructor. vm_compute. discriminate.
  - reflexivity.
  - reflexivity.
Defined.

(** ** Scene changes that are refused *)

(** C2, as stated, fails: standing in scene 3 with the inventory open, a
    change to scene 7, whose resource does not exist, returns false only
    after the inventory has been closed and the drag item cleared; here
    closing the inventory adds a warning of its own. *)
Lemma changeScene_missing_scene_closes_inventory :
  hasResource (example_env None NoError)
              (ext (example_game 3 (example_inventory true 3) 0)) (sceneFileName 7) = false /\
  changeScene (example_env None NoError) 2 7
              (example_game 3 (example_inventory true 3) 0, [])
  = Done (false,
          (upd_ext (ex_set_drag None)
             (set_inventory {| _isOpen := false; _openedFromSceneNum := 0;
                               _showZoomBox := false; _highlightItemNo := -1;
                               _itemOffset := 0 |}
                (example_game 3 (example_inventory true 3) 0)),
           [CallWarning "Tried to change from scene 3 to itself, doing nothing.";
            CallSetDragItem;
            CallWarning "Tried to switch to non-existant scene 7"])) /\
  _inventory (example_game 3 (example_inventory true 3) 0)
  <> {| _isOpen := false; _openedFromSceneNum := 0; _showZoomBox := false;
        _highlightItemNo := -1; _itemOffset := 0 |}.
Proof. split; [reflexivity|]. split; [reflexivity | discriminate]. Qed.

(** C2, amended: [changeScene(target)] returns false, emits exactly one
    warning, is not fatal and leaves all engine state unchanged when the
    target is the current scene, and also when the target's resource does
    not exist provided the target or the current scene is the inventory
    scene (2) or the inventory is not open. *)
Theorem changeScene_refused {Ext : Type} (env : Externals Ext) (depth : nat)
    (sceneNum : Z) (e : Engine Ext) (log : list Call) :
  have_scene e = true -> have_adsInterp e = true ->
  sceneNum = scene_getNum env (ext e)
  \/ (hasResource env (ext e) (sceneFileName sceneNum) = false
      /\ closes_inventory env sceneNum e = false) ->
  exists msg,
    changeScene env (S depth) sceneNum (e, log) = Done (false, (e, log ++ [CallWarning msg])).
Proof.
  intros Hscene Hads Hcase. cbn [changeScene fst snd].
  rewrite Hscene, Hads. cbn [andb assert_that obind].
  destruct (Z.eqb_spec sceneNum (scene_getNum env (ext e))) as [Heq|Hne].
  - eexists. reflexivity.
  - destruct Hcase as [Heq | [Hres Hinv]]; [contradiction|].
    unfold closes_inventory in Hinv. rewrite Hinv. cbn [obind fst snd].
    rewrite Hres. cbn [negb]. eexists. reflexivity.
Qed.

Lemma changeScene_refused_witness :
  exists msg,
    changeScene (example_env None NoError) 1 7
                (example_game 3 (example_inventory false 0) 0, [])
    = Done (false, (example_game 3 (example_inventory false 0) 0, [] ++ [CallWarning msg])).
Proof.
  apply (changeScene_refused (example_env None NoError) 0 7
           (example_game 3 (example_inventory false 0) 0) []).
  - reflexivity.
  - reflexivity.
  - right. split; reflexivity.
Defined.

(** ** Save-state synchronisation *)

Lemma sync_le_mode (n : nat) (s : Serializer) (v : Z) :
  getVersion (fst (sync_le n s v)) = getVersion s
  /\ isLoading (fst (sync_le n s v)) = isLoading s.
Proof.
  unfold sync_le. destruct (isLoading s) eqn:E.
  - destruct (take_bytes n (_loadStream s)). split; reflexivity.
  - split; [reflexivity | cbn; congruence].
Qed.

Lemma syncString_mode (s : Serializer) (str : string) :
  getVersion (fst (syncString s str)) = getVersion s
  /\ isLoading (fst (syncString s str)) = isLoading s.
Proof.
  unfold syncString. destruct (isLoading s) eqn:E.
  - pose proof (sync_le_mode 4 s 0) as [Hv Hl].
    destruct (sync_le 4 s 0) as [s1 n]. cbn [fst] in *.
    destruct (take_bytes (Z.to_nat n) (_loadStream s1)). cbn. split; congruence.
  - pose proof (sync_le_mode 4 s (Z.of_nat (String.length str))) as [Hv Hl].
    destruct (sync_le 4 s (Z.of_nat (String.length str))) as [s1 n]. cbn [fst] in *.
    cbn. split; congruence.
Qed.

Lemma Inventory_syncState_mode (s : Serializer) (inv : Inventory) :
  fst (fst (Inventory_syncState s inv)) = NoError
  /\ getVersion (snd (fst (Inventory_syncState s inv))) = getVersion s
  /\ isLoading (snd (fst (Inventory_syncState s inv))) = isLoading s.
Proof.
  unfold Inventory_syncState, syncAsUint16LE, syncAsByte, syncAsSint16LE.
  pose proof (sync_le_mode 2 s (_openedFromSceneNum inv)) as [Hv1 Hl1].
  destruct (sync_le 2 s (_openedFromSceneNum inv)) as [s1 v1]. cbn [fst] in *.
  pose proof (sync_le_mode 1 s1 (if _isOpen inv then 1 else 0)) as [Hv2 Hl2].
  destruct (sync_le 1 s1 (if _isOpen inv then 1 else 0)) as [s2 v2]. cbn [fst] in *.
  pose proof (sync_le_mode 2 s2 (_highlightItemNo inv)) as [Hv3 Hl3].
  destruct (sync_le 2 s2 (_highlightItemNo inv)) as [s3 v3]. cbn [fst] in *.
  pose proof (sync_le_mode 2 s3 (_itemOffset inv)) as [Hv4 Hl4].
  destruct (sync_le 2 s3 (_itemOffset inv)) as [s4 v4]. cbn [fst snd] in *.
  split; [reflexivity|]. split; congruence.
Qed.

Lemma Inventory_sync_keeps_mode {Ext : Type} : keeps_mode (@Inventory_sync Ext).
Proof.
  intros s e. unfold Inventory_sync.
  pose proof (Inventory_syncState_mode s (_inventory e)) as (_ & Hv & Hl).
  destruct (Inventory_syncState s (_inventory e)) as [[r s1] inv]. cbn [fst snd] in *.
  split; assumption.
Qed.

Lemma Inventory_sync_no_error {Ext : Type} (s : Serializer) (e : Engine Ext) :
  fst (fst (Inventory_sync s e)) = NoError.
Proof.
  unfold Inventory_sync.
  pose proof (Inventory_syncState_mode s (_inventory e)) as (Hr & _ & _).
  destruct (Inventory_syncState s (_inventory e)) as [[r s1] inv]. exact Hr.
Qed.

(** One primitive sync: name the serializer it returns and record that
    version and mode are unchanged. *)
Ltac prim_step :=
  match goal with
  | |- context [sync_le ?n ?s ?v] =>
      let Hv := fresh "Hv" in
      let Hl := fresh "Hl" in
      pose proof (sync_le_mode n s v) as [Hv Hl];
      destruct (sync_le n s v) as [? ?];
      cbn [fst snd getVersion isLoading] in Hv, Hl |- *
  | |- context [syncString ?s ?v] =>
      let Hv := fresh "Hv" in
      let Hl := fresh "Hl" in
      pose proof (syncString_mode s v) as [Hv Hl];
      destruct (syncString s v) as [? ?];
      cbn [fst snd getVersion isLoading] in Hv, Hl |- *
  end.

(** One subsystem sync [f], with the fact that it keeps version and mode. *)
Ltac sub_step f Hkeep :=
  unfold sync_subsystem at 1; cbn [fst snd];
  match goal with
  | |- context [f ?s ?e] =>
      let Hv := fresh "Hv" in
      let Hl := fresh "Hl" in
      let r := fresh "r" in
      let Hr := fresh "Hr" in
      pose proof (Hkeep s e) as [Hv Hl];
      destruct (f s e) as [[r ?] ?];
      cbn [fst snd getVersion isLoading] in Hv, Hl |- *;
      unfold note; cbn [fst snd];
      destruct (is_no_error r) eqn:Hr
  end.

(** Membership of a call in a concrete log. *)
Ltac find_call := cbn [In app]; repeat first [left; reflexivity | right].

Ltac no_such_call H :=
  cbn [In app] in H;
  repeat match type of H with
         | _ \/ _ => destruct H as [H|H]
         end;
  try discriminate H; try contradiction.

Lemma sync_subsystem_mode {Ext : Type} (who : Subsystem) (f : SyncFn Ext)
    (s : Serializer) (r : Run) :
  keeps_mode f ->
  getVersion (snd (fst (sync_subsystem who f s r))) = getVersion s
  /\ isLoading (snd (fst (sync_subsystem who f s r))) = isLoading s.
Proof.
  intros Hf. unfold sync_subsystem. specialize (Hf s (fst r)).
  destruct (f s (fst r)) as [[res s1] e1]. exact Hf.
Qed.

Lemma run_plan_app {Ext : Type} (env : Externals Ext) (before after : list Action) :
  forall (s : Serializer) (r : Run),
  run_plan env (before ++ after) s r
  = ('(result, s1, r1) <- run_plan env before s r ;;
     if is_no_error result then run_plan env after s1 r1 else Done (result, s1, r1)).
Proof.
  induction before as [|a before IH]; intros s r.
  - reflexivity.
  - cbn [app run_plan].
    destruct (run_action env a s r) as [[[result s1] r1]|f]; cbn [obind]; [|reflexivity].
    destruct (is_no_error result) eqn:Hr.
    + apply IH.
    + cbn [obind]. rewrite Hr. reflexivity.
Qed.

(** One subsystem step on both sides of an equation. *)
Ltac plan_sync Hkeep :=
  match goal with
  | |- context [sync_subsystem ?who ?f ?s ?r] =>
      let Hv := fresh "Hv" in
      let Hl := fresh "Hl" in
      let res := fresh "res" in
      pose proof (sync_subsystem_mode who f s r Hkeep) as [Hv Hl];
      destruct (sync_subsystem who f s r) as [[res ?] ?];
      cbn [fst snd] in Hv, Hl;
      cbv beta iota;
      destruct (is_no_error res); [|reflexivity]
  end.

Lemma syncGame_plan {Ext : Type} (env : Externals Ext) (s : Serializer) (r : Run) :
  subsystems_keep_mode env ->
  syncGame env s r
  = (_ <- assert_that (have_scene (fst r) && have_gdsScene (fst r)) "_scene && _gdsScene" ;;
     if negb (fst (syncVersion 4 s)) then Abort (FatalError "Save game version too new")
     else run_plan env (sync_plan (getVersion (fst (sync_start env s r)))
                                  (isLoading (fst (sync_start env s r))))
            (fst (sync_start env s r)) (snd (sync_start env s r))).
Proof.
  intros (Hgds & Hscene & Hglob & Hclock & Hpals & Hads).
  unfold syncGame, sync_start. cbn [fst snd].
  destruct (have_scene (fst r) && have_gdsScene (fst r)); cbn [assert_that obind];
    [|reflexivity].
  destruct (syncVersion 4 s) as [understood s0]. cbn [fst snd].
  destruct understood; cbn [negb]; [|reflexivity].
  destruct (getVersion s0 <? 4) eqn:Hbelow; destruct (isLoading s0) eqn:Hload;
    cbn [sync_plan steps_before_palette steps_after_palette map app run_plan run_action
         subsystem_sync sync_field obind].
  all: plan_sync Hgds.
  all: unfold syncAsUint16LE; prim_step.
  all: match goal with
       | |- context [isLoading ?x] => replace (isLoading x) with (isLoading s0) by congruence
       end; rewrite Hload.
  all: try (match goal with
            | |- context [hasResource ?en ?w ?f] => destruct (hasResource en w f)
            end; cbn [negb obind]; [|reflexivity]).
  all: cbn [obind]; change (is_no_error NoError) with true; cbv beta iota.
  all: plan_sync Hscene.
  all: plan_sync Hglob.
  all: plan_sync Hclock.
  all: plan_sync (@Inventory_sync_keeps_mode Ext).
  all: match goal with
       | |- context [getVersion ?x <? 4] =>
           replace (getVersion x) with (getVersion s0) by congruence
       end; rewrite Hbelow.
  all: try (match goal with
            | |- context [if isLoading ?x then _ else _] =>
                replace (isLoading x) with (isLoading s0) by congruence
            end; rewrite Hload).
  all: cbn [app run_plan run_action subsystem_sync sync_field obind]; cbv beta iota.
  all: try plan_sync Hpals.
  all: change (is_no_error NoError) with true; cbv beta iota.
  all: plan_sync Hads.
  all: unfold syncAsSint16LE, syncAsByte, syncAsUint32LE.
  all: repeat (prim_step; cbn [obind]; cbv beta iota;
               change (is_no_error NoError) with true; cbv beta iota).
  all: change (is_no_error NoError) with true; cbv beta iota.
  all: match goal with
       | |- context [if isLoading ?x then _ else _] => destruct (isLoading x)
       end.
  all: cbn [obind]; change (is_no_error NoError) with true; cbv beta iota.
  all: reflexivity.
Qed.

Lemma plan_steps_order (version : Z) (loading : bool) :
  plan_steps (sync_plan version loading) = sync_order version.
Proof.
  unfold sync_plan, sync_order. destruct (version <? 4); [reflexivity|].
  destruct loading; reflexivity.
Qed.

Lemma syncVersion_understood (s : Serializer) :
  fst (syncVersion 4 s) = (negotiated_version s <=? 4)
  /\ getVersion (snd (syncVersion 4 s)) = negotiated_version s.
Proof.
  unfold syncVersion, syncAsUint32LE, negotiated_version.
  destruct (sync_le 4 s 4) as [s1 v]. split; reflexivity.
Qed.

(** C3: once the version is negotiated and the menu hidden, [syncGame] is
    the run of its plan: the steps of the fixed order (scene directory,
    current scene number, scene state, global variables, clock, inventory,
    palette only when the version is below 4, script-overlay interpreter,
    text speed, the two just-changed-scene flags, elapsed play time,
    background image filename, then the scene's enter ops), each on the
    serializer and the engine that the step before left.  Whenever the
    steps before one step have run without error and that step reports an
    error, [syncGame] returns this error as it is, with serializer and
    engine as that step left them: no later step is made. *)
Theorem syncGame_order {Ext : Type} (env : Externals Ext) (s : Serializer) (r : Run) :
  subsystems_keep_mode env ->
  have_scene (fst r) = true -> have_gdsScene (fst r) = true ->
  negotiated_version s <= 4 ->
  let s0 := fst (sync_start env s r) in
  let r0 := snd (sync_start env s r) in
  let plan := sync_plan (getVersion s0) (isLoading s0) in
  getVersion s0 = negotiated_version s
  /\ plan_steps plan = sync_order (getVersion s0)
  /\ syncGame env s r = run_plan env plan s0 r0
  /\ (forall before act after result s1 r1 err s2 r2,
        plan = before ++ act :: after ->
        run_plan env before s0 r0 = Done (result, s1, r1) -> is_no_error result = true ->
        run_action env act s1 r1 = Done (err, s2, r2) -> is_no_error err = false ->
        syncGame env s r = Done (err, s2, r2)).
Proof.
  intros Hkeep Hscene Hgds Hv s0 r0 plan.
  destruct (syncVersion_understood s) as [Hund Hver].
  assert (Heq : syncGame env s r = run_plan env plan s0 r0).
  { rewrite (syncGame_plan env s r Hkeep), Hscene, Hgds, Hund.
    cbn [andb assert_that obind].
    destruct (Z.leb_spec (negotiated_version s) 4); [reflexivity | lia]. }
  split; [exact Hver|]. split; [apply plan_steps_order|]. split; [exact Heq|].
  intros before act after result s1 r1 err s2 r2 Hplan Hbefore Hok Hact Herr.
  rewrite Heq, Hplan, run_plan_app, Hbefore. cbn [obind]. rewrite Hok.
  cbn [run_plan]. rewrite Hact. cbn [obind]. rewrite Herr. reflexivity.
Qed.

Lemma example_env_keeps_mode (failing : option Subsystem) (err : Error) :
  subsystems_keep_mode (example_env failing err).
Proof.
  unfold subsystems_keep_mode, keeps_mode.
  repeat split; try reflexivity; cbn [pals_syncState example_env];
    destruct (sync_le_mode 1 s (ex_palette (ext e))) as [Hv Hl];
    destruct (sync_le 1 s (ex_palette (ext e))); assumption.
Qed.

Lemma syncGame_order_witness :
  exists s2 r2,
    syncGame (example_env (Some Clock) disk_full) saver
      (example_game 3 (example_inventory false 0) 9, [])
    = Done (disk_full, s2, r2).
Proof.
  destruct (syncGame_order (example_env (Some Clock) disk_full) saver
              (example_game 3 (example_inventory false 0) 9, [])
              (example_env_keeps_mode (Some Clock) disk_full) eq_refl eq_refl)
    as (_ & _ & _ & Hstop).
  - vm_compute. discriminate.
  - eexists. eexists.
    eapply (Hstop [ActStep (StepSync GdsScene); ActStep (StepField SceneNum);
                  ActStep (StepSync Scene); ActStep (StepSync GameGlobals)]
                 (ActStep (StepSync Clock))
                 (map ActStep [StepSync InventoryState] ++ map ActStep steps_after_palette)
                 NoError).
    + reflexivity.
    + reflexivity.
    + reflexivity.
    + reflexivity.
    + reflexivity.
Defined.

(** ** The version gate *)

Lemma take_bytes_le_encode (n : nat) : forall (v : Z) (rest : list Z),
  take_bytes n (le_encode n v ++ rest) = (le_encode n v, rest).
Proof.
  induction n as [|n IH]; intros v rest; [reflexivity|].
  cbn [le_encode app take_bytes]. now rewrite IH.
Qed.

Lemma le_decode_encode (n : nat) : forall (v : Z),
  le_decode (le_encode n v) = v mod 256 ^ Z.of_nat n.
Proof.
  induction n as [|n IH]; intros v.
  - cbn. now rewrite Z.mod_1_r.
  - cbn [le_encode le_decode]. rewrite IH.
    rewrite Nat2Z.inj_succ, Z.pow_succ_r by lia.
    rewrite Z.rem_mul_r by lia. reflexivity.
Qed.

Lemma negotiated_version_of_blob (v : Z) (blob : list Z) :
  0 <= v < 2 ^ 32 -> negotiated_version (loader (le_encode 4 v ++ blob)) = v.
Proof.
  intros Hv. unfold negotiated_version, sync_le, loader. cbn [isLoading _loadStream].
  rewrite take_bytes_le_encode. cbn [snd]. rewrite le_decode_encode.
  apply Z.mod_small. change (256 ^ Z.of_nat 4) with (2 ^ 32). exact Hv.
Qed.

Lemma syncVersion_of_blob (v : Z) (blob : list Z) :
  0 <= v < 2 ^ 32 ->
  syncVersion 4 (loader (le_encode 4 v ++ blob)) = (v <=? 4, loader_at v blob).
Proof.
  intros Hv. unfold syncVersion, syncAsUint32LE, sync_le, loader.
  cbn [isLoading _loadStream getVersion _saveStream].
  rewrite take_bytes_le_encode, le_decode_encode.
  change (256 ^ Z.of_nat 4) with (2 ^ 32). rewrite Z.mod_small by exact Hv.
  reflexivity.
Qed.

(** C4: loading a save whose version field is greater than 4 is fatal.
    Loading a version that is at most 4, once the steps before the palette
    (scene directory to inventory) have run without error: a version below
    4 (version 3 in particular) reads the palette state from the palette
    block, by the [syncState] of the palettes on the serializer and the
    engine as the inventory step left them, and resets nothing; version 4
    resets the palette state to its default there and reads no palette
    block.  Either way the steps after the palette follow. *)
Theorem load_version_gate {Ext : Type} (env : Externals Ext) (v : Z) (blob : list Z)
    (r : Run) :
  subsystems_keep_mode env ->
  have_scene (fst r) = true -> have_gdsScene (fst r) = true ->
  0 <= v < 2 ^ 32 ->
  let s := loader (le_encode 4 v ++ blob) in
  let r0 := note CallHideMenu (on_ext (menu_hideMenu env) r) in
  (4 < v -> syncGame env s r = Abort (FatalError "Save game version too new"))
  /\ (v <= 4 ->
      forall result s1 r1,
        run_plan env (map ActStep steps_before_palette) (loader_at v blob) r0
        = Done (result, s1, r1) ->
        is_no_error result = true ->
        syncGame env s r
        = if v <? 4 then
            let '(result, s2, r2) := sync_subsystem GamePals (pals_syncState env) s1 r1 in
            if is_no_error result
            then run_plan env (map ActStep steps_after_palette) s2 r2
            else Done (result, s2, r2)
          else
            run_plan env (map ActStep steps_after_palette) s1
              (note CallPaletteReset (on_ext (pals_reset env) r1))).
Proof.
  intros Hkeep Hscene Hgds Hv s r0.
  assert (Heq : syncGame env s r
                = if negb (v <=? 4) then Abort (FatalError "Save game version too new")
                  else run_plan env (sync_plan v true) (loader_at v blob) r0).
  { rewrite (syncGame_plan env s r Hkeep), Hscene, Hgds. unfold sync_start. subst s.
    rewrite (syncVersion_of_blob v blob Hv). reflexivity. }
  split.
  - intros Hnew. rewrite Heq. destruct (Z.leb_spec v 4); [lia | reflexivity].
  - intros Hold result s1 r1 Hbefore Hok. rewrite Heq.
    destruct (Z.leb_spec v 4); [|lia]. cbn [negb].
    unfold sync_plan. rewrite run_plan_app, Hbefore. cbn [obind]. rewrite Hok.
    destruct (v <? 4).
    + cbn [app run_plan run_action subsystem_sync obind].
      destruct (sync_subsystem GamePals (pals_syncState env) s1 r1) as [[res s2] r2].
      reflexivity.
    + cbn [app run_plan run_action obind]. reflexivity.
Qed.

Lemma load_version_gate_witness :
  palette_after
    (syncGame (example_env None NoError)
       (loader (le_encode 4 3 ++ [5; 0; 0; 0; 0; 255; 255; 0; 0; 42; 2; 0; 1; 1;
                                   10; 0; 0; 0; 1; 0; 0; 0; 65]))
       (example_game 3 (example_inventory false 0) 9, []))
  = Some 42.
Proof.
  destruct (load_version_gate (example_env None NoError) 3
              [5; 0; 0; 0; 0; 255; 255; 0; 0; 42; 2; 0; 1; 1; 10; 0; 0; 0; 1; 0; 0; 0; 65]
              (example_game 3 (example_inventory false 0) 9, [])
              (example_env_keeps_mode None NoError) eq_refl eq_refl)
    as [_ Hold].
  - vm_compute. split; [discriminate | reflexivity].
  - erewrite Hold; cycle 1.
    + vm_compute. discriminate.
    + reflexivity.
    + reflexivity.
    + reflexivity.
Defined.

(** The version gate on the example world: version 5 is fatal, a
    version-3 blob restores the palette byte 42 from its palette block, and
    a version-4 blob resets the palette byte to its default. *)
Example version_gate_runs :
  syncGame (example_env None NoError)
    (loader (le_encode 4 5 ++ [5; 0; 0; 0; 0; 255; 255; 0; 0; 2; 0; 1; 1;
                                10; 0; 0; 0; 1; 0; 0; 0; 65]))
    (example_game 3 (example_inventory false 0) 9, [])
  = Abort (FatalError "Save game version too new") /\
  palette_after
    (syncGame (example_env None NoError)
       (loader (le_encode 4 3 ++ [5; 0; 0; 0; 0; 255; 255; 0; 0; 42; 2; 0; 1; 1;
                                   10; 0; 0; 0; 1; 0; 0; 0; 65]))
       (example_game 3 (example_inventory false 0) 9, []))
  = Some 42 /\
  palette_after
    (syncGame (example_env None NoError)
       (loader (le_encode 4 4 ++ [5; 0; 0; 0; 0; 255; 255; 0; 0; 2; 0; 1; 1;
                                   10; 0; 0; 0; 1; 0; 0; 0; 65]))
       (example_game 3 (example_inventory false 0) 9, []))
  = Some 0.
Proof. repeat split. Qed.

(* ===================================================================== *)
(** ** The fix-up of blanks before carriage returns *)

Lemma drop_end_blanks_blank (P : CString) :
  drop_end_blanks (P ++ [SPACE]) = drop_end_blanks P.
Proof.
  induction P as [|a P IH]; [reflexivity|].
  cbn [app drop_end_blanks]. rewrite IH. reflexivity.
Qed.

Lemma drop_end_blanks_other (P : CString) (c : ascii) :
  Ascii.eqb c SPACE = false -> drop_end_blanks (P ++ [c]) = P ++ [c].
Proof.
  intros Hc. induction P as [|a P IH].
  - cbn [app drop_end_blanks]. rewrite Hc. reflexivity.
  - cbn [app drop_end_blanks]. rewrite IH.
    destruct (P ++ [c]) eqn:E; [destruct P; discriminate E | reflexivity].
Qed.

Lemma drop_end_blanks_length (P : CString) :
  (List.length (drop_end_blanks P) <= List.length P)%nat.
Proof.
  induction P as [|a P IH]; [cbn; lia|].
  cbn [drop_end_blanks]. destruct (drop_end_blanks P) as [|b r].
  - destruct (Ascii.eqb a SPACE); cbn; lia.
  - cbn [List.length] in *. lia.
Qed.

Lemma nth_middle_app (P R : CString) (c : ascii) :
  nth (List.length P) (P ++ c :: R) Ascii.zero = c.
Proof. induction P as [|a P IH]; [reflexivity | exact IH]. Qed.

Lemma deleteChar_middle (P R : CString) (c : ascii) :
  deleteChar (P ++ c :: R) (List.length P) = P ++ R.
Proof.
  unfold deleteChar. induction P as [|a P IH]; [reflexivity|].
  cbn [app List.length firstn skipn] in *. rewrite IH. reflexivity.
Qed.

Lemma offset_less_run_empty (n off : Z) : offset_less_run n n off = off.
Proof. unfold offset_less_run. lia. Qed.

Lemma span_less_run_empty (n : Z) (actions : list DialogAction) :
  map (span_less_run n n) actions = actions.
Proof.
  induction actions as [|a rest IH]; [reflexivity|].
  cbn [map]. rewrite IH. unfold span_less_run. rewrite !offset_less_run_empty.
  destruct a; reflexivity.
Qed.

Lemma shift_offset_range (i off : Z) :
  1 <= i -> 0 <= off < 2 ^ 16 ->
  shift_offset i off = (if off >=? i then off - 1 else off)
  /\ 0 <= shift_offset i off < 2 ^ 16.
Proof.
  intros Hi Ho. unfold shift_offset, to_uint16.
  destruct (Z.geb_spec off i).
  - rewrite Z.mod_small by lia. lia.
  - lia.
Qed.

Lemma shift_span_range (i : Z) (actions : list DialogAction) :
  1 <= i -> Forall span_in_uint16 actions ->
  Forall span_in_uint16 (map (shift_span i) actions).
Proof.
  intros Hi Hall. induction Hall as [|a rest [Hs He] _ IH]; [constructor|].
  cbn [map]. constructor; [|exact IH].
  split; cbn [shift_span strStart strEnd]; apply shift_offset_range; assumption.
Qed.

(** The inner loop removes the blanks at the end of the text gone through
    and moves the spans accordingly. *)
Lemma fixup_blanks_spec (R : CString) : forall (P : CString) (actions : list DialogAction),
  fst (fst (fixup_blanks (List.length P) (P ++ R) actions)) = drop_end_blanks P ++ R
  /\ snd (fixup_blanks (List.length P) (P ++ R) actions) = List.length (drop_end_blanks P)
  /\ (Forall span_in_uint16 actions ->
      snd (fst (fixup_blanks (List.length P) (P ++ R) actions))
      = map (span_less_run (size (drop_end_blanks P)) (size P)) actions).
Proof.
  induction P as [|x P IH] using rev_ind; intros actions.
  - cbn. repeat split. intros _. symmetry. apply (span_less_run_empty 0).
  - rewrite <- app_assoc. cbn [app].
    rewrite length_app. cbn [List.length]. rewrite Nat.add_1_r.
    cbn [fixup_blanks]. rewrite nth_middle_app.
    destruct (Ascii.eqb x SPACE) eqn:Hx.
    + apply Ascii.eqb_eq in Hx. subst x.
      rewrite deleteChar_middle, drop_end_blanks_blank.
      destruct (IH (map (shift_span (Z.of_nat (S (List.length P)))) actions))
        as (Hstr & Hi & Hact).
      split; [exact Hstr|]. split; [exact Hi|].
      intros Hall. rewrite Hact by (apply shift_span_range; [lia | exact Hall]).
      rewrite map_map. apply map_ext_in. intros a Ha.
      rewrite Forall_forall in Hall. destruct (Hall a Ha) as [Hs He].
      pose proof (drop_end_blanks_length P) as Hlen.
      unfold span_less_run, shift_span. cbn [strStart strEnd sceneOpList].
      destruct (shift_offset_range (Z.of_nat (S (List.length P))) (strStart a)
                  ltac:(lia) Hs) as [-> _].
      destruct (shift_offset_range (Z.of_nat (S (List.length P))) (strEnd a)
                  ltac:(lia) He) as [-> _].
      unfold offset_less_run, size. rewrite length_app. cbn [List.length].
      f_equal.
      * destruct (Z.geb_spec (strStart a) (Z.of_nat (S (List.length P)))); lia.
      * destruct (Z.geb_spec (strEnd a) (Z.of_nat (S (List.length P)))); lia.
    + rewrite (drop_end_blanks_other P x Hx).
      cbn [fst snd]. rewrite <- app_assoc. cbn [app].
      split; [reflexivity|]. split; [rewrite length_app; cbn; lia|].
      intros _. symmetry. apply span_less_run_empty.
Qed.

Lemma trimmed_below_none (s : CString) (k : Z) :
  k <= 0 -> trimmed_below s (Z.to_nat k) = 0%nat.
Proof.
  intros Hk. replace (Z.to_nat k) with 0%nat by lia. destruct s; reflexivity.
Qed.

Lemma trimmed_below_cons (c : ascii) (rest : CString) (k : Z) :
  0 < k ->
  trimmed_below (c :: rest) (Z.to_nat k)
  = ((if Ascii.eqb c SPACE && leads_to_CR rest then 1 else 0)
     + trimmed_below rest (Z.to_nat (k - 1)))%nat.
Proof.
  intros Hk. replace (Z.to_nat k) with (S (Z.to_nat (k - 1))) by lia. reflexivity.
Qed.

Lemma trimmed_below_le (s : CString) : forall o, (trimmed_below s o <= o)%nat.
Proof.
  induction s as [|c rest IH]; intros [|o]; cbn [trimmed_below]; try lia.
  specialize (IH o). destruct (Ascii.eqb c SPACE && leads_to_CR rest); lia.
Qed.

Lemma CR_not_SPACE : Ascii.eqb CR SPACE = false.
Proof. reflexivity. Qed.

Lemma span_from_range (P R : CString) (actions : list DialogAction) :
  forall f : DialogAction -> DialogAction,
  (forall a, span_in_uint16 a -> span_from P R a = f a) ->
  Forall span_in_uint16 actions -> map (span_from P R) actions = map f actions.
Proof.
  intros f Hf Hall. apply map_ext_in. intros a Ha.
  rewrite Forall_forall in Hall. apply Hf, Hall, Ha.
Qed.

Lemma span_less_run_range (a b : Z) (actions : list DialogAction) :
  0 <= a <= b -> Forall span_in_uint16 actions ->
  Forall span_in_uint16 (map (span_less_run a b) actions).
Proof.
  intros Hab Hall. induction Hall as [|x rest [Hs He] _ IH]; [constructor|].
  cbn [map]. constructor; [|exact IH].
  split; cbn [span_less_run strStart strEnd]; unfold offset_less_run; lia.
Qed.

(** The outer loop, from the middle of the run: with [P] gone through and
    [R] to come, it ends with the blanks before carriage returns removed
    from [R] (and from the end of [P], when [R] leads to a carriage
    return). *)
Lemma fixup_from_spec : forall (R P : CString) (actions : list DialogAction),
  fst (fixup_from (List.length R) (List.length P) (P ++ R) actions)
  = (if leads_to_CR R then drop_end_blanks P else P) ++ trim_before_CR R
  /\ (Forall span_in_uint16 actions ->
      snd (fixup_from (List.length R) (List.length P) (P ++ R) actions)
      = map (span_from P R) actions).
Proof.
  induction R as [|c R IH]; intros P actions.
  - cbn [List.length fixup_from fst snd leads_to_CR trim_before_CR].
    split; [reflexivity|]. intros _.
    transitivity (map (fun a : DialogAction => a) actions); [now rewrite map_id|].
    apply map_ext. intros a. unfold span_from, offset_from. cbn [leads_to_CR].
    assert (Hz : forall k, trimmed_below [] k = 0%nat) by (intros [|k]; reflexivity).
    rewrite !Hz. destruct a; cbn. f_equal; lia.
  - cbn [List.length fixup_from]. rewrite nth_middle_app.
    pose proof (drop_end_blanks_length P) as Hlen.
    destruct (Ascii.eqb c CR) eqn:Hcr.
    + (* a carriage return: the blanks at the end of P go *)
      apply Ascii.eqb_eq in Hcr. subst c.
      destruct (fixup_blanks_spec (CR :: R) P actions) as (Hstr & Hi & Hact).
      destruct (fixup_blanks (List.length P) (P ++ CR :: R) actions) as [[str' acts'] i'].
      cbn [fst snd] in Hstr, Hi, Hact. subst str' i'.
      replace (drop_end_blanks P ++ CR :: R) with ((drop_end_blanks P ++ [CR]) ++ R)
        by (rewrite <- app_assoc; reflexivity).
      replace (S (List.length (drop_end_blanks P)))
        with (List.length (drop_end_blanks P ++ [CR]))
        by (rewrite length_app; cbn; lia).
      destruct (IH (drop_end_blanks P ++ [CR]) acts') as (IHstr & IHact).
      cbn [leads_to_CR trim_before_CR]. rewrite Ascii.eqb_refl, CR_not_SPACE.
      cbn [orb andb]. split.
      * rewrite IHstr. rewrite (drop_end_blanks_other _ CR CR_not_SPACE).
        destruct (leads_to_CR R); rewrite <- app_assoc; reflexivity.
      * intros Hall. specialize (Hact Hall). subst acts'.
        rewrite IHact
          by (apply span_less_run_range; [unfold size; lia | exact Hall]).
        rewrite map_map. apply map_ext_in. intros a Ha.
        rewrite Forall_forall in Hall. destruct (Hall a Ha) as [Hs He].
        unfold span_from, span_less_run. cbn [strStart strEnd sceneOpList].
        assert (Hoff : forall off, 0 <= off ->
                  offset_from (drop_end_blanks P ++ [CR]) R
                    (offset_less_run (size (drop_end_blanks P)) (size P) off)
                  = offset_from P (CR :: R) off).
        { intros off Hoff. unfold offset_from.
          rewrite (drop_end_blanks_other _ CR CR_not_SPACE).
          cbn [leads_to_CR]. rewrite Ascii.eqb_refl. cbn [orb].
          rewrite offset_less_run_empty.
          assert (Hsame : (if leads_to_CR R
                           then offset_less_run (size (drop_end_blanks P)) (size P) off
                           else offset_less_run (size (drop_end_blanks P)) (size P) off)
                          = offset_less_run (size (drop_end_blanks P)) (size P) off)
            by (destruct (leads_to_CR R); reflexivity).
          rewrite Hsame. f_equal.
          unfold size in *. rewrite length_app. cbn [List.length].
          destruct (Z_lt_le_dec (Z.of_nat (List.length P)) off) as [Hin|Hout].
          - rewrite (trimmed_below_cons CR R) by lia. rewrite CR_not_SPACE. cbn [andb].
            cbn [Nat.add].
            match goal with
            | |- Z.of_nat (trimmed_below R (Z.to_nat ?x)) = Z.of_nat (trimmed_below R (Z.to_nat ?y)) =>
                replace x with y by (unfold offset_less_run; lia)
            end. reflexivity.
          - rewrite !trimmed_below_none; [reflexivity | lia | unfold offset_less_run; lia]. }
        rewrite !Hoff by lia. reflexivity.
    + (* any other character joins the text gone through *)
      replace (P ++ c :: R) with ((P ++ [c]) ++ R) by (rewrite <- app_assoc; reflexivity).
      replace (S (List.length P)) with (List.length (P ++ [c]))
        by (rewrite length_app; cbn; lia).
      destruct (IH (P ++ [c]) actions) as (IHstr & IHact).
      cbn [leads_to_CR trim_before_CR]. rewrite Hcr. cbn [orb].
      destruct (Ascii.eqb c SPACE) eqn:Hsp; cbn [andb].
      * apply Ascii.eqb_eq in Hsp. subst c. split.
        -- rewrite IHstr, drop_end_blanks_blank.
           destruct (leads_to_CR R); [reflexivity|].
           rewrite <- app_assoc. reflexivity.
        -- intros Hall. rewrite (IHact Hall). apply map_ext_in. intros a Ha.
           rewrite Forall_forall in Hall. destruct (Hall a Ha) as [Hs He].
           unfold span_from. cbn [strStart strEnd sceneOpList].
           assert (Hoff : forall off, 0 <= off ->
                     offset_from (P ++ [SPACE]) R off = offset_from P (SPACE :: R) off).
           { intros off Hoff. unfold offset_from.
             rewrite drop_end_blanks_blank. cbn [leads_to_CR].
             rewrite Hcr. cbn [orb]. rewrite Ascii.eqb_refl. cbn [andb].
             unfold size in *. rewrite length_app. cbn [List.length].
             destruct (Z_lt_le_dec (Z.of_nat (List.length P)) off) as [Hin|Hout].
             - rewrite (trimmed_below_cons SPACE R) by lia.
               rewrite Ascii.eqb_refl. cbn [andb].
               replace (off - Z.of_nat (List.length P + 1))
                 with (off - Z.of_nat (List.length P) - 1) by lia.
               destruct (leads_to_CR R); unfold offset_less_run; lia.
             - rewrite !trimmed_below_none by lia.
               destruct (leads_to_CR R); unfold offset_less_run; lia. }
           rewrite !Hoff by lia. reflexivity.
      * split.
        -- rewrite IHstr, (drop_end_blanks_other P c Hsp).
           destruct (leads_to_CR R); rewrite <- app_assoc; reflexivity.
        -- intros Hall. rewrite (IHact Hall). apply map_ext_in. intros a Ha.
           rewrite Forall_forall in Hall. destruct (Hall a Ha) as [Hs He].
           unfold span_from. cbn [strStart strEnd sceneOpList].
           assert (Hoff : forall off, 0 <= off ->
                     offset_from (P ++ [c]) R off = offset_from P (c :: R) off).
           { intros off Hoff. unfold offset_from.
             rewrite (drop_end_blanks_other P c Hsp). cbn [leads_to_CR].
             rewrite Hcr, Hsp. cbn [orb andb].
             rewrite offset_less_run_empty.
             assert (Hsame : (if leads_to_CR R then off else off) = off)
               by (destruct (leads_to_CR R); reflexivity).
             rewrite Hsame.
             unfold size in *. rewrite length_app. cbn [List.length].
             destruct (Z_lt_le_dec (Z.of_nat (List.length P)) off) as [Hin|Hout].
             - rewrite (trimmed_below_cons c R) by lia. rewrite Hsp. cbn [andb].
               replace (off - Z.of_nat (List.length P + 1))
                 with (off - Z.of_nat (List.length P) - 1) by lia.
               lia.
             - rewrite !trimmed_below_none by lia. lia. }
           rewrite !Hoff by lia. reflexivity.
Qed.

Lemma fixup_text (d : Dialog) :
  _str (fixupStringAndActions d) = trim_before_CR (_str d).
Proof.
  unfold fixupStringAndActions.
  destruct (fixup_from_spec (_str d) [] (_action d)) as [Hstr _].
  cbn [List.length app] in Hstr.
  destruct (fixup_from (List.length (_str d)) 0 (_str d) (_action d)) as [str actions].
  cbn [fst] in Hstr. subst str. cbn [_str set_text].
  destruct (leads_to_CR (_str d)); reflexivity.
Qed.

Lemma fixup_spans (d : Dialog) :
  Forall span_in_uint16 (_action d) ->
  _action (fixupStringAndActions d) = map (span_after_trim (_str d)) (_action d).
Proof.
  intros Hall. unfold fixupStringAndActions.
  destruct (fixup_from_spec (_str d) [] (_action d)) as [_ Hact].
  cbn [List.length app] in Hact. specialize (Hact Hall).
  destruct (fixup_from (List.length (_str d)) 0 (_str d) (_action d)) as [str actions].
  cbn [snd] in Hact. subst actions. cbn [_action set_text].
  apply map_ext_in. intros a Ha.
  rewrite Forall_forall in Hall. destruct (Hall a Ha) as [Hs He].
  unfold span_from, span_after_trim, offset_from, offset_after_trim, offset_less_run, size.
  cbn [drop_end_blanks List.length]. rewrite !Z.sub_0_r.
  f_equal; destruct (leads_to_CR (_str d)); lia.
Qed.

Lemma trim_starts_with_CR (s : CString) :
  match trim_before_CR s with
  | c :: _ => Ascii.eqb c CR
  | [] => false
  end = leads_to_CR s.
Proof.
  induction s as [|a r IH]; [reflexivity|].
  cbn [trim_before_CR leads_to_CR].
  destruct (Ascii.eqb a SPACE) eqn:Hsp; cbn [andb].
  - destruct (leads_to_CR r) eqn:Hr.
    + rewrite IH. now rewrite orb_true_r.
    + rewrite orb_false_r. reflexivity.
  - rewrite orb_false_r. reflexivity.
Qed.

Lemma trim_leads_to_CR (s : CString) :
  leads_to_CR (trim_before_CR s) = leads_to_CR s.
Proof.
  induction s as [|a r IH]; [reflexivity|].
  cbn [trim_before_CR leads_to_CR].
  destruct (Ascii.eqb a SPACE) eqn:Hsp; cbn [andb].
  - destruct (leads_to_CR r) eqn:Hr.
    + rewrite IH. now rewrite orb_true_r.
    + cbn [leads_to_CR]. rewrite Hsp, IH. reflexivity.
  - cbn [leads_to_CR]. rewrite Hsp. reflexivity.
Qed.

Lemma trim_idempotent (s : CString) :
  trim_before_CR (trim_before_CR s) = trim_before_CR s.
Proof.
  induction s as [|a r IH]; [reflexivity|].
  cbn [trim_before_CR].
  destruct (Ascii.eqb a SPACE && leads_to_CR r) eqn:Hrm; [exact IH|].
  cbn [trim_before_CR]. rewrite trim_leads_to_CR, Hrm, IH. reflexivity.
Qed.

Lemma trimmed_below_trim (s : CString) : forall o,
  trimmed_below (trim_before_CR s) o = 0%nat.
Proof.
  induction s as [|a r IH]; intros o.
  - destruct o; reflexivity.
  - cbn [trim_before_CR].
    destruct (Ascii.eqb a SPACE && leads_to_CR r) eqn:Hrm; [apply IH|].
    destruct o as [|o]; [reflexivity|].
    cbn [trimmed_below]. rewrite trim_leads_to_CR, Hrm, IH. reflexivity.
Qed.

Lemma trim_no_blank_before_CR (s : CString) : forall i,
  nth i (trim_before_CR s) Ascii.zero = SPACE ->
  nth (S i) (trim_before_CR s) Ascii.zero <> CR.
Proof.
  induction s as [|a r IH]; intros i.
  - destruct i; discriminate.
  - cbn [trim_before_CR].
    destruct (Ascii.eqb a SPACE && leads_to_CR r) eqn:Hrm; [apply IH|].
    destruct i as [|i]; [|apply IH].
    cbn [nth]. intros Ha Hnext. subst a. rewrite Ascii.eqb_refl in Hrm. cbn [andb] in Hrm.
    pose proof (trim_starts_with_CR r) as Hst. rewrite Hrm in Hst.
    destruct (trim_before_CR r) as [|c t]; [discriminate Hnext|].
    cbn [nth] in Hnext. subst c. discriminate Hst.
Qed.

Lemma trimmed_at_cons (c : ascii) (rest : CString) (o : nat) :
  trimmed_at (c :: rest) (S o) = trimmed_at rest o.
Proof. reflexivity. Qed.

(** A character that stays is found at its new offset. *)
Lemma trim_keeps_character (s : CString) : forall o,
  (o < List.length s)%nat -> trimmed_at s o = false ->
  nth (o - trimmed_below s o) (trim_before_CR s) Ascii.zero = nth o s Ascii.zero.
Proof.
  induction s as [|a r IH]; intros o Ho Hat; [cbn in Ho; lia|].
  destruct o as [|o].
  - unfold trimmed_at in Hat. cbn [skipn] in Hat.
    cbn [trimmed_below trim_before_CR Nat.sub]. rewrite Hat. reflexivity.
  - rewrite trimmed_at_cons in Hat. cbn [List.length] in Ho.
    specialize (IH o ltac:(lia) Hat). pose proof (trimmed_below_le r o) as Hle.
    cbn [trimmed_below trim_before_CR nth].
    destruct (Ascii.eqb a SPACE && leads_to_CR r).
    + replace (S o - (1 + trimmed_below r o))%nat with (o - trimmed_below r o)%nat by lia.
      exact IH.
    + replace (S o - (0 + trimmed_below r o))%nat with (S (o - trimmed_below r o)) by lia.
      exact IH.
Qed.

(** The offset of a blank that goes ends on the carriage return that
    closed its run. *)
Lemma trim_moves_to_CR (s : CString) : forall o,
  trimmed_at s o = true ->
  nth (o - trimmed_below s o) (trim_before_CR s) Ascii.zero = CR.
Proof.
  induction s as [|a r IH]; intros o Hat.
  - unfold trimmed_at in Hat. rewrite skipn_nil in Hat. discriminate Hat.
  - destruct o as [|o].
    + unfold trimmed_at in Hat. cbn [skipn] in Hat.
      cbn [trimmed_below trim_before_CR Nat.sub]. rewrite Hat.
      apply andb_prop in Hat. destruct Hat as [_ Hr].
      pose proof (trim_starts_with_CR r) as Hst. rewrite Hr in Hst.
      destruct (trim_before_CR r) as [|c t]; [discriminate Hst|].
      cbn [nth]. now apply Ascii.eqb_eq.
    + rewrite trimmed_at_cons in Hat. specialize (IH o Hat).
      pose proof (trimmed_below_le r o) as Hle.
      cbn [trimmed_below trim_before_CR nth].
      destruct (Ascii.eqb a SPACE && leads_to_CR r).
      * replace (S o - (1 + trimmed_below r o))%nat with (o - trimmed_below r o)%nat by lia.
        exact IH.
      * replace (S o - (0 + trimmed_below r o))%nat with (S (o - trimmed_below r o)) by lia.
        exact IH.
Qed.

Lemma trimmed_below_step (s : CString) : forall o k,
  (trimmed_below s o <= trimmed_below s (o + k) <= trimmed_below s o + k)%nat.
Proof.
  induction s as [|a r IH]; intros o k.
  - assert (Hz : forall n, trimmed_below [] n = 0%nat) by (intros [|n]; reflexivity).
    rewrite !Hz. lia.
  - destruct o as [|o].
    + change (trimmed_below (a :: r) 0) with 0%nat. cbn [Nat.add].
      pose proof (trimmed_below_le (a :: r) k). lia.
    + cbn [Nat.add trimmed_below]. specialize (IH o k). lia.
Qed.

Lemma offset_after_trim_range (s : CString) (off : Z) :
  0 <= off -> 0 <= offset_after_trim s off <= off.
Proof.
  intros Ho. unfold offset_after_trim.
  pose proof (trimmed_below_le s (Z.to_nat off)). lia.
Qed.

Lemma offset_after_trim_mono (s : CString) (o1 o2 : Z) :
  0 <= o1 <= o2 -> offset_after_trim s o1 <= offset_after_trim s o2.
Proof.
  intros Ho. unfold offset_after_trim.
  pose proof (trimmed_below_step s (Z.to_nat o1) (Z.to_nat (o2 - o1))) as Hst.
  replace (Z.to_nat o1 + Z.to_nat (o2 - o1))%nat with (Z.to_nat o2) in Hst by lia.
  lia.
Qed.

Lemma trim_length (s : CString) :
  (List.length (trim_before_CR s) <= List.length s)%nat.
Proof.
  induction s as [|a r IH]; [cbn; lia|].
  cbn [trim_before_CR]. destruct (Ascii.eqb a SPACE && leads_to_CR r); cbn [List.length]; lia.
Qed.

Lemma fixup_as_set_text (d : Dialog) :
  fixupStringAndActions d
  = set_text d (_str (fixupStringAndActions d)) (_action (fixupStringAndActions d)).
Proof.
  unfold fixupStringAndActions.
  destruct (fixup_from (List.length (_str d)) 0 (_str d) (_action d)) as [str actions].
  reflexivity.
Qed.

Lemma span_after_trim_range (s : CString) (actions : list DialogAction) :
  Forall span_in_uint16 actions ->
  Forall span_in_uint16 (map (span_after_trim s) actions).
Proof.
  intros Hall. induction Hall as [|a rest [Hs He] _ IH]; [constructor|].
  cbn [map]. constructor; [|exact IH].
  pose proof (offset_after_trim_range s (strStart a) ltac:(lia)).
  pose proof (offset_after_trim_range s (strEnd a) ltac:(lia)).
  split; cbn [span_after_trim strStart strEnd]; lia.
Qed.

(** [fixupStringAndActions] leaves no blank directly before a carriage
    return. *)
Theorem fixup_leaves_no_blank_before_CR (d : Dialog) (i : nat) :
  nth i (_str (fixupStringAndActions d)) Ascii.zero = SPACE ->
  nth (S i) (_str (fixupStringAndActions d)) Ascii.zero <> CR.
Proof.
  rewrite fixup_text. apply trim_no_blank_before_CR.
Qed.

Lemma fixup_leaves_no_blank_before_CR_witness :
  nth 7 (_str (fixupStringAndActions blank_dialog)) Ascii.zero <> CR.
Proof.
  apply (fixup_leaves_no_blank_before_CR blank_dialog 6). reflexivity.
Defined.

(** The text that [fixupStringAndActions] leaves is the text without the
    blanks that stood in a run directly before a carriage return: every
    other character stays, in order, and nothing but the text and the spans
    of the dialog changes. *)
Theorem fixup_text_is_trimmed (d : Dialog) :
  _str (fixupStringAndActions d) = trim_before_CR (_str d)
  /\ size (_str (fixupStringAndActions d)) <= size (_str d)
  /\ fixupStringAndActions d
     = set_text d (_str (fixupStringAndActions d)) (_action (fixupStringAndActions d)).
Proof.
  split; [apply fixup_text|]. split; [|apply fixup_as_set_text].
  rewrite fixup_text. unfold size. pose proof (trim_length (_str d)). lia.
Qed.

(** [fixupStringAndActions] lowers every span offset by the number of
    removed blanks that stood before it, so that the spans stay in order
    and within the text. *)
Theorem fixup_moves_spans (d : Dialog) :
  Forall span_in_uint16 (_action d) ->
  _action (fixupStringAndActions d) = map (span_after_trim (_str d)) (_action d)
  /\ Forall2 (fun a a' => (strStart a <= strEnd a -> strStart a' <= strEnd a')
                          /\ 0 <= strStart a' <= strStart a
                          /\ 0 <= strEnd a' <= strEnd a
                          /\ sceneOpList a' = sceneOpList a)
             (_action d) (_action (fixupStringAndActions d)).
Proof.
  intros Hall. rewrite (fixup_spans d Hall). split; [reflexivity|].
  induction Hall as [|a rest [Hs He] _ IH]; [constructor|].
  cbn [map]. constructor; [|exact IH].
  cbn [span_after_trim strStart strEnd sceneOpList].
  pose proof (offset_after_trim_range (_str d) (strStart a) ltac:(lia)).
  pose proof (offset_after_trim_range (_str d) (strEnd a) ltac:(lia)).
  repeat split; try lia.
  intros Hord. apply offset_after_trim_mono. lia.
Qed.

Lemma fixup_moves_spans_witness :
  _action (fixupStringAndActions blank_dialog)
  = [ {| strStart := 3; strEnd := 4; sceneOpList := [] |} ].
Proof.
  destruct (fixup_moves_spans blank_dialog) as [Heq _].
  - repeat constructor; cbn; lia.
  - rewrite Heq. reflexivity.
Defined.

(** A span offset that pointed at a character that stays points at the same
    character after [fixupStringAndActions]; one that pointed at a removed
    blank points at the carriage return that closed the run of blanks. *)
Theorem fixup_offsets_keep_their_character (d : Dialog) (off : Z) :
  0 <= off < size (_str d) ->
  nth (Z.to_nat (offset_after_trim (_str d) off)) (_str (fixupStringAndActions d)) Ascii.zero
  = if trimmed_at (_str d) (Z.to_nat off) then CR
    else nth (Z.to_nat off) (_str d) Ascii.zero.
Proof.
  intros Ho. rewrite fixup_text. unfold offset_after_trim, size in *.
  replace (Z.to_nat (off - Z.of_nat (trimmed_below (_str d) (Z.to_nat off))))
    with (Z.to_nat off - trimmed_below (_str d) (Z.to_nat off))%nat by lia.
  destruct (trimmed_at (_str d) (Z.to_nat off)) eqn:Hat.
  - apply trim_moves_to_CR. exact Hat.
  - apply trim_keeps_character; [lia | exact Hat].
Qed.

Lemma fixup_offsets_keep_their_character_witness :
  nth 3 (_str (fixupStringAndActions blank_dialog)) Ascii.zero = "G"%char.
Proof.
  apply (fixup_offsets_keep_their_character blank_dialog 5). cbn. lia.
Defined.

(** [fixupStringAndActions] is idempotent: a second run changes nothing. *)
Theorem fixup_idempotent (d : Dialog) :
  Forall span_in_uint16 (_action d) ->
  fixupStringAndActions (fixupStringAndActions d) = fixupStringAndActions d.
Proof.
  intros Hall.
  assert (Hrange : Forall span_in_uint16 (_action (fixupStringAndActions d)))
    by (rewrite (fixup_spans d Hall); apply span_after_trim_range; exact Hall).
  assert (Hstr : _str (fixupStringAndActions (fixupStringAndActions d))
                 = _str (fixupStringAndActions d))
    by (rewrite (fixup_text (fixupStringAndActions d)), (fixup_text d);
        apply trim_idempotent).
  assert (Hact : _action (fixupStringAndActions (fixupStringAndActions d))
                 = _action (fixupStringAndActions d)).
  { rewrite (fixup_spans _ Hrange), (fixup_text d).
    transitivity (map (fun a : DialogAction => a) (_action (fixupStringAndActions d)));
      [|apply map_id].
    apply map_ext. intros a. unfold span_after_trim, offset_after_trim.
    rewrite !trimmed_below_trim. destruct a; cbn. f_equal; lia. }
  rewrite (fixup_as_set_text (fixupStringAndActions d)), Hstr, Hact.
  destruct (fixupStringAndActions d); reflexivity.
Qed.

Lemma fixup_idempotent_witness :
  fixupStringAndActions (fixupStringAndActions blank_dialog)
  = fixupStringAndActions blank_dialog.
Proof.
  apply (fixup_idempotent blank_dialog). repeat constructor; cbn; lia.
Defined.

(* ===================================================================== *)
(** ** Dialog flags *)

Lemma testbit_to_uint32 (a i : Z) :
  0 <= i -> Z.testbit (to_uint32 a) i = (i <? 32) && Z.testbit a i.
Proof.
  intros Hi. unfold to_uint32. destruct (Z.ltb_spec i 32).
  - rewrite Z.mod_pow2_bits_low by lia. reflexivity.
  - rewrite Z.mod_pow2_bits_high by lia. reflexivity.
Qed.

Lemma land_clear_same (x b : Z) : Z.land (Z.land x (to_uint32 (Z.lnot b))) b = 0.
Proof.
  apply Z.bits_inj'. intros i Hi.
  rewrite !Z.land_spec, testbit_to_uint32, Z.lnot_spec, Z.bits_0 by assumption.
  destruct (Z.testbit x i), (i <? 32), (Z.testbit b i); reflexivity.
Qed.

Lemma land_clear_stays (x m b : Z) : Z.land x b = 0 -> Z.land (Z.land x m) b = 0.
Proof.
  intros H. apply Z.bits_inj'. intros i Hi.
  assert (Hb : Z.testbit (Z.land x b) i = false) by (rewrite H; apply Z.bits_0).
  rewrite Z.land_spec in Hb. rewrite !Z.land_spec, Z.bits_0.
  destruct (Z.testbit x i), (Z.testbit m i), (Z.testbit b i); try reflexivity; discriminate Hb.
Qed.

Lemma land_clear_other (x b g : Z) :
  0 <= g < 2 ^ 32 -> Z.land g b = 0 ->
  Z.land (Z.land x (to_uint32 (Z.lnot b))) g = Z.land x g.
Proof.
  intros Hg Hgb. apply Z.bits_inj'. intros i Hi.
  assert (Hb : Z.testbit (Z.land g b) i = false) by (rewrite Hgb; apply Z.bits_0).
  assert (Hhigh : 32 <= i -> Z.testbit g i = false).
  { intros H32. rewrite <- (Z.mod_small g (2 ^ 32)) by lia.
    apply Z.mod_pow2_bits_high. lia. }
  rewrite Z.land_spec in Hb.
  rewrite !Z.land_spec, testbit_to_uint32, Z.lnot_spec by assumption.
  destruct (Z.ltb_spec i 32).
  - destruct (Z.testbit x i), (Z.testbit b i), (Z.testbit g i);
      try reflexivity; discriminate Hb.
  - rewrite (Hhigh ltac:(lia)). destruct (Z.testbit x i); reflexivity.
Qed.

Lemma set_flags_twice (d : Dialog) (f g : Z) : set_flags (set_flags d f) g = set_flags d g.
Proof. reflexivity. Qed.

Lemma set_flags_same (d : Dialog) : set_flags d (_flags d) = d.
Proof. destruct d; reflexivity. Qed.

(** The flag operations compose as set operations on bits: a cleared flag
    is not set, a flag that has been set is set unless it is the empty
    flag, setting and clearing twice is as good as once, and flipping twice
    gives the dialog back. *)
Theorem flag_laws (d : Dialog) (flg : DialogFlags) :
  hasFlag (clearFlag d flg) flg = false
  /\ hasFlag (setFlag d flg) flg = negb (flag_bits flg =? 0)
  /\ setFlag (setFlag d flg) flg = setFlag d flg
  /\ clearFlag (clearFlag d flg) flg = clearFlag d flg
  /\ flipFlag (flipFlag d flg) flg = d.
Proof.
  unfold hasFlag, clearFlag, setFlag, flipFlag.
  rewrite !set_flags_twice. cbn [_flags set_flags].
  split; [rewrite land_clear_same; reflexivity|].
  split.
  { replace (Z.land (Z.lor (_flags d) (flag_bits flg)) (flag_bits flg)) with (flag_bits flg);
      [reflexivity|].
    apply Z.bits_inj'. intros i Hi. rewrite Z.land_spec, Z.lor_spec.
    destruct (Z.testbit (_flags d) i), (Z.testbit (flag_bits flg) i); reflexivity. }
  split.
  { f_equal. apply Z.bits_inj'. intros i Hi. rewrite !Z.lor_spec.
    destruct (Z.testbit (_flags d) i), (Z.testbit (flag_bits flg) i); reflexivity. }
  split.
  { f_equal. apply Z.bits_inj'. intros i Hi. rewrite !Z.land_spec.
    destruct (Z.testbit (_flags d) i), (Z.testbit (to_uint32 (Z.lnot (flag_bits flg))) i);
      reflexivity. }
  rewrite Z.lxor_assoc, Z.lxor_nilpotent, Z.lxor_0_r. apply set_flags_same.
Qed.

(** [Dialog::clear] drops the transient state and leaves none of the six
    flags it names set. *)
Theorem clear_drops_state_and_flags (d : Dialog) :
  _state (clear d) = None
  /\ hasFlag (clear d) kDlgFlagHiFinished = false
  /\ hasFlag (clear d) kDlgFlagRedrawSelectedActionChanged = false
  /\ hasFlag (clear d) kDlgFlagHi10 = false
  /\ hasFlag (clear d) kDlgFlagHi20 = false
  /\ hasFlag (clear d) kDlgFlagHi40 = false
  /\ hasFlag (clear d) kDlgFlagVisible = false.
Proof.
  unfold clear, hasFlag, clearFlag. rewrite !set_flags_twice. cbn [_state _flags set_state set_flags].
  split; [reflexivity|].
  repeat split;
    repeat first [ rewrite land_clear_same; reflexivity
                 | rewrite land_clear_stays; [reflexivity|] ].
Qed.

(** [Dialog::clear] leaves every flag alone whose bits are none of the six
    it clears, and changes nothing but the flags and the transient state. *)
Theorem clear_keeps_other_flags (d : Dialog) (flg : DialogFlags) :
  0 <= flag_bits flg < 2 ^ 32 ->
  (forall c, In c [kDlgFlagHiFinished; kDlgFlagRedrawSelectedActionChanged; kDlgFlagHi10;
                   kDlgFlagHi20; kDlgFlagHi40; kDlgFlagVisible] ->
             Z.land (flag_bits flg) (flag_bits c) = 0) ->
  hasFlag (clear d) flg = hasFlag d flg
  /\ clear d = set_state (set_flags d (_flags (clear d))) None.
Proof.
  intros Hrange Hother. split; [|reflexivity].
  unfold clear, hasFlag, clearFlag. rewrite !set_flags_twice.
  cbn [_state _flags set_state set_flags].
  rewrite !land_clear_other; try assumption; try reflexivity;
    apply Hother; cbn [In]; tauto.
Qed.

Lemma clear_keeps_other_flags_witness :
  hasFlag (clear (example_dialog kDlgFramePlain 8388610 "Hello" [] None)) kDlgFlagLeftJust
  = hasFlag (example_dialog kDlgFramePlain 8388610 "Hello" [] None) kDlgFlagLeftJust.
Proof.
  apply (clear_keeps_other_flags (example_dialog kDlgFramePlain 8388610 "Hello" [] None)
           kDlgFlagLeftJust).
  - cbn. lia.
  - intros c Hc. cbn [In] in Hc.
    repeat (destruct Hc as [<-|Hc]; [reflexivity|]). contradiction.
Defined.

(* ===================================================================== *)
(** ** Wrapped lines and hit-testing *)

Lemma wrappedLineOffsets_from_closed (lines : list CString) : forall off,
  wrappedLineOffsets_from off lines
  = map (fun k => off + line_offset lines k) (seq 0 (List.length lines)).
Proof.
  induction lines as [|l rest IH]; intros off; [reflexivity|].
  cbn [wrappedLineOffsets_from List.length seq map].
  f_equal.
  - unfold line_offset. cbn. lia.
  - rewrite IH, <- seq_shift, map_map. apply map_ext. intros k.
    rewrite line_offset_S. lia.
Qed.

(** [_wrappedLineOffsets] returns one more value than there are lines: the
    entry of a line is the number of characters of the lines before it,
    each counted with the break character that followed it, and the last
    entry is the size of the string. *)
Theorem wrappedLineOffsets_closed_form (s : CString) (lines : list CString) :
  _wrappedLineOffsets s lines
  = map (line_offset lines) (seq 0 (List.length lines)) ++ [size s]
  /\ List.length (_wrappedLineOffsets s lines) = S (List.length lines)
  /\ nth 0 (_wrappedLineOffsets s lines) 0 = match lines with [] => size s | _ :: _ => 0 end
  /\ last (_wrappedLineOffsets s lines) 0 = size s.
Proof.
  unfold _wrappedLineOffsets. rewrite wrappedLineOffsets_from_closed.
  split; [f_equal; apply map_ext; intros k; lia|].
  split; [rewrite length_app, length_map, length_seq; cbn; lia|].
  split; [destruct lines; reflexivity|].
  apply last_last.
Qed.

(** The offset found by [drawFindSelectionTxtOffset] is never negative, and
    never beyond the end of the text when the wrapped lines are cut out of
    the text; nothing but the stored offset changes. *)
Theorem TxtOffset_within_text (eng : EngineView) (d : Dialog) (st : DialogState) :
  _state d = Some st ->
  exists o,
    drawFindSelectionTxtOffset eng d = set_state d (Some (set_strMouseLoc st o))
    /\ 0 <= o
    /\ (lines_of (_str d)
          (fst (wordWrapText (getDlgTextFont eng d) (_str d) (DgdsRect.width (_loc st))))
        -> o <= size (_str d)).
Proof.
  intros Hs. unfold drawFindSelectionTxtOffset. rewrite Hs.
  set (font := getDlgTextFont eng d).
  destruct (wordWrapText font (_str d) (DgdsRect.width (_loc st))) as [lines maxWidth].
  cbn [fst].
  set (origin := if hasFlag d kDlgFlagLeftJust then _ else _).
  destruct origin as [left top].
  destruct (txt_skip_lines_spec (_wrappedLineOffsets (_str d) lines) (getFontHeight font)
              (_lastMouseY st) (List.length lines) 0 0 top)
    as (k & Heq & Hk & _ & _).
  rewrite Heq.
  set (totalchars := if (k =? 0)%nat then 0 else _).
  assert (Htot : totalchars = line_offset lines k \/ (k = List.length lines
                                                      /\ totalchars = size (_str d))).
  { subst totalchars. destruct (Nat.eqb_spec k 0) as [E|E]; [left; rewrite E; reflexivity|].
    rewrite wrappedLineOffsets_nth by lia.
    destruct (Nat.ltb_spec k (List.length lines)); [left; reflexivity | right; lia]. }
  pose proof (txt_scan_lines_spec font (_lastMouseX st) left (skipn k lines) totalchars)
    as Hscan.
  destruct (txt_scan_lines font (skipn k lines) (_lastMouseX st) left totalchars) as [r|].
  - exists r. split; [reflexivity|].
    destruct Hscan as (j & c & Hr & (Hj & Hc & _)).
    rewrite length_skipn_sub in Hj. rewrite nth_skipn_add in Hc.
    destruct Htot as [Htot | [Hend _]]; [|lia].
    rewrite Htot, <- line_offset_skipn in Hr.
    pose proof (line_offset_nonneg lines (k + j)).
    split; [lia|]. intros Hlines.
    destruct (lines_of_nth lines (_str d) (k + j) Hlines ltac:(lia)) as [_ Hfit].
    assert (Hne : nth (k + j) lines [] <> [])
      by (destruct (nth (k + j) lines []); [cbn in Hc; lia | discriminate]).
    specialize (Hfit Hne). unfold size in *. lia.
  - exists (size (_str d)). split; [reflexivity|].
    pose proof (size_nonneg (_str d)). split; [lia|]. intros _. lia.
Qed.

Lemma TxtOffset_within_text_witness :
  exists o,
    drawFindSelectionTxtOffset (example_engine (0, 0) 0) (two_line_dialog 33 15 0)
    = set_state (two_line_dialog 33 15 0)
        (Some (set_strMouseLoc
                 (set_lastMouse (example_state (DgdsRect.mk 13 13 294 54) 0 None) 33 15) o))
    /\ 0 <= o.
Proof.
  destruct (TxtOffset_within_text (example_engine (0, 0) 0) (two_line_dialog 33 15 0)
              (set_lastMouse (example_state (DgdsRect.mk 13 13 294 54) 0 None) 33 15)
              eq_refl) as (o & Heq & Hpos & _).
  exists o. split; assumption.
Defined.

Lemma XY_only_state (eng : EngineView) (d d' : Dialog) :
  drawFindSelectionXY eng d = Done d' -> d' = set_state d (_state d').
Proof.
  unfold drawFindSelectionXY.
  destruct (_state d) as [st|] eqn:Hs.
  - intros H. repeat break_match; try discriminate H; injection H as <-; reflexivity.
  - intros H. injection H as <-. rewrite Hs. destruct d; cbn in *; subst; reflexivity.
Qed.

Lemma TxtOffset_only_state (eng : EngineView) (d : Dialog) :
  drawFindSelectionTxtOffset eng d
  = set_state d (_state (drawFindSelectionTxtOffset eng d)).
Proof.
  unfold drawFindSelectionTxtOffset.
  destruct (_state d) as [st|] eqn:Hs.
  - repeat break_match; reflexivity.
  - rewrite Hs. destruct d; cbn in *; subst; reflexivity.
Qed.

Lemma set_state_twice (d : Dialog) (a b : option DialogState) :
  set_state (set_state d a) b = set_state d b.
Proof. reflexivity. Qed.

(** The two hit-testing stages of [Dialog::draw] never touch the surface:
    whatever surface is handed in, also none, the outcome is the same, the
    surface comes back as it was and only the transient state of the dialog
    changes. *)
Theorem selection_stages_spare_surface
    (eng : EngineView) (dst : option ManagedSurface) (d : Dialog) :
  (match draw eng dst kDlgDrawFindSelectionPointXY d with
   | Done (d', dst') =>
       dst' = dst /\ d' = set_state d (_state d')
       /\ draw eng None kDlgDrawFindSelectionPointXY d = Done (d', None)
   | Abort f => draw eng None kDlgDrawFindSelectionPointXY d = Abort f
   end)
  /\ (match draw eng dst kDlgDrawFindSelectionTxtOffset d with
      | Done (d', dst') =>
          dst' = dst /\ d' = set_state d (_state d')
          /\ draw eng None kDlgDrawFindSelectionTxtOffset d = Done (d', None)
      | Abort f => draw eng None kDlgDrawFindSelectionTxtOffset d = Abort f
      end).
Proof.
  unfold draw.
  set (d0 := match _state d with
             | Some _ => d
             | None => set_state d (Some new_DialogState)
             end).
  assert (Hd0 : exists st0, _state d0 = Some st0 /\ d0 = set_state d (Some st0)).
  { subst d0. destruct (_state d) as [st|] eqn:Hs.
    - exists st. split; [exact Hs|]. destruct d; cbn in *; subst; reflexivity.
    - eexists. split; reflexivity. }
  destruct Hd0 as (st0 & Hs0 & Hd0).
  assert (HXY : forall sf,
            selectionXY eng sf d0
            = match drawFindSelectionXY eng d0 with
              | Done d' => Done (d', sf)
              | Abort f => Abort f
              end)
    by (intros sf; unfold selectionXY; destruct (drawFindSelectionXY eng d0); reflexivity).
  assert (Hshape : forall d', drawFindSelectionXY eng d0 = Done d' ->
                              d' = set_state d (_state d')).
  { intros d' H. rewrite (XY_only_state eng d0 d' H), Hd0. reflexivity. }
  assert (Htxt : drawFindSelectionTxtOffset eng d0
                 = set_state d (_state (drawFindSelectionTxtOffset eng d0))).
  { rewrite (TxtOffset_only_state eng d0) at 1. rewrite Hd0 at 1. reflexivity. }
  split.
  - destruct (_frameType d0); unfold drawType1, drawType2, drawType3, drawType4;
      rewrite ?Hs0; try reflexivity;
      repeat match goal with
             | |- context [let '(_, _) := ?x in _] => destruct x
             end;
      rewrite !HXY; destruct (drawFindSelectionXY eng d0) as [d'|f] eqn:Hrun;
      try reflexivity;
      (split; [reflexivity | split; [apply Hshape; reflexivity | reflexivity]]).
  - destruct (_frameType d0); unfold drawType1, drawType2, drawType3, drawType4;
      rewrite ?Hs0; try reflexivity;
      repeat match goal with
             | |- context [let '(_, _) := ?x in _] => destruct x
             end;
      unfold selectionTxtOffset;
      (split; [reflexivity | split; [exact Htxt | reflexivity]]).
Qed.

Lemma selection_stages_spare_offsets (eng : EngineView) (d2 : Dialog) :
  forall d3 dst3, draw eng None kDlgDrawFindSelectionTxtOffset d2 = Done (d3, dst3) ->
                  d3 = set_state d2 (_state d3) /\ _action d3 = _action d2.
Proof.
  intros d3 dst3 H.
  unfold draw in H.
  set (d0 := match _state d2 with
             | Some _ => d2
             | None => set_state d2 (Some new_DialogState)
             end) in H.
  assert (Hd0 : exists st0, _state d0 = Some st0 /\ d0 = set_state d2 (Some st0)).
  { subst d0. destruct (_state d2) as [st|] eqn:Hs.
    - exists st. split; [exact Hs|]. destruct d2; cbn in *; subst; reflexivity.
    - eexists. split; reflexivity. }
  destruct Hd0 as (st0 & Hs0 & Hd0).
  assert (Hres : d3 = drawFindSelectionTxtOffset eng d0).
  { destruct (_frameType d0); unfold drawType1, drawType2, drawType3, drawType4 in H;
      rewrite ?Hs0 in H; try discriminate H;
      repeat match type of H with
             | context [let '(_, _) := ?x in _] => destruct x
             end;
      unfold selectionTxtOffset in H; injection H as <- _; reflexivity. }
  subst d3. split.
  - rewrite (TxtOffset_only_state eng d0) at 1. rewrite Hd0 at 1. reflexivity.
  - destruct (TxtOffset_fields eng d0) as [_ ->]. rewrite Hd0. reflexivity.
Qed.

Lemma pick_under_mouse_range (str : CString) (o : Z) (u : ascii)
    (actions : list DialogAction) : forall (i k : nat),
  pick_under_mouse str o u actions i = Done (Some k) ->
  (i <= k < i + List.length actions)%nat.
Proof.
  induction actions as [|a rest IH]; intros i k H; [discriminate H|].
  cbn [pick_under_mouse List.length] in *.
  destruct ((strStart a <=? o) && (o <=? strEnd a)).
  - injection H as <-. lia.
  - destruct ((o =? strEnd a + 1) && Ascii.eqb u CR).
    + destruct (char_at str (strEnd a)) as [c|f]; cbn [obind] in H; [|discriminate H].
      destruct (negb (Ascii.eqb c CR)).
      * injection H as <-. lia.
      * specialize (IH _ _ H). lia.
    + cbn [obind] in H. specialize (IH _ _ H). lia.
Qed.

(** [pickAction] never answers with an action outside the dialog's list of
    actions, and leaves everything but the transient state of the dialog as
    it was. *)
Theorem pickAction_within_actions
    (eng : EngineView) (isClosing isForceClose : bool) (d : Dialog) :
  match pickAction eng isClosing isForceClose d with
  | Done (picked, d') =>
      d' = set_state d (_state d')
      /\ match picked with
         | Some i => exists a, nth_error (_action d) i = Some a
         | None => True
         end
  | Abort _ => True
  end.
Proof.
  assert (Hsame : d = set_state d (_state d)) by (destruct d; reflexivity).
  assert (Hnth : forall i, (i < List.length (_action d))%nat ->
                           exists a, nth_error (_action d) i = Some a).
  { intros i Hi. destruct (nth_error (_action d) i) as [a|] eqn:E; [exists a; reflexivity|].
    apply nth_error_None in E. lia. }
  unfold pickAction.
  destruct (negb isForceClose && isClosing).
  - case_eq (_action d); [intros _; split; [exact Hsame | exact I]|].
    intros a rest Ha. rewrite <- Ha.
    destruct (Z.leb_spec 0 (getRandomNumber eng (size (_action d) - 1))); cbn [andb];
      [|exact I].
    destruct (Z.ltb_spec (getRandomNumber eng (size (_action d) - 1)) (size (_action d)));
      [|exact I].
    split; [exact Hsame|]. apply Hnth. unfold size in *. lia.
  - destruct (_state d) as [st|] eqn:Hs; [|exact I].
    destruct (getLastMouse eng) as [mx my].
    assert (Hlast : forall d1 : Dialog,
              d1 = set_state d (_state d1) -> _action d1 = _action d ->
              match (if isClosing && (size (_action d1) =? 1)
                     then Done (Some 0%nat, d1) else Done (None, d1)) with
              | Done (picked, d') =>
                  d' = set_state d (_state d')
                  /\ match picked with
                     | Some i => exists a, nth_error (_action d) i = Some a
                     | None => True
                     end
              | Abort _ => True
              end).
    { intros d1 Hd1 Hact. destruct (isClosing && (size (_action d1) =? 1)) eqn:Hone.
      - split; [exact Hd1|]. apply Hnth.
        apply andb_prop in Hone. destruct Hone as [_ Hone].
        apply Z.eqb_eq in Hone. rewrite Hact in Hone. unfold size in Hone. lia.
      - split; [exact Hd1 | exact I]. }
    destruct ((DgdsRect.x (_loc st) <=? mx)
              && (DgdsRect.x (_loc st) + DgdsRect.width (_loc st) >=? mx)
              && (DgdsRect.y (_loc st) <=? my)
              && (DgdsRect.y (_loc st) + DgdsRect.height (_loc st) >=? my)).
    + set (d2 := set_state d (Some (set_lastMouse st mx my))).
      pose proof (selection_stages_spare_offsets eng d2) as Hshape.
      destruct (draw eng None kDlgDrawFindSelectionTxtOffset d2) as [[d3 dst3]|f];
        cbn [obind]; [|exact I].
      specialize (Hshape d3 dst3 eq_refl). destruct Hshape as [Hd3 Hact3].
      destruct (_state d3) as [st3|] eqn:Hs3; [|exact I].
      match goal with
      | |- context [pick_under_mouse ?s ?o ?u ?acts 0%nat] =>
          pose proof (pick_under_mouse_range s o u acts 0%nat) as Hrange;
          destruct (pick_under_mouse s o u acts 0%nat) as [[k|]|f]
      end; cbn [obind]; try exact I.
      * split; [subst d2; rewrite Hd3 at 1; rewrite Hs3; reflexivity|].
        apply Hnth. specialize (Hrange k eq_refl). rewrite Hact3 in Hrange.
        subst d2. cbn [_action set_state] in Hrange. lia.
      * apply Hlast; [subst d2; rewrite Hd3 at 1; rewrite Hs3; reflexivity | exact Hact3].
    + cbn [obind]. apply Hlast; [rewrite Hs; exact Hsame | reflexivity].
Qed.

(* ===================================================================== *)
(** ** Drawing *)



Lemma draw_lines_plain (d : Dialog) (px ystart h xwidth col : Z) (align : TextAlign)
    (lineOffs : list Z) (he : Z) :
  Forall (fun o => o <= INT_MAX) lineOffs ->
  forall (lines : list CString) (i : nat) (surf : ManagedSurface),
  draw_lines d lines lineOffs i px ystart h xwidth col align INT_MAX he (Some surf)
  = Done (Some (surf ++ plain_lines lines i px ystart h xwidth col align)).
Proof.
  intros Hoffs.
  assert (Hnth : forall k, nth k lineOffs 0 <= INT_MAX).
  { intros k. destruct (nth_in_or_default k lineOffs 0) as [Hin | ->].
    - rewrite Forall_forall in Hoffs. apply Hoffs, Hin.
    - unfold INT_MAX. lia. }
  induction lines as [|line rest IH]; intros i surf.
  - cbn. rewrite app_nil_r. reflexivity.
  - cbn [draw_lines emit obind].
    destruct (Z.ltb_spec INT_MAX (nth (S i) lineOffs 0)) as [Hlt|_];
      [specialize (Hnth (S i)); lia|].
    cbn [andb obind]. rewrite IH. unfold plain_lines.
    cbn [List.length seq map]. rewrite Nat.sub_diag. cbn [nth].
    rewrite <- app_assoc. cbn [app].
    match goal with
    | |- Done (Some (_ ++ _ :: ?a)) = Done (Some (_ ++ _ :: ?b)) =>
        assert (Hab : a = b); [|rewrite Hab; reflexivity]
    end.
    apply map_ext_in. intros k Hk. apply in_seq in Hk.
    replace (k - i)%nat with (S (k - S i)) by lia. reflexivity.
Qed.

(** While no action of the dialog is selected, [drawForeground] draws every
    wrapped line of the text exactly once, top to bottom, one font height
    apart and in the text colour, and nothing else; with no surface to draw
    on it fails as soon as there is a line to draw. *)
Theorem drawForeground_without_selection
    (eng : EngineView) (surf : ManagedSurface) (fontcol : Z) (txt : CString) (d : Dialog)
    (st : DialogState) :
  let font := getDlgTextFont eng d in
  let lines := fst (wordWrapText font txt (DgdsRect.width (_loc st))) in
  let h := getFontHeight font in
  let ystart := DgdsRect.y (_loc st) + cdiv (DgdsRect.height (_loc st) - size lines * h) 2 in
  _state d = Some st -> _selectedAction st = None ->
  Forall (fun o => o <= INT_MAX) (_wrappedLineOffsets txt lines) ->
  drawForeground eng (Some surf) fontcol txt d
  = Done (Some (surf ++ plain_lines lines 0 (fst (fst (text_block d st font lines))) ystart h
                          (snd (text_block d st font lines)) fontcol
                          (snd (fst (text_block d st font lines)))))
  /\ drawForeground eng None fontcol txt d
     = match lines with
       | [] => Done None
       | _ :: _ => Abort (NullDereference "dst")
       end.
Proof.
  intros font lines h ystart Hs Hsel Hoffs.
  unfold drawForeground, text_block. rewrite Hs, Hsel. cbn [obind].
  fold font. fold lines. fold h.
  split.
  - destruct (hasFlag d kDlgFlagLeftJust); cbn [fst snd];
      apply draw_lines_plain; exact Hoffs.
  - destruct (hasFlag d kDlgFlagLeftJust); destruct lines; reflexivity.
Qed.

Lemma drawForeground_without_selection_witness :
  drawForeground (example_engine (0, 0) 0) (Some []) 0 (_str (two_line_dialog 0 0 0))
                 (two_line_dialog 0 0 0)
  = Done (Some [DrawString (cstr "a") 13 32 294 0 kTextAlignCenter;
                DrawString (cstr "bbbb") 13 40 294 0 kTextAlignCenter]).
Proof.
  apply (drawForeground_without_selection (example_engine (0, 0) 0) [] 0
           (_str (two_line_dialog 0 0 0)) (two_line_dialog 0 0 0)
           (set_lastMouse (example_state (DgdsRect.mk 13 13 294 54) 0 None) 0 0)).
  - reflexivity.
  - reflexivity.
  - repeat constructor; vm_compute; discriminate.
Defined.

(* ===================================================================== *)
(** ** The mouse cursor *)

(** [setMouseCursor] changes the cursor only to a loaded frame for which
    there is cursor information, recording the frame and its hot spot;
    asked for the same cursor again, it does nothing. *)
Theorem setMouseCursor_settles {Ext : Type} (env : Externals Ext) (num : Z)
    (r r1 : Run) :
  setMouseCursor env num r = Done r1 ->
  setMouseCursor env num r1 = Done r1
  /\ (r1 = r
      \/ (_currentCursor (fst r1) = to_int32 num
          /\ _currentCursorHot (fst r1)
             = nth (Z.to_nat num) (gds_getCursorList env (ext (fst r))) (0, 0)
          /\ num < size (gds_getCursorList env (ext (fst r)))
          /\ (exists count, icons_loadedFrameCount env (ext (fst r)) = Some count
                            /\ to_int32 num < count)
          /\ to_int32 num <> _currentCursor (fst r)
          /\ snd r1 = snd r ++ [CallReplaceCursor num])).
Proof.
  intros H. pose proof H as H0. unfold setMouseCursor in H.
  destruct (icons_loadedFrameCount env (ext (fst r))) as [count|] eqn:Hc.
  2: { injection H as <-. split; [exact H0 | left; reflexivity]. }
  destruct (Z.geb_spec (to_int32 num) count) as [Hge|Hlt].
  { injection H as <-. split; [exact H0 | left; reflexivity]. }
  destruct (Z.eqb_spec (to_int32 num) (_currentCursor (fst r))) as [Heq|Hne].
  { injection H as <-. split; [exact H0 | left; reflexivity]. }
  destruct (Z.geb_spec num (size (gds_getCursorList env (ext (fst r))))) as [Hbig|Hsmall];
    [discriminate H|].
  injection H as <-. split.
  - unfold setMouseCursor. cbn [fst snd note on_engine on_ext set_cursor _currentCursor ext upd_ext].
    match goal with
    | |- match ?x with _ => _ end = _ => destruct x as [count'|]; [|reflexivity]
    end.
    destruct (to_int32 num >=? count'); [reflexivity|].
    rewrite Z.eqb_refl. reflexivity.
  - right. cbn [fst snd note on_engine on_ext set_cursor _currentCursor _currentCursorHot].
    repeat split; try assumption; try reflexivity.
    exists count. split; [reflexivity | lia].
Qed.

Lemma setMouseCursor_settles_witness :
  setMouseCursor (cursor_env 3 [(1, 1); (2, 3); (8, 8)]) 1
    (set_cursor 1 (2, 3) (example_game 3 (example_inventory false 0) 0),
     [CallReplaceCursor 1])
  = Done (set_cursor 1 (2, 3) (example_game 3 (example_inventory false 0) 0),
          [CallReplaceCursor 1]).
Proof.
  apply (setMouseCursor_settles (cursor_env 3 [(1, 1); (2, 3); (8, 8)]) 1
           (example_game 3 (example_inventory false 0) 0, [])).
  reflexivity.
Defined.

(* ===================================================================== *)
(** ** Scene changes *)

Lemma changeScene_flat {Ext : Type} (env : Externals Ext) (k : nat) (sceneNum : Z)
    (r : Run) :
  negb (sceneNum =? 2) && negb (scene_getNum env (ext (fst r)) =? 2)
  && _isOpen (_inventory (fst r)) = false ->
  changeScene env (S k) sceneNum r = changeScene env 1 sceneNum r.
Proof.
  intros Hg. cbn [changeScene]. rewrite Hg. reflexivity.
Qed.

Lemma Inventory_close_flat {Ext : Type} (env : Externals Ext) (k : nat) (r : Run) :
  Inventory_close (changeScene env (S k)) r = Inventory_close (changeScene env 1) r.
Proof.
  unfold Inventory_close.
  destruct (negb (_isOpen (_inventory (fst r)))); [reflexivity|].
  destruct (assert_that _ _); cbn [obind]; [|reflexivity].
  rewrite changeScene_flat; [reflexivity|].
  cbn [fst on_engine _inventory set_inventory _isOpen]. apply andb_false_r.
Qed.

(** The part of a scene change that follows the closing of the inventory
    never runs out of nesting depth. *)
Ltac scene_change_outcomes H :=
  repeat match type of H with
         | context [if ?c then _ else _] => destruct c
         | context [match ?x with _ => _ end] => destruct x
         | context [obind ?c _] => destruct c eqn:?; cbn [obind] in H
         end;
  try discriminate H.

Lemma setMouseCursor_fuel {Ext : Type} (env : Externals Ext) (num : Z) (r : Run) :
  setMouseCursor env num r <> Abort OutOfFuel.
Proof.
  unfold setMouseCursor. intros H. scene_change_outcomes H.
Qed.

Lemma changeScene_flat_fuel {Ext : Type} (env : Externals Ext) (k : nat) (sceneNum : Z)
    (r : Run) :
  negb (sceneNum =? 2) && negb (scene_getNum env (ext (fst r)) =? 2)
  && _isOpen (_inventory (fst r)) = false ->
  changeScene env (S k) sceneNum r <> Abort OutOfFuel.
Proof.
  intros Hg H. cbn [changeScene] in H. rewrite Hg in H.
  destruct (have_scene (fst r) && have_adsInterp (fst r)); cbn [assert_that obind] in H;
    [|discriminate H].
  destruct (sceneNum =? scene_getNum env (ext (fst r))); [discriminate H|].
  cbn [obind] in H.
  destruct (negb (hasResource env (ext (fst r)) (sceneFileName sceneNum)));
    [discriminate H|].
  match type of H with
  | context [match scene_getDragItem env ?x with _ => _ end] =>
      destruct (scene_getDragItem env x)
  end.
  - cbn [obind] in H. scene_change_outcomes H.
  - match type of H with
    | context [setMouseCursor env 0 ?x] =>
        pose proof (setMouseCursor_fuel env 0 x) as Hc;
        destruct (setMouseCursor env 0 x) as [rc|f]
    end; cbn [obind] in H.
    + scene_change_outcomes H.
    + congruence.
Qed.

Lemma changeScene_step_fuel {Ext : Type} (env : Externals Ext) (k : nat) (sceneNum : Z)
    (r : Run) :
  (forall n' r', _isOpen (_inventory (fst r')) = false ->
                 changeScene env k n' r' <> Abort OutOfFuel) ->
  changeScene env (S k) sceneNum r <> Abort OutOfFuel.
Proof.
  intros Hinner.
  destruct (negb (sceneNum =? 2) && negb (scene_getNum env (ext (fst r)) =? 2)
            && _isOpen (_inventory (fst r))) eqn:Hg;
    [|apply changeScene_flat_fuel; exact Hg].
  intros H. cbn [changeScene] in H. rewrite Hg in H.
  destruct (have_scene (fst r) && have_adsInterp (fst r)); cbn [assert_that obind] in H;
    [|discriminate H].
  destruct (sceneNum =? scene_getNum env (ext (fst r))); [discriminate H|].
  unfold Inventory_close in H.
  apply andb_prop in Hg. destruct Hg as [_ Hopen]. rewrite Hopen in H. cbn [negb] in H.
  destruct (negb (_openedFromSceneNum (_inventory (fst r)) =? 0));
    cbn [assert_that obind] in H; [|discriminate H].
  match type of H with
  | context [changeScene env k ?n ?x] =>
      pose proof (Hinner n x eq_refl) as Hnested;
      destruct (changeScene env k n x) as [[b rn]|f]
  end; cbn [obind] in H; [|congruence].
  match type of H with
  | context [hasResource env ?x ?f] => destruct (negb (hasResource env x f))
  end; [discriminate H|].
  match type of H with
  | context [match scene_getDragItem env ?x with _ => _ end] =>
      destruct (scene_getDragItem env x)
  end.
  - cbn [obind] in H. scene_change_outcomes H.
  - match type of H with
    | context [setMouseCursor env 0 ?x] =>
        pose proof (setMouseCursor_fuel env 0 x) as Hc;
        destruct (setMouseCursor env 0 x) as [rc|f]
    end; cbn [obind] in H.
    + scene_change_outcomes H.
    + congruence.
Qed.

(** A scene change nests at most once: closing the inventory from inside
    [changeScene] changes scene with the inventory already closed, which
    does not close it again.  Two levels of nesting are always enough, and
    a change that does not close the inventory needs one. *)
Theorem changeScene_nests_once {Ext : Type} (env : Externals Ext) (depth : nat)
    (sceneNum : Z) (r : Run) :
  changeScene env (S (S depth)) sceneNum r = changeScene env 2 sceneNum r
  /\ changeScene env 2 sceneNum r <> Abort OutOfFuel
  /\ (if negb (sceneNum =? 2) && negb (scene_getNum env (ext (fst r)) =? 2)
         && _isOpen (_inventory (fst r))
      then True
      else changeScene env (S depth) sceneNum r = changeScene env 1 sceneNum r).
Proof.
  split; [|split].
  - cbn [changeScene]. rewrite (Inventory_close_flat env depth). reflexivity.
  - apply changeScene_step_fuel. intros n' r' Hclosed.
    apply changeScene_flat_fuel. rewrite Hclosed. apply andb_false_r.
  - destruct (negb (sceneNum =? 2) && negb (scene_getNum env (ext (fst r)) =? 2)
              && _isOpen (_inventory (fst r))) eqn:Hg; [exact I|].
    apply changeScene_flat. exact Hg.
Qed.

Lemma in_log_note {Ext : Type} (c c' : Call) (r : @Run Ext) :
  In c (snd r) -> In c (snd (note c' r)).
Proof. intros H. unfold note. cbn [snd]. apply in_or_app. left. exact H. Qed.

Lemma in_log_on_engine {Ext : Type} (c : Call) (f : Engine Ext -> Engine Ext) (r : Run) :
  In c (snd r) -> In c (snd (on_engine f r)).
Proof. intros H. exact H. Qed.

Lemma in_log_noted {Ext : Type} (c : Call) (r : @Run Ext) : In c (snd (note c r)).
Proof. unfold note. cbn [snd]. apply in_or_app. right. left. reflexivity. Qed.

Lemma setMouseCursor_log {Ext : Type} (env : Externals Ext) (num : Z) (c : Call)
    (r r1 : Run) :
  setMouseCursor env num r = Done r1 -> In c (snd r) -> In c (snd r1).
Proof.
  unfold setMouseCursor. intros H Hin.
  repeat match type of H with
         | context [match ?x with _ => _ end] => destruct x
         end; try discriminate H; injection H as <-; try exact Hin.
  apply in_log_note. exact Hin.
Qed.

(** Names the value of the outermost [let] of the goal. *)
Ltac name_let r :=
  match goal with
  | |- context C [let x := ?v in @?b x] =>
      pose (r := v); let g := context C [b r] in change g; cbv beta
  end.

Lemma changeScene_reports_run {Ext : Type} (env : Externals Ext) (depth : nat)
    (sceneNum : Z) (r : Run) :
  match changeScene env depth sceneNum r with
  | Done (changed, r') =>
      scene_change_result env sceneNum (fst r) changed (fst r') (snd r')
  | Abort _ => True
  end.
Proof.
  destruct depth as [|k]; [exact I|].
  cbv beta iota fix delta [changeScene].
  fold (@changeScene Ext env k).
  destruct (have_scene (fst r) && have_adsInterp (fst r));
    cbv beta iota delta [assert_that obind]; [|exact I].
  destruct (Z.eqb_spec sceneNum (scene_getNum env (ext (fst r)))) as [Heq|Hne].
  { unfold scene_change_result, warning, note. cbn [fst snd]. eexists. apply last_last. }
  match goal with
  | |- match (match ?c with _ => _ end) with _ => _ end => destruct c as [r1|f]
  end; [|exact I].
  name_let sf.
  destruct (negb (hasResource env (ext (fst r1)) sf)).
  { unfold scene_change_result, warning, note. cbn [fst snd]. eexists. apply last_last. }
  repeat (let q := fresh "q" in name_let q; clearbody q).
  assert (Htail : forall a : Run,
    match
      (let r10 :=
         on_engine
           (fun e : Engine Ext =>
            set_storedAreaBuffer
              (_storedAreaBuffer e ++
               [BufFillRect (SCREEN_WIDTH env) (SCREEN_HEIGHT env) 0]) e) a in
       let r11 := note (CallSceneLoad sf) (on_ext (scene_load env sf) r10) in
       let r12 :=
         note CallAddInvButton (on_ext (scene_addInvButtonToHotAreaList env) r11) in
       let r13 :=
         match _gameId (fst r12) with
         | GID_DRAGON =>
             note (CallSetVisibleScript true)
               (on_ext (clock_setVisibleScript env true) r12)
         | _ => r12
         end in
       if negb (scene_getMagic env (ext (fst r13)) =? gds_getMagic env (ext (fst r13)))
       then Abort (FatalError "Scene magic does not match GDS magic")
       else
         let adsFile := scene_getAdsFile env (ext (fst r13)) in
         let r14 :=
           if negb (String.eqb adsFile EmptyString)
           then note (CallAdsLoad adsFile) (on_ext (ads_load env adsFile) r13)
           else note CallAdsUnload (on_ext (ads_unload env) r13) in
         let r15 :=
           note CallRunEnterSceneOps (on_engine (scene_runEnterSceneOps env) r14) in
         let r16 := on_engine (set_justChangedScene true true) r15 in
         Done (true, r16))
    with
    | Done (changed, r') =>
        scene_change_result env sceneNum (fst r) changed (fst r') (snd r')
    | Abort _ => True
    end).
  { intros a.
    name_let r10. clearbody r10.
    name_let r11.
    assert (H11 : In (CallSceneLoad sf) (snd r11)) by apply in_log_noted.
    clearbody r11.
    name_let r12.
    assert (H12 : In (CallSceneLoad sf) (snd r12)) by (apply in_log_note; exact H11).
    clearbody r12. clear H11.
    name_let r13.
    assert (H13 : In (CallSceneLoad sf) (snd r13)).
    { unfold r13. destruct (_gameId (fst r12)); try exact H12.
      apply in_log_note. exact H12. }
    clearbody r13. clear H12.
    destruct (negb (scene_getMagic env (ext (fst r13)) =? gds_getMagic env (ext (fst r13))));
      [exact I|].
    name_let adsFile. clearbody adsFile.
    name_let r14.
    assert (H14 : In (CallSceneLoad sf) (snd r14)).
    { unfold r14. destruct (negb (String.eqb adsFile EmptyString));
        apply in_log_note; exact H13. }
    clearbody r14. clear H13.
    cbv zeta. unfold scene_change_result.
    unfold on_engine at 1. cbn [fst snd].
    split; [reflexivity|]. split; [reflexivity|].
    split; [apply in_log_note; exact H14|].
    split; [|exact Hne].
    unfold note. cbn [snd]. apply last_last. }
  match goal with
  | |- context [scene_getDragItem env ?x] => destruct (scene_getDragItem env x)
  end.
  - apply Htail.
  - match goal with
    | |- context [setMouseCursor env 0 ?x] => destruct (setMouseCursor env 0 x) as [rc|f]
    end; [apply Htail | exact I].
Qed.

(** A scene change that reports success has loaded the file of the target
    scene, has run the enter ops of the scene last of all and has set both
    just-changed flags, and the target was not the scene the engine stood
    in; one that reports failure ends on a warning. *)
Theorem changeScene_reports {Ext : Type} (env : Externals Ext) (depth : nat)
    (sceneNum : Z) (e : Engine Ext) (log : list Call) :
  match changeScene env depth sceneNum (e, log) with
  | Done (changed, (e', log')) => scene_change_result env sceneNum e changed e' log'
  | Abort _ => True
  end.
Proof.
  pose proof (changeScene_reports_run env depth sceneNum (e, log)) as H.
  destruct (changeScene env depth sceneNum (e, log)) as [[changed [e' log']]|f];
    [exact H | exact I].
Qed.

(* ===================================================================== *)
(** ** Saving *)

Ltac save_leaf :=
  cbn [app];
  split; [congruence|];
  split; [congruence|];
  split; [repeat constructor|];
  split; [intros [? Hin]; no_such_call Hin|];
  split; [intros Hin; unfold palette_reset in Hin; no_such_call Hin|];
  intros Hok; first [congruence | reflexivity].

Ltac saving_mode :=
  repeat match goal with
         | |- context [if isLoading ?s then _ else _] =>
             replace (isLoading s) with false by congruence
         | |- context [getVersion ?s <? 4] =>
             replace (getVersion s) with 4 by congruence;
             change (4 <? 4) with false
         end.

(** Every run of [syncGame] in saving mode. *)
Lemma syncGame_saving {Ext : Type} (env : Externals Ext) (s : Serializer) (e : Engine Ext) :
  subsystems_keep_mode env -> isLoading s = false ->
  match syncGame env s (e, []) with
  | Done (result, s', (e', log)) =>
      getVersion s' = 4 /\ isLoading s' = false
      /\ Forall save_call log
      /\ ~ palette_synced log /\ ~ palette_reset log
      /\ (is_no_error result = true -> last log CallHideMenu = CallRunEnterSceneOps)
  | Abort f =>
      f = AssertionFailed "_scene && _gdsScene" /\ have_scene e && have_gdsScene e = false
  end.
Proof.
  intros (Hgds & Hscene & Hglob & Hclock & Hpals & Hads) Hsave.
  unfold syncGame. cbn [fst snd].
  destruct (have_scene e && have_gdsScene e); cbn [assert_that obind];
    [| split; reflexivity].
  unfold syncVersion, syncAsUint32LE, syncAsUint16LE, syncAsSint16LE, syncAsByte.
  unfold sync_le at 1. rewrite Hsave.
  cbn [isLoading getVersion _loadStream _saveStream negb]. change (4 <=? 4) with true.
  cbn [negb].
  unfold palette_synced.
  unfold note, on_ext, on_engine; cbn [fst snd].
  sub_step (gds_syncState env) Hgds; [| save_leaf].
  prim_step. saving_mode. cbn [obind].
  unfold note, on_ext, on_engine; cbn [fst snd].
  sub_step (scene_syncState env) Hscene; [| save_leaf].
  sub_step (globals_syncState env) Hglob; [| save_leaf].
  sub_step (clock_syncState env) Hclock; [| save_leaf].
  sub_step (@Inventory_sync Ext) (@Inventory_sync_keeps_mode Ext); [| save_leaf].
  saving_mode. cbn [is_no_error getCode NoError].
  sub_step (ads_syncState env) Hads; [| save_leaf].
  repeat prim_step. saving_mode.
  unfold note, on_ext, on_engine; cbn [fst snd].
  save_leaf.
Qed.

(** [syncGame] in saving mode: the blob is of version 4, no palette block
    is written and the palette is not reset; nothing is unloaded or loaded,
    the only calls being the hiding of the menu, the syncs and, last of
    all when no sync failed, the enter ops of the scene; a save fails only
    on the assertion that there is a scene and a scene directory. *)
Theorem saving_run {Ext : Type} (env : Externals Ext) (s : Serializer) (e : Engine Ext) :
  subsystems_keep_mode env -> isLoading s = false ->
  match syncGame env s (e, []) with
  | Done (result, s', (e', log)) =>
      getVersion s' = 4 /\ isLoading s' = false
      /\ Forall save_call log
      /\ ~ palette_synced log /\ ~ palette_reset log
      /\ (is_no_error result = true -> last log CallHideMenu = CallRunEnterSceneOps)
  | Abort f =>
      f = AssertionFailed "_scene && _gdsScene" /\ have_scene e && have_gdsScene e = false
  end.
Proof. apply syncGame_saving. Qed.

Lemma saving_run_witness :
  match syncGame (example_env None NoError) saver
          (example_game 3 (example_inventory false 0) 9, []) with
  | Done (result, s', (e', log)) =>
      getVersion s' = 4 /\ isLoading s' = false
      /\ Forall save_call log
      /\ ~ palette_synced log /\ ~ palette_reset log
      /\ (is_no_error result = true -> last log CallHideMenu = CallRunEnterSceneOps)
  | Abort f =>
      f = AssertionFailed "_scene && _gdsScene"
      /\ have_scene (example_game 3 (example_inventory false 0) 9)
         && have_gdsScene (example_game 3 (example_inventory false 0) 9) = false
  end.
Proof.
  apply (saving_run (example_env None NoError) saver
           (example_game 3 (example_inventory false 0) 9)).
  - apply example_env_keeps_mode.
  - reflexivity.
Defined.

(** Whenever [canSaveGameStateCurrently] allows a save, the game is not a
    demo, the engine is neither loading nor in the inventory scene and
    nothing is being dragged, and [syncGame] in saving mode runs to its
    end. *)
Theorem save_allowed_completes {Ext : Type} (env : Externals Ext) (loading : bool)
    (s : Serializer) (e : Engine Ext) :
  canSaveGameStateCurrently env loading e = true ->
  subsystems_keep_mode env -> isLoading s = false ->
  (loading = false /\ _gameId e <> GID_SQ5DEMO /\ _gameId e <> GID_COMINGATTRACTIONS
   /\ scene_getNum env (ext e) <> 2 /\ scene_getDragItem env (ext e) = None)
  /\ exists result s' e' log,
       syncGame env s (e, []) = Done (result, s', (e', log))
       /\ getVersion s' = 4 /\ Forall save_call log.
Proof.
  intros Hcan Hkeep Hsave. unfold canSaveGameStateCurrently in Hcan.
  repeat match type of Hcan with
         | _ && _ = true => apply andb_prop in Hcan; destruct Hcan as [Hcan ?]
         end.
  split.
  - repeat split.
    + destruct loading; [discriminate | reflexivity].
    + intros Hid. rewrite Hid in Hcan. discriminate Hcan.
    + intros Hid. rewrite Hid in *. discriminate.
    + intros Hnum. rewrite Hnum in *. discriminate.
    + destruct (scene_getDragItem env (ext e)); [discriminate | reflexivity].
  - pose proof (syncGame_saving env s e Hkeep Hsave) as Hrun.
    destruct (syncGame env s (e, [])) as [[[result s'] [e' log]]|f].
    + exists result, s', e', log. split; [reflexivity|]. tauto.
    + destruct Hrun as [_ Hnull].
      match goal with
      | Hg : have_gdsScene e = true, Hsc : have_scene e = true |- _ =>
          rewrite Hg, Hsc in Hnull; discriminate Hnull
      end.
Qed.

Lemma save_allowed_completes_witness :
  exists result s' e' log,
    syncGame (example_env None NoError) saver
      (upd_ext (ex_set_drag None) (example_game 3 (example_inventory false 0) 9), [])
    = Done (result, s', (e', log))
    /\ getVersion s' = 4 /\ Forall save_call log.
Proof.
  apply (save_allowed_completes (example_env None NoError) false saver
           (upd_ext (ex_set_drag None) (example_game 3 (example_inventory false 0) 9))).
  - reflexivity.
  - apply example_env_keeps_mode.
  - reflexivity.
Defined.

(* ===================================================================== *)
(** ** Saved state: what is written is read back *)

Lemma sync_le_save (n : nat) (written : list Z) (v : Z) :
  sync_le n (saving_after written) v = (saving_after (written ++ le_encode n v), v).
Proof. reflexivity. Qed.

Lemma sync_le_load (n : nat) (v x : Z) (rest : list Z) :
  sync_le n (loading_from (le_encode n v ++ rest)) x
  = (loading_from rest, v mod 256 ^ Z.of_nat n).
Proof.
  unfold sync_le, loading_from. cbn [isLoading _loadStream getVersion _saveStream].
  rewrite take_bytes_le_encode, le_decode_encode. reflexivity.
Qed.

Lemma le_encode_length (n : nat) : forall v, List.length (le_encode n v) = n.
Proof. induction n as [|n IH]; intros v; cbn [le_encode List.length]; [|rewrite IH]; reflexivity. Qed.

Lemma skipn_written {A : Type} (w x : list A) : skipn (List.length w) (w ++ x) = x.
Proof. induction w as [|a w IH]; [reflexivity | exact IH]. Qed.

Lemma to_int16_of_field (v : Z) : - 2 ^ 15 <= v < 2 ^ 15 -> to_int16 (v mod 256 ^ 2) = v.
Proof.
  intros Hv. unfold to_int16. change (256 ^ 2) with (2 ^ 16).
  rewrite Zplus_mod_idemp_l.
  rewrite Z.mod_small by lia. lia.
Qed.

Lemma to_int32_of_field (v : Z) : - 2 ^ 31 <= v < 2 ^ 31 -> to_int32 (v mod 256 ^ 4) = v.
Proof.
  intros Hv. unfold to_int32. change (256 ^ 4) with (2 ^ 32).
  rewrite Zplus_mod_idemp_l.
  rewrite Z.mod_small by lia. lia.
Qed.

Lemma inventory_saved (inv : Inventory) (written : list Z) :
  Inventory_syncState (saving_after written) inv
  = (NoError,
     saving_after (written ++ (le_encode 2 (_openedFromSceneNum inv)
                               ++ le_encode 1 (if _isOpen inv then 1 else 0)
                               ++ le_encode 2 (_highlightItemNo inv)
                               ++ le_encode 2 (_itemOffset inv))),
     inv).
Proof.
  unfold Inventory_syncState, syncAsUint16LE, syncAsByte, syncAsSint16LE.
  repeat (rewrite !sync_le_save; cbn [isLoading saving_after]).
  rewrite <- !app_assoc. destruct inv; reflexivity.
Qed.

(** What [Inventory::syncState] writes it reads back: a save adds seven
    bytes and leaves the inventory as it is, and loading these bytes gives
    the saved inventory again, but for the zoom box flag, which is not
    saved. *)
Theorem Inventory_syncState_roundtrip (inv old : Inventory) (written rest : list Z) :
  inventory_fits inv ->
  let saved := Inventory_syncState (saving_after written) inv in
  saved = (NoError, saving_after (written ++ bytes_added written saved), inv)
  /\ List.length (bytes_added written saved) = 7%nat
  /\ Inventory_syncState (loading_from (bytes_added written saved ++ rest)) old
     = (NoError, loading_from rest, inventory_loaded inv old).
Proof.
  intros (Hfrom & Hhi & Hoff) saved. subst saved. rewrite inventory_saved.
  unfold bytes_added. cbn [fst snd _saveStream saving_after]. rewrite skipn_written.
  split; [reflexivity|]. split; [reflexivity|].
  rewrite <- !app_assoc.
  unfold Inventory_syncState, syncAsUint16LE, syncAsByte, syncAsSint16LE.
  repeat (rewrite !sync_le_load; cbn [isLoading loading_from]).
  rewrite !to_int16_of_field by assumption.
  change (256 ^ Z.of_nat 2) with (2 ^ 16).
  rewrite (Z.mod_small (_openedFromSceneNum inv)) by lia.
  unfold inventory_loaded. do 2 f_equal. destruct (_isOpen inv); reflexivity.
Qed.

Lemma Inventory_syncState_roundtrip_witness :
  Inventory_syncState (loading_from [3; 0; 1; 255; 255; 6; 0; 77])
                      (example_inventory false 0)
  = (NoError, loading_from [77],
     {| _isOpen := true; _openedFromSceneNum := 3; _showZoomBox := false;
        _highlightItemNo := -1; _itemOffset := 6 |}).
Proof.
  apply (Inventory_syncState_roundtrip
           {| _isOpen := true; _openedFromSceneNum := 3; _showZoomBox := true;
              _highlightItemNo := -1; _itemOffset := 6 |}
           (example_inventory false 0) [] [77]).
  unfold inventory_fits. cbn. lia.
Defined.

Lemma state_saved (st : DialogState) (written : list Z) :
  DialogState_syncState (saving_after written) st
  = (NoError,
     saving_after (written ++ (le_encode 4 (_hideTime st)
                               ++ le_encode 2 (_lastMouseX st)
                               ++ le_encode 2 (_lastMouseY st)
                               ++ le_encode 2 (_charWidth st)
                               ++ le_encode 2 (_charHeight st)
                               ++ le_encode 4 (_strMouseLoc st)
                               ++ le_encode 2 (DgdsRect.x (_loc st))
                               ++ le_encode 2 (DgdsRect.y (_loc st))
                               ++ le_encode 2 (DgdsRect.width (_loc st))
                               ++ le_encode 2 (DgdsRect.height (_loc st)))),
     st).
Proof.
  unfold DialogState_syncState, syncAsUint32LE, syncAsUint16LE, syncAsSint16LE.
  repeat (rewrite !sync_le_save; cbn [isLoading saving_after]).
  rewrite <- !app_assoc. destruct st as [? [? ? ? ?] ? ? ? ? ? ?]; reflexivity.
Qed.

Lemma state_loaded (st old : DialogState) (rest : list Z) :
  state_fits st ->
  DialogState_syncState
    (loading_from (le_encode 4 (_hideTime st)
                   ++ le_encode 2 (_lastMouseX st)
                   ++ le_encode 2 (_lastMouseY st)
                   ++ le_encode 2 (_charWidth st)
                   ++ le_encode 2 (_charHeight st)
                   ++ le_encode 4 (_strMouseLoc st)
                   ++ le_encode 2 (DgdsRect.x (_loc st))
                   ++ le_encode 2 (DgdsRect.y (_loc st))
                   ++ le_encode 2 (DgdsRect.width (_loc st))
                   ++ le_encode 2 (DgdsRect.height (_loc st)) ++ rest)) old
  = (NoError, loading_from rest, set_selectedAction st (_selectedAction old)).
Proof.
  intros (Hh & Hx & Hy & Hcw & Hch & Hloc & Hlx & Hly & Hlw & Hlh).
  unfold DialogState_syncState, syncAsUint32LE, syncAsUint16LE, syncAsSint16LE.
  repeat (rewrite !sync_le_load; cbn [isLoading loading_from]).
  rewrite !to_int16_of_field by assumption.
  rewrite to_int32_of_field by assumption.
  change (256 ^ Z.of_nat 2) with (2 ^ 16). change (256 ^ Z.of_nat 4) with (2 ^ 32).
  rewrite !Z.mod_small by lia.
  destruct st as [? [? ? ? ?] ? ? ? ? ? ?]; reflexivity.
Qed.

Lemma set_same_flags_state (d : Dialog) : set_state (set_flags d (_flags d)) (_state d) = d.
Proof. destruct d; reflexivity. Qed.

Lemma dialog_saved (d : Dialog) (written : list Z) :
  Dialog_syncState (saving_after written) d
  = (NoError, saving_after (written ++ dialog_bytes d), d).
Proof.
  unfold Dialog_syncState, syncAsUint32LE, syncAsByte, dialog_bytes.
  rewrite sync_le_save. cbn [_state set_flags].
  rewrite sync_le_save. cbn [isLoading saving_after].
  match goal with
  | |- _ = (?a, ?b, d) =>
      replace (a, b, d) with (a, b, set_state (set_flags d (_flags d)) (_state d))
        by (rewrite set_same_flags_state; reflexivity)
  end.
  destruct (_state d) as [st|].
  - rewrite state_saved. unfold state_bytes. rewrite <- !app_assoc. reflexivity.
  - rewrite <- !app_assoc. reflexivity.
Qed.

Lemma dialog_load (d old : Dialog) (rest : list Z) :
  dialog_fits d ->
  Dialog_syncState (loading_from (dialog_bytes d ++ rest)) old
  = (NoError, loading_from rest, dialog_loaded d old).
Proof.
  intros [Hflags Hstate].
  unfold Dialog_syncState, syncAsUint32LE, syncAsByte, dialog_bytes.
  rewrite <- !app_assoc.
  rewrite sync_le_load. cbn [_state set_flags].
  change (256 ^ Z.of_nat 4) with (2 ^ 32). rewrite Z.mod_small by lia.
  unfold dialog_loaded.
  destruct (_state d) as [st|].
  - rewrite <- !app_assoc. rewrite sync_le_load. cbn [isLoading loading_from].
    change (negb (1 mod 256 ^ Z.of_nat 1 =? 0)) with true. cbv iota.
    unfold state_bytes. rewrite <- !app_assoc.
    rewrite (state_loaded st _ rest Hstate).
    destruct (_state old); reflexivity.
  - rewrite sync_le_load. cbn [isLoading loading_from].
    change (negb (0 mod 256 ^ Z.of_nat 1 =? 0)) with false. cbv iota.
    reflexivity.
Qed.

(** What [Dialog::syncState] writes it reads back: a save adds five bytes
    for a dialog without transient state and twenty-nine for one with it,
    and leaves the dialog as it is; loading these bytes into a dialog gives
    it the saved flags and the saved transient state (none if none was
    saved), the selected action apart, which is not saved. *)
Theorem Dialog_syncState_roundtrip (d old : Dialog) (written rest : list Z) :
  dialog_fits d ->
  let saved := Dialog_syncState (saving_after written) d in
  saved = (NoError, saving_after (written ++ bytes_added written saved), d)
  /\ List.length (bytes_added written saved)
     = match _state d with Some _ => 29%nat | None => 5%nat end
  /\ Dialog_syncState (loading_from (bytes_added written saved ++ rest)) old
     = (NoError, loading_from rest, dialog_loaded d old).
Proof.
  intros Hfits saved. subst saved. rewrite dialog_saved.
  unfold bytes_added. cbn [fst snd _saveStream saving_after]. rewrite skipn_written.
  split; [reflexivity|]. split.
  - unfold dialog_bytes, state_bytes. destruct (_state d);
      rewrite ?length_app, ?le_encode_length; reflexivity.
  - apply dialog_load. exact Hfits.
Qed.

Lemma Dialog_syncState_roundtrip_witness :
  Dialog_syncState (loading_from [2; 0; 128; 0; 0; 9]) north_dialog
  = (NoError, loading_from [9], set_state (set_flags north_dialog 8388610) None).
Proof.
  apply (Dialog_syncState_roundtrip
           (example_dialog kDlgFramePlain 8388610 "Go north" [] None) north_dialog [] [9]).
  split; [cbn; lia | exact I].
Defined.

(* ===================================================================== *)
(** ** The title of a framed dialog *)

Lemma find_char_from_spec (c : ascii) (s : CString) : forall i,
  match find_char_from c s i with
  | Some p => exists k, p = i + Z.of_nat k /\ (k < List.length s)%nat
                        /\ existsb (Ascii.eqb c) (firstn k s) = false
                        /\ skipn k s = c :: skipn (S k) s
  | None => existsb (Ascii.eqb c) s = false
  end.
Proof.
  induction s as [|x r IH]; intros i; [reflexivity|].
  cbn [find_char_from existsb].
  destruct (Ascii.eqb x c) eqn:Hx.
  - exists 0%nat. apply Ascii.eqb_eq in Hx. subst x.
    repeat split; [lia | cbn; lia].
  - rewrite Ascii.eqb_sym, Hx. cbn [orb].
    specialize (IH (i + 1)). destruct (find_char_from c r (i + 1)) as [p|]; [|exact IH].
    destruct IH as (k & Hp & Hk & Hno & Hsk).
    exists (S k). repeat split; [lia | cbn; lia | |exact Hsk].
    cbn [firstn existsb]. rewrite Ascii.eqb_sym, Hx. exact Hno.
Qed.

Lemma substr_prefix (s : CString) (k : nat) :
  (k < List.length s)%nat -> substr s 0 (Z.of_nat k) = firstn k s.
Proof.
  intros Hk. unfold substr, size.
  destruct (Z.ltb_spec 0 0); [lia|].
  destruct (Z.leb_spec (Z.of_nat (List.length s)) 0); [lia|]. cbn [orb].
  destruct (Z.ltb_spec (Z.of_nat k) 0); [lia|].
  rewrite Z.sub_0_r, Z.min_r by lia. rewrite Nat2Z.id. reflexivity.
Qed.

Lemma substr_rest (s : CString) (k : nat) :
  substr s (Z.of_nat k) (-1) = skipn k s.
Proof.
  unfold substr, size.
  destruct (Z.ltb_spec (Z.of_nat k) 0); [lia|]. cbn [orb].
  destruct (Z.leb_spec (Z.of_nat (List.length s)) (Z.of_nat k)).
  - symmetry. apply skipn_all2. lia.
  - cbn. rewrite Nat2Z.id.
    replace (Z.to_nat (Z.of_nat (List.length s) - Z.of_nat k))
      with (List.length (skipn k s)) by (rewrite length_skipn; lia).
    apply firstn_all.
Qed.

(** The title and the body that the text of a dialog splits into at its
    first colon. *)
Lemma type2_text_split (str : CString) :
  if has_colon str then
    has_colon (fst (type2_text str)) = false
    /\ (str = fst (type2_text str) ++ ":"%char :: CR :: snd (type2_text str)
        \/ (str = fst (type2_text str) ++ ":"%char :: snd (type2_text str)
            /\ hd Ascii.zero (snd (type2_text str)) <> CR))
  else fst (type2_text str) = [] /\ snd (type2_text str) = str.
Proof.
  unfold type2_text, has_colon, find_char.
  pose proof (find_char_from_spec ":"%char str 0) as Hfind.
  destruct (find_char_from ":"%char str 0) as [p|]; [|rewrite Hfind; split; reflexivity].
  destruct Hfind as (k & Hp & Hk & Hno & Hsk). cbn [Z.add] in Hp. subst p.
  assert (Hstr : str = firstn k str ++ ":"%char :: skipn (S k) str)
    by (rewrite <- Hsk; symmetry; apply firstn_skipn).
  assert (Hhas : existsb (Ascii.eqb ":"%char) str = true).
  { rewrite Hstr, existsb_app. cbn [existsb]. rewrite Ascii.eqb_refl.
    now rewrite orb_true_r. }
  rewrite Hhas, (substr_prefix _ k Hk).
  replace (Z.of_nat k + 1) with (Z.of_nat (S k)) by lia. rewrite substr_rest.
  destruct (skipn (S k) str) as [|c rest] eqn:Hrest.
  + cbn [fst snd]. split; [exact Hno|]. right. split; [exact Hstr | discriminate].
  + destruct (Ascii.eqb c CR) eqn:Hc.
    * apply Ascii.eqb_eq in Hc. subst c. cbn [fst snd].
      change 1 with (Z.of_nat 1). rewrite substr_rest. cbn [skipn].
      split; [exact Hno|]. left. exact Hstr.
    * cbn [fst snd hd]. split; [exact Hno|]. right. split; [exact Hstr|].
      intros Habs. subst c. discriminate Hc.
Qed.

(** The text of a dialog splits into a title and a body: with a colon in
    the text, the title is what stands before the first colon (so it holds
    no colon) and the body what follows it, less one carriage return
    directly after the colon, so that title, colon, dropped carriage return
    and body make up the text again; a text without colon is all body, the
    title being empty.  At the background stage [drawType2] hands this
    title to the frame routine of the game, and at the foreground stage it
    draws this body. *)
Theorem type2_title_and_body (eng : EngineView) (d : Dialog) :
  exists title body,
    (if has_colon (_str d) then
       has_colon title = false
       /\ (_str d = title ++ ":"%char :: CR :: body
           \/ (_str d = title ++ ":"%char :: body /\ hd Ascii.zero body <> CR))
     else title = [] /\ body = _str d)
    /\ forall dst,
         drawType2 eng dst kDlgDrawStageBackground d
         = match _state d with
           | Some _ =>
               match getGameId eng with
               | GID_DRAGON => drawType2BackgroundDragon dst title d
               | _ => drawType2BackgroundChina dst title d
               end
           | None => Done (d, dst)
           end
         /\ drawType2 eng dst kDlgDrawStageForeground d
            = match _state d with
              | Some _ =>
                  dst' <- drawForeground eng dst (_fontColor d) body d ;;
                  Done (d, dst')
              | None => Done (d, dst)
              end.
Proof.
  exists (fst (type2_text (_str d))), (snd (type2_text (_str d))).
  split; [apply type2_text_split|].
  intros dst. unfold drawType2, type2_text.
  destruct (_state d); [|split; reflexivity].
  destruct (find_char ":"%char (_str d)); [|split; reflexivity].
  destruct (substr (_str d) (z + 1) (-1)) as [|c rest]; [split; reflexivity|].
  destruct (Ascii.eqb c CR); split; reflexivity.
Qed.

(* ===================================================================== *)
(** ** Paging through the inventory *)

Lemma setMouseCursor_inventory {Ext : Type} (env : Externals Ext) (num : Z) (r r1 : Run) :
  setMouseCursor env num r = Done r1 -> _inventory (fst r1) = _inventory (fst r).
Proof.
  unfold setMouseCursor. intros H.
  repeat match type of H with
         | context [match ?x with _ => _ end] => destruct x
         end; try discriminate H; injection H as <-; reflexivity.
Qed.

Lemma set_itemOffset_same (inv : Inventory) : set_itemOffset (_itemOffset inv) inv = inv.
Proof. destruct inv; reflexivity. Qed.

(** A release of the mouse button in the inventory, with nothing dragged
    and off the exit button, changes nothing of the inventory but the page
    offset, moves the offset by at most one page, and leaves it on the page
    grid: it never becomes negative.  The call fails only if setting the
    cursor does. *)
Theorem mouseLUp_keeps_page_grid {Ext : Type} (env : Externals Ext) (ui : InventoryUI Ext)
    (depth : nat) (pt : Z * Z) (e : Engine Ext) (log : list Call) (area : Gadget.t) :
  (forall w, inv_itemArea ui w = area) ->
  Gadget._xStep area <> 0 -> Gadget._yStep area <> 0 -> 0 < items_per_page area ->
  scene_getDragItem env (ext e) = None ->
  (forall w, containsPoint ui (inv_exitButton ui w) pt = false) ->
  on_page_grid area (_itemOffset (_inventory e)) ->
  match Inventory_mouseLUp env ui depth pt (e, log) with
  | Done (e', log') =>
      on_page_grid area (_itemOffset (_inventory e'))
      /\ _inventory e' = set_itemOffset (_itemOffset (_inventory e')) (_inventory e)
      /\ (_itemOffset (_inventory e') = _itemOffset (_inventory e)
          \/ _itemOffset (_inventory e') = _itemOffset (_inventory e) + items_per_page area
          \/ _itemOffset (_inventory e') = _itemOffset (_inventory e) - items_per_page area)
  | Abort f => setMouseCursor env 0 (e, log) = Abort f
  end.
Proof.
  intros Harea Hx Hy Hipp Hdrag Hexit [Hpos [page Hpage]].
  unfold Inventory_mouseLUp. cbn [fst]. rewrite Hdrag.
  pose proof (setMouseCursor_inventory env 0 (e, log)) as Hinv.
  destruct (setMouseCursor env 0 (e, log)) as [[e1 log1]|f]; cbn [obind]; [|reflexivity].
  specialize (Hinv _ eq_refl). cbn [fst] in Hinv.
  rewrite Harea, Hexit.
  destruct (Z.eqb_spec (Gadget._xStep area) 0); [contradiction|].
  destruct (Z.eqb_spec (Gadget._yStep area) 0); [contradiction|].
  cbn [orb]. fold (items_per_page area).
  cbn [fst snd]. rewrite Hinv.
  assert (Hsame : on_page_grid area (_itemOffset (_inventory e))
                  /\ _inventory e = set_itemOffset (_itemOffset (_inventory e)) (_inventory e)
                  /\ (_itemOffset (_inventory e) = _itemOffset (_inventory e)
                      \/ _itemOffset (_inventory e)
                         = _itemOffset (_inventory e) + items_per_page area
                      \/ _itemOffset (_inventory e)
                         = _itemOffset (_inventory e) - items_per_page area)).
  { split; [split; [exact Hpos | exists page; exact Hpage]|].
    split; [symmetry; apply set_itemOffset_same | left; reflexivity]. }
  repeat match goal with
         | |- context [if ?c then _ else _] => destruct c eqn:?
         end;
    unfold on_ext, on_engine; cbn [fst snd _inventory set_inventory upd_ext];
    rewrite ?Hinv; try exact Hsame.
  - (* next page *)
    cbn [_itemOffset set_itemOffset]. split; [|split; [reflexivity | right; left; reflexivity]].
    split; [lia|]. exists (page + 1). lia.
  - (* previous page *)
    cbn [_itemOffset set_itemOffset]. split; [|split; [reflexivity | right; right; reflexivity]].
    assert (Hgt : 0 < _itemOffset (_inventory e)) by lia.
    assert (Hp : 1 <= page) by nia.
    split; [nia|]. exists (page - 1). lia.
Qed.

Lemma mouseLUp_keeps_page_grid_witness :
  match Inventory_mouseLUp (example_env None NoError)
          (example_ui [GameItem.mk 1 1 2; GameItem.mk 2 1 2]) 1 (180, 10)
          (upd_ext (ex_set_drag None) (example_game 2 (example_inventory true 3) 0), []) with
  | Done (e', log') =>
      on_page_grid (Gadget.mk 20 40 0 0 120 80 40 40 0) (_itemOffset (_inventory e'))
      /\ _inventory e'
         = set_itemOffset (_itemOffset (_inventory e')) (example_inventory true 3)
      /\ (_itemOffset (_inventory e') = 0
          \/ _itemOffset (_inventory e') = 0 + 6
          \/ _itemOffset (_inventory e') = 0 - 6)
  | Abort f =>
      setMouseCursor (example_env None NoError) 0
        (upd_ext (ex_set_drag None) (example_game 2 (example_inventory true 3) 0), [])
      = Abort f
  end.
Proof.
  apply (mouseLUp_keeps_page_grid (example_env None NoError)
           (example_ui [GameItem.mk 1 1 2; GameItem.mk 2 1 2]) 1 (180, 10)
           (upd_ext (ex_set_drag None) (example_game 2 (example_inventory true 3) 0)) []
           (Gadget.mk 20 40 0 0 120 80 40 40 0)).
  - reflexivity.
  - discriminate.
  - discriminate.
  - reflexivity.
  - reflexivity.
  - reflexivity.
  - split; [cbn; lia | exists 0; reflexivity].
Defined.

(* ===================================================================== *)
(** ** Offsets past the end of the text *)

(** On a text that is not empty [drawFindSelectionXY] completes for every
    offset that is not negative: an offset past the end of the text is
    brought back to the last character, and neither the selected action
    nor the content rectangle nor the hide time changes. *)
Theorem XY_completes_and_clamps (eng : EngineView) (d : Dialog) (st : DialogState) :
  _state d = Some st -> 0 <= _strMouseLoc st -> _str d <> [] ->
  exists st',
    drawFindSelectionXY eng d = Done (set_state d (Some st'))
    /\ _strMouseLoc st' = Z.min (_strMouseLoc st) (size (_str d) - 1)
    /\ _selectedAction st' = _selectedAction st /\ _loc st' = _loc st
    /\ _hideTime st' = _hideTime st.
Proof.
  intros Hs Hoff Hne. unfold drawFindSelectionXY. rewrite Hs.
  assert (Hsz : 0 < size (_str d)).
  { destruct (_str d); [congruence|]. unfold size. cbn. lia. }
  cbn [_strMouseLoc set_charSize set_lastMouse].
  destruct (Z.eqb_spec (_strMouseLoc st) 0) as [H0|H0];
    [eexists; split; [reflexivity|];
     cbn [_strMouseLoc set_charSize set_lastMouse _selectedAction _loc _hideTime];
     repeat split; lia|].
  destruct (wordWrapText _ _ _) as [lines maxWidth].
  destruct (hasFlag d kDlgFlagLeftJust);
    cbn [_strMouseLoc set_charSize set_lastMouse set_strMouseLoc _charHeight _loc];
    destruct (Z.geb_spec (_strMouseLoc st) (size (_str d)));
    cbn [_strMouseLoc set_charSize set_lastMouse set_strMouseLoc _charHeight _loc];
    destruct (xy_find_line _ _ _ _ _) as [totalchars py];
    destruct (_ <? _);
    try (eexists; split; [reflexivity|];
         cbn [_strMouseLoc set_charSize set_lastMouse set_strMouseLoc _selectedAction
              _loc _hideTime];
         repeat split; lia).
  all: match goal with
       | |- context [char_at ?s ?i] =>
           destruct (char_at_in_range s i ltac:(lia)) as [c Hc]; rewrite Hc
       end; cbn [obind];
       destruct (_ <? _); eexists; (split; [reflexivity|]);
       cbn [_strMouseLoc set_charSize set_lastMouse set_strMouseLoc _selectedAction
            _loc _hideTime];
       repeat split; lia.
Qed.

Lemma XY_completes_and_clamps_witness :
  exists st',
    drawFindSelectionXY (example_engine (0, 0) 0) (two_line_dialog 0 0 40)
    = Done (set_state (two_line_dialog 0 0 40) (Some st'))
    /\ _strMouseLoc st' = 5.
Proof.
  destruct (XY_completes_and_clamps (example_engine (0, 0) 0) (two_line_dialog 0 0 40)
              (set_lastMouse (example_state (DgdsRect.mk 13 13 294 54) 40 None) 0 0)
              eq_refl ltac:(cbn; lia) ltac:(discriminate))
    as (st' & Hrun & Hoff & _).
  exists st'. split; [exact Hrun | exact Hoff].
Defined.
